(** * citybeatflow: the issue lifecycle of [server/index.js]

    A shallow embedding of the Express/Mongoose server of the repository:
    the [Issue], [NGO] and [Profile] collections, the route table in
    registration order, the handlers of the issue lifecycle (create, claim,
    status change, updates, escalation query) and the e-mail dispatcher.

    Conventions of the embedding.
    - A JSON request body is a record of optional fields ([Body.t]); an
      absent key is [None].  Fields carry the type the schema gives them.
    - A Mongo collection keyed by [_id] is a [gmap]; an ObjectId is the
      number its 24 hexadecimal digits denote.
    - Handlers run in the monad [M]: state is the [World] (collections,
      mail transport, the log of messages handed to the transport), and a
      rejected promise is [Throw].  What a handler wrote before it threw
      stays written, as in the source, where each [save] is its own write.
    - [new Date()] and [Date.now()] read [now] of the environment [Env]; a
      fresh ObjectId of [Issue.create] is [freshId].

    Library behaviour the embedding relies on.
    - Express tries the routes in the order they were registered, matches
      literal segments without regard to case, and lets [:name] stand for
      one non-empty segment, which it hands to the handler percent-decoded;
      a segment that does not decode is answered 400.  A promise rejected
      inside an [async] handler that has no [try] produces no response.
    - [Model.findById] and [findByIdAndUpdate] reject with a cast error when
      the id is no ObjectId; [findByIdAndUpdate] runs no validators and
      skips the keys of the update whose value is [undefined].
    - [doc.save()] and [Model.create] validate the document against the
      schema ([required], [enum]) and reject when it does not pass;
      [Model.create] first casts the payload, and a number that is no time
      value of a [Date] does not cast to one.
    - A number is a double: sums are exact up to [2 ^ 53] and rounded
      beyond. *)

From Stdlib Require QArith_base.
From stdpp Require Import gmap strings list fin_maps.

Local Open Scope Z_scope.

(** ** JavaScript truthiness on strings *)

Module JS.

(** [if (s)] for a string: every string but the empty one. *)
Definition truthy (s : string) : bool := negb (String.eqb s "").

(** [x || d] where [x] is a string or [undefined]. *)
Definition or (x : option string) (d : string) : string :=
  match x with
  | Some s => if truthy s then s else d
  | None => d
  end.

(** [x || undefined], and the test [if (x)], on an optional string. *)
Definition present (x : option string) : option string :=
  match x with
  | Some s => if truthy s then Some s else None
  | None => None
  end.

(** [n || 0] on a number. *)
Definition or0 (n : Z) : Z := if n =? 0 then 0 else n.

(** Numbers.  A JavaScript number is a double; the embedding carries the
    integral ones, as the integer they denote.  Every integer of magnitude
    up to [2 ^ 53] is a double; beyond it the doubles thin out, and an
    integer that is none is never the value of a number. *)
Definition maxSafe : Z := 2 ^ 53.

(** The double nearest to an integer, a tie going to the even significand
    (of 53 bits).  Overflow to [Infinity], past [2 ^ 1024], is left out. *)
Definition roundDouble (z : Z) : Z :=
  let m := Z.abs z in
  if m <=? maxSafe then z
  else
    let e := Z.log2 m - 52 in
    let q := m / 2 ^ e in
    let r := m mod 2 ^ e in
    let half := 2 ^ (e - 1) in
    let q' :=
      if r <? half then q
      else if half <? r then q + 1
      else if Z.even q then q else q + 1 in
    Z.sgn z * (q' * 2 ^ e).

(** [a + b] on numbers: the exact sum, rounded to a double.  Adding zero
    gives the other number back. *)
Definition plus (a b : Z) : Z :=
  if a =? 0 then b
  else if b =? 0 then a
  else roundDouble (a + b).

(** The sums that lose nothing: those of magnitude up to [2 ^ 53]. *)
Definition exact (z : Z) : Prop := - maxSafe ≤ z ≤ maxSafe.

(** Dates.  A [Date] holds a time value, in milliseconds since the epoch,
    of magnitude up to 8.64e15; [new Date(t)] for any other number is an
    Invalid Date. *)
Definition maxTime : Z := 8640000000000000.

Definition isDate (t : Z) : bool := (- maxTime <=? t) && (t <=? maxTime).

(** A template literal prints [undefined] for an absent value. *)
Definition show (x : option string) : string :=
  match x with Some s => s | None => "undefined" end.

(** [s.replace(/\n/g, '<br/>')] *)
Fixpoint brNewlines (s : string) : string :=
  match s with
  | EmptyString => EmptyString
  | String c r =>
      if Ascii.eqb c (Ascii.ascii_of_nat 10) then "<br/>" +:+ brNewlines r
      else String c (brNewlines r)
  end.

Definition dquote : string := String (Ascii.ascii_of_nat 34) EmptyString.
Definition newline : string := String (Ascii.ascii_of_nat 10) EmptyString.

End JS.

Arguments JS.truthy : simpl never.
Arguments JS.plus : simpl never.

(** ** ObjectIds *)

Module ObjectId.

Definition hexDigit (c : Ascii.ascii) : option N :=
  let n := Ascii.N_of_ascii c in
  if ((48 <=? n) && (n <=? 57))%N then Some (n - 48)%N
  else if ((97 <=? n) && (n <=? 102))%N then Some (n - 87)%N
  else if ((65 <=? n) && (n <=? 70))%N then Some (n - 55)%N
  else None.

Fixpoint parseHex (acc : N) (s : string) : option N :=
  match s with
  | EmptyString => Some acc
  | String c r =>
      match hexDigit c with
      | Some d => parseHex (16 * acc + d)%N r
      | None => None
      end
  end.

(** Mongoose casts a route parameter to an ObjectId; a string that is not
    24 hexadecimal digits does not cast. *)
Definition cast (s : string) : option N :=
  if (String.length s =? 24)%nat then parseHex 0%N s else None.

End ObjectId.

(** ** Percent-escapes *)

Module URI.

(** [decodeURIComponent], which Express applies to every route parameter.
    A string is the sequence of its bytes, a character outside ASCII being
    the bytes of its UTF-8 encoding.  An escape [%XX] stands for one byte;
    the bytes of consecutive escapes must form well-formed UTF-8, and
    anything else is a [URIError]. *)
Inductive State :=
| Plain
| Hex1 (octets : list N) (more : nat)
| Hex2 (octets : list N) (more : nat) (hi : N)
| Next (octets : list N) (more : nat).

Definition percent : Ascii.ascii := Ascii.ascii_of_nat 37.

(** The length of the sequence a first byte announces, by its leading one
    bits: none for one leading bit or more than four. *)
Definition sequenceLength (b : N) : option nat :=
  if (b <? 128)%N then Some 1%nat
  else if (b <? 192)%N then None
  else if (b <? 224)%N then Some 2%nat
  else if (b <? 240)%N then Some 3%nat
  else if (b <? 248)%N then Some 4%nat
  else None.

Definition continuation (b : N) : bool := ((128 <=? b) && (b <? 192))%N.

(** Well-formed UTF-8: no overlong form, no surrogate, nothing past
    U+10FFFF. *)
Definition wellFormed (octets : list N) : bool :=
  match octets with
  | [a] => (a <? 128)%N
  | [a; b] => ((194 <=? a) && (a <=? 223))%N && continuation b
  | [a; b; c] =>
      continuation c
      && (((a =? 224) && (160 <=? b) && (b <=? 191))%N
          || ((225 <=? a) && (a <=? 236))%N && continuation b
          || ((a =? 237) && (128 <=? b) && (b <=? 159))%N
          || ((238 <=? a) && (a <=? 239))%N && continuation b)
  | [a; b; c; d] =>
      continuation c && continuation d
      && (((a =? 240) && (144 <=? b) && (b <=? 191))%N
          || ((241 <=? a) && (a <=? 243))%N && continuation b
          || ((a =? 244) && (128 <=? b) && (b <=? 143))%N)
  | _ => false
  end.

Definition bytes (octets : list N) : string :=
  foldr (λ b r, String (Ascii.ascii_of_N b) r) EmptyString octets.

Fixpoint run (st : State) (s out : string) : option string :=
  match s with
  | EmptyString =>
      match st with
      | Plain => Some out
      | _ => None
      end
  | String c r =>
      match st with
      | Plain =>
          if Ascii.eqb c percent then run (Hex1 [] 0) r out
          else run Plain r (out +:+ String c EmptyString)
      | Hex1 octets more =>
          match ObjectId.hexDigit c with
          | Some hi => run (Hex2 octets more hi) r out
          | None => None
          end
      | Hex2 octets more hi =>
          match ObjectId.hexDigit c with
          | None => None
          | Some lo =>
              let b := (16 * hi + lo)%N in
              match octets with
              | [] =>
                  match sequenceLength b with
                  | None => None
                  | Some 1%nat => run Plain r (out +:+ bytes [b])
                  | Some n => run (Next [b] (n - 1)) r out
                  end
              | _ :: _ =>
                  if continuation b
                  then match more with
                       | 0%nat => None
                       | 1%nat =>
                           if wellFormed (octets ++ [b])
                           then run Plain r (out +:+ bytes (octets ++ [b]))
                           else None
                       | S more' => run (Next (octets ++ [b]) more') r out
                       end
                  else None
              end
          end
      | Next octets more =>
          if Ascii.eqb c percent then run (Hex1 octets more) r out else None
      end
  end.

Definition decodeURIComponent (s : string) : option string :=
  run Plain s EmptyString.

End URI.

(** ** The schemas *)

(** Coordinates are JSON numbers, carried as rationals and never computed on. *)
Record Location := { lat : QArith_base.Q; lng : QArith_base.Q; address : string }.
Record Attachment := { url : string; filename : string; contentType : string }.

Module StatusEntry.
(** An element of [statusHistory]: [{ status, date, by }]. *)
Record t := { status : option string; date : Z; by_ : string }.
End StatusEntry.

Module Update.
(** An element of [updates]: [{ text, date, by }]. *)
Record t := { text : string; date : Z; by_ : string }.
End Update.

Module ClaimUpdate.
Record t := { update : option string; date : Z; ngo : option string }.
End ClaimUpdate.

Module Issue.

Record t := {
  title : string;
  description : string;
  category : string;
  status : string;
  location : Location;
  reportedBy : string;
  reporterEmail : option string;
  reportedAt : Z;
  verificationCount : Z;
  priority : string;
  attachments : list Attachment;
  statusHistory : list StatusEntry.t;
  updates : list Update.t;
  claimedByNGO : string;
  claimStatus : string;
  claimUpdates : list ClaimUpdate.t;
  escalated : bool;
  eventId : option N;
  createdAt : Z;
  updatedAt : Z
}.

Definition statusEnum : list string :=
  ["pending"; "in-progress"; "resolved"; "rejected"; "claimed";
   "community-in-progress"; "solved"].
Definition priorityEnum : list string := ["low"; "medium"; "high"].
Definition claimStatusEnum : list string :=
  ["none"; "claimed"; "community-in-progress"; "solved"].

Definition inEnum (e : list string) (s : string) : bool :=
  existsb (String.eqb s) e.

(** Schema validation, run by [save] and [create]: the [required] paths
    are non-empty strings and the [enum] paths hold a listed value. *)
Definition validate (i : t) : bool :=
  JS.truthy (title i) && JS.truthy (description i)
  && inEnum statusEnum (status i)
  && inEnum priorityEnum (priority i)
  && inEnum claimStatusEnum (claimStatus i).

(** Casting to the schema, run by [create] on the payload: a number given
    for a [Date] path casts when it is the time value of a Date, and a
    document with a path that does not cast is rejected. *)
Definition datesCast (i : t) : bool :=
  JS.isDate (reportedAt i)
  && forallb (λ e, JS.isDate (StatusEntry.date e)) (statusHistory i)
  && forallb (λ u, JS.isDate (Update.date u)) (updates i)
  && forallb (λ c, JS.isDate (ClaimUpdate.date c)) (claimUpdates i).

Definition set_status (s : string) (i : t) : t :=
  {| title := title i; description := description i; category := category i;
     status := s; location := location i; reportedBy := reportedBy i;
     reporterEmail := reporterEmail i; reportedAt := reportedAt i;
     verificationCount := verificationCount i; priority := priority i;
     attachments := attachments i; statusHistory := statusHistory i;
     updates := updates i; claimedByNGO := claimedByNGO i;
     claimStatus := claimStatus i; claimUpdates := claimUpdates i;
     escalated := escalated i; eventId := eventId i;
     createdAt := createdAt i; updatedAt := updatedAt i |}.

Definition set_statusHistory (h : list StatusEntry.t) (i : t) : t :=
  {| title := title i; description := description i; category := category i;
     status := status i; location := location i; reportedBy := reportedBy i;
     reporterEmail := reporterEmail i; reportedAt := reportedAt i;
     verificationCount := verificationCount i; priority := priority i;
     attachments := attachments i; statusHistory := h;
     updates := updates i; claimedByNGO := claimedByNGO i;
     claimStatus := claimStatus i; claimUpdates := claimUpdates i;
     escalated := escalated i; eventId := eventId i;
     createdAt := createdAt i; updatedAt := updatedAt i |}.

Definition set_updates (u : list Update.t) (i : t) : t :=
  {| title := title i; description := description i; category := category i;
     status := status i; location := location i; reportedBy := reportedBy i;
     reporterEmail := reporterEmail i; reportedAt := reportedAt i;
     verificationCount := verificationCount i; priority := priority i;
     attachments := attachments i; statusHistory := statusHistory i;
     updates := u; claimedByNGO := claimedByNGO i;
     claimStatus := claimStatus i; claimUpdates := claimUpdates i;
     escalated := escalated i; eventId := eventId i;
     createdAt := createdAt i; updatedAt := updatedAt i |}.

Definition set_claimedByNGO (n : string) (i : t) : t :=
  {| title := title i; description := description i; category := category i;
     status := status i; location := location i; reportedBy := reportedBy i;
     reporterEmail := reporterEmail i; reportedAt := reportedAt i;
     verificationCount := verificationCount i; priority := priority i;
     attachments := attachments i; statusHistory := statusHistory i;
     updates := updates i; claimedByNGO := n;
     claimStatus := claimStatus i; claimUpdates := claimUpdates i;
     escalated := escalated i; eventId := eventId i;
     createdAt := createdAt i; updatedAt := updatedAt i |}.

Definition set_claimStatus (c : string) (i : t) : t :=
  {| title := title i; description := description i; category := category i;
     status := status i; location := location i; reportedBy := reportedBy i;
     reporterEmail := reporterEmail i; reportedAt := reportedAt i;
     verificationCount := verificationCount i; priority := priority i;
     attachments := attachments i; statusHistory := statusHistory i;
     updates := updates i; claimedByNGO := claimedByNGO i;
     claimStatus := c; claimUpdates := claimUpdates i;
     escalated := escalated i; eventId := eventId i;
     createdAt := createdAt i; updatedAt := updatedAt i |}.

(** [timestamps: true]: every write stamps [updatedAt]. *)
Definition touch (now : Z) (i : t) : t :=
  {| title := title i; description := description i; category := category i;
     status := status i; location := location i; reportedBy := reportedBy i;
     reporterEmail := reporterEmail i; reportedAt := reportedAt i;
     verificationCount := verificationCount i; priority := priority i;
     attachments := attachments i; statusHistory := statusHistory i;
     updates := updates i; claimedByNGO := claimedByNGO i;
     claimStatus := claimStatus i; claimUpdates := claimUpdates i;
     escalated := escalated i; eventId := eventId i;
     createdAt := createdAt i; updatedAt := now |}.

End Issue.

Module NGO.

Record Stats := {
  issuesClaimed : Z;
  issuesSolved : Z;
  volunteerHours : Z;
  resourcesRaised : Z
}.

(** The unique [email] is the key of the collection (see [World]). *)
Record t := {
  name : string;
  profile : option string;
  impactStats : Stats;
  followers : list string;
  events : list N
}.

Definition set_impactStats (s : Stats) (n : t) : t :=
  {| name := name n; profile := profile n; impactStats := s;
     followers := followers n; events := events n |}.

(** [ngo.impactStats.issuesClaimed = (ngo.impactStats.issuesClaimed || 0) + 1] *)
Definition bumpClaimed (n : t) : t :=
  let s := impactStats n in
  set_impactStats
    {| issuesClaimed := JS.plus (JS.or0 (issuesClaimed s)) 1;
       issuesSolved := issuesSolved s;
       volunteerHours := volunteerHours s;
       resourcesRaised := resourcesRaised s |} n.

(** [ngo.impactStats.issuesSolved = (ngo.impactStats.issuesSolved || 0) + 1] *)
Definition bumpSolved (n : t) : t :=
  let s := impactStats n in
  set_impactStats
    {| issuesClaimed := issuesClaimed s;
       issuesSolved := JS.plus (JS.or0 (issuesSolved s)) 1;
       volunteerHours := volunteerHours s;
       resourcesRaised := resourcesRaised s |} n.

End NGO.

Module Profile.
(** [notifyByEmail] is [None] when the stored value is [null]. *)
Record t := {
  fullName : string;
  email : string;
  phone : string;
  gender : string;
  dateOfBirth : string;
  notifyByEmail : option bool
}.
End Profile.

Record Email := { to : string; subject : string; text : string; html : string }.

(** ** Request bodies *)

Module Body.

(** The keys a handler or the schema reads from [req.body].  The flat
    update object of [findByIdAndUpdate] is a value of the same shape: a
    key that is [undefined], or that is no schema path, changes nothing. *)
Record t := {
  title : option string;
  description : option string;
  category : option string;
  status : option string;
  location : option Location;
  reportedBy : option string;
  reporterEmail : option string;
  reportedAt : option Z;
  verificationCount : option Z;
  priority : option string;
  attachments : option (list Attachment);
  statusHistory : option (list StatusEntry.t);
  updates : option (list Update.t);
  claimedByNGO : option string;
  claimStatus : option string;
  claimUpdates : option (list ClaimUpdate.t);
  escalated : option bool;
  eventId : option N;
  ngo : option string;
  ngoEmail : option string;
  text : option string;
  by_ : option string
}.

Definition empty : t :=
  {| title := None; description := None; category := None; status := None;
     location := None; reportedBy := None; reporterEmail := None;
     reportedAt := None; verificationCount := None; priority := None;
     attachments := None; statusHistory := None; updates := None;
     claimedByNGO := None; claimStatus := None; claimUpdates := None;
     escalated := None; eventId := None; ngo := None; ngoEmail := None;
     text := None; by_ := None |}.

(** [{ claimedByNGO: ngo, claimStatus: 'claimed', status: 'community-in-progress' }] *)
Definition claimUpdate (ngo : option string) : t :=
  {| title := None; description := None; category := None;
     status := Some "community-in-progress";
     location := None; reportedBy := None; reporterEmail := None;
     reportedAt := None; verificationCount := None; priority := None;
     attachments := None; statusHistory := None; updates := None;
     claimedByNGO := ngo; claimStatus := Some "claimed"; claimUpdates := None;
     escalated := None; eventId := None; ngo := None; ngoEmail := None;
     text := None; by_ := None |}.

(** [{ status }] *)
Definition statusUpdate (s : option string) : t :=
  {| title := None; description := None; category := None; status := s;
     location := None; reportedBy := None; reporterEmail := None;
     reportedAt := None; verificationCount := None; priority := None;
     attachments := None; statusHistory := None; updates := None;
     claimedByNGO := None; claimStatus := None; claimUpdates := None;
     escalated := None; eventId := None; ngo := None; ngoEmail := None;
     text := None; by_ := None |}.

End Body.

(** [$set] of every schema path present in the update object. *)
Definition applyUpdate (u : Body.t) (i : Issue.t) : Issue.t :=
  {| Issue.title := default (Issue.title i) (Body.title u);
     Issue.description := default (Issue.description i) (Body.description u);
     Issue.category := default (Issue.category i) (Body.category u);
     Issue.status := default (Issue.status i) (Body.status u);
     Issue.location := default (Issue.location i) (Body.location u);
     Issue.reportedBy := default (Issue.reportedBy i) (Body.reportedBy u);
     Issue.reporterEmail :=
       match Body.reporterEmail u with
       | Some e => Some e
       | None => Issue.reporterEmail i
       end;
     Issue.reportedAt := default (Issue.reportedAt i) (Body.reportedAt u);
     Issue.verificationCount :=
       default (Issue.verificationCount i) (Body.verificationCount u);
     Issue.priority := default (Issue.priority i) (Body.priority u);
     Issue.attachments := default (Issue.attachments i) (Body.attachments u);
     Issue.statusHistory :=
       default (Issue.statusHistory i) (Body.statusHistory u);
     Issue.updates := default (Issue.updates i) (Body.updates u);
     Issue.claimedByNGO := default (Issue.claimedByNGO i) (Body.claimedByNGO u);
     Issue.claimStatus := default (Issue.claimStatus i) (Body.claimStatus u);
     Issue.claimUpdates := default (Issue.claimUpdates i) (Body.claimUpdates u);
     Issue.escalated := default (Issue.escalated i) (Body.escalated u);
     Issue.eventId :=
       match Body.eventId u with
       | Some e => Some e
       | None => Issue.eventId i
       end;
     Issue.createdAt := Issue.createdAt i;
     Issue.updatedAt := Issue.updatedAt i |}.

(** ** The world a handler runs in *)

(** A document is the record together with its [_id]. *)
Definition Doc : Type := N * Issue.t.

Record World := {
  issues : gmap N Issue.t;
  (** [NGO.email] is [unique]: the collection is a map from the e-mail. *)
  ngos : gmap string NGO.t;
  (** [Profile.email] is indexed, not unique: [findOne] takes the first. *)
  profiles : list Profile.t;
  (** [mailer]: [None] when SMTP is not configured; [Some ok] a transport
      whose [sendMail] resolves ([ok = true]) or rejects. *)
  mailer : option bool;
  (** Every message handed to [mailer.sendMail], oldest first. *)
  outbox : list Email
}.

Definition set_issues (m : gmap N Issue.t) (w : World) : World :=
  {| issues := m; ngos := ngos w; profiles := profiles w;
     mailer := mailer w; outbox := outbox w |}.

Definition set_ngos (m : gmap string NGO.t) (w : World) : World :=
  {| issues := issues w; ngos := m; profiles := profiles w;
     mailer := mailer w; outbox := outbox w |}.

Definition set_outbox (o : list Email) (w : World) : World :=
  {| issues := issues w; ngos := ngos w; profiles := profiles w;
     mailer := mailer w; outbox := o |}.

Record Env := { now : Z; freshId : N }.

(** ** The handler monad *)

Inductive Exn := CastError | ValidationError | DuplicateKey.

Inductive Outcome (A : Type) :=
| Done (a : A)
| Throw (e : Exn).
Arguments Done {A} a.
Arguments Throw {A} e.

Definition M (A : Type) : Type := World → Outcome A * World.

Definition ret {A} (a : A) : M A := λ w, (Done a, w).

Definition throw {A} (e : Exn) : M A := λ w, (Throw e, w).

Definition bind {A B} (m : M A) (k : A → M B) : M B :=
  λ w, match m w with
       | (Done a, w') => k a w'
       | (Throw e, w') => (Throw e, w')
       end.

(** [try { m } catch (e) { h e }] *)
Definition catch {A} (m : M A) (h : Exn → M A) : M A :=
  λ w, match m w with
       | (Done a, w') => (Done a, w')
       | (Throw e, w') => h e w'
       end.

Notation "'let!' x ':=' m 'in' k" := (bind m (λ x, k))
  (at level 10, x pattern, m at level 200, k at level 200).

(** ** Mongoose operations *)

Definition findById (id : string) : M (option Doc) :=
  λ w, match ObjectId.cast id with
       | None => (Throw CastError, w)
       | Some oid => (Done (pair oid <$> issues w !! oid), w)
       end.

(** [Issue.findByIdAndUpdate(id, u, { new: true })]: no validators run.
    The update objects the handlers build carry no date.  For the generic
    [PUT], whose update is the request body, the dates of the body are
    taken to be Dates: Mongoose rejects the update otherwise. *)
Definition findByIdAndUpdate (env : Env) (id : string) (u : Body.t)
  : M (option Doc) :=
  λ w, match ObjectId.cast id with
       | None => (Throw CastError, w)
       | Some oid =>
           match issues w !! oid with
           | None => (Done None, w)
           | Some i =>
               let i' := Issue.touch (now env) (applyUpdate u i) in
               (Done (Some (oid, i')), set_issues (<[oid := i']> (issues w)) w)
           end
       end.

(** [issue.save()]: validates, then writes the document back. *)
Definition saveIssue (env : Env) (d : Doc) : M Doc :=
  λ w, if Issue.validate d.2
       then let i' := Issue.touch (now env) d.2 in
            (Done (d.1, i'), set_issues (<[d.1 := i']> (issues w)) w)
       else (Throw ValidationError, w).

(** [Issue.create(payload)]: casts and validates, then inserts under a
    fresh [_id]. *)
Definition insertIssue (env : Env) (i : Issue.t) : M Doc :=
  λ w, if Issue.datesCast i && Issue.validate i
       then match issues w !! freshId env with
            | Some _ => (Throw DuplicateKey, w)
            | None =>
                (Done (freshId env, i),
                 set_issues (<[freshId env := i]> (issues w)) w)
            end
       else (Throw ValidationError, w).

(** [Issue.find(q)] *)
Definition findIssues (q : Issue.t → bool) : M (list Doc) :=
  λ w, (Done (filter (λ d, q d.2 = true) (map_to_list (issues w))), w).

(** The NGO document whose [email] equals the given value, if any. *)
Definition findNGO (w : World) (email : option string)
  : option (string * NGO.t) :=
  match email with
  | Some e => pair e <$> ngos w !! e
  | None => None
  end.

(** [NGO.findOne({ email })] *)
Definition NGO_findOne (email : option string) : M (option (string * NGO.t)) :=
  λ w, (Done (findNGO w email), w).

(** [ngo.save()]: [name] is [required]. *)
Definition saveNGO (d : string * NGO.t) : M unit :=
  λ w, if JS.truthy (NGO.name d.2)
       then (Done tt, set_ngos (<[d.1 := d.2]> (ngos w)) w)
       else (Throw ValidationError, w).

(** The first profile stored under the address, if any. *)
Definition findProfile (w : World) (email : string) : option Profile.t :=
  List.find (λ p, String.eqb (Profile.email p) email) (profiles w).

(** [Profile.findOne({ email })] *)
Definition Profile_findOne (email : string) : M (option Profile.t) :=
  λ w, (Done (findProfile w email), w).

(** ** The e-mail dispatcher *)

Definition sendEmail (m : Email) : M bool :=
  λ w, match mailer w with
       | None => (Done false, w)
       | Some ok => (Done ok, set_outbox (outbox w ++ [m]) w)
       end.

(** [!profile || profile.notifyByEmail !== false] *)
Definition optedIn (p : option Profile.t) : bool :=
  match p with
  | None => true
  | Some p =>
      match Profile.notifyByEmail p with
      | Some false => false
      | _ => true
      end
  end.

(** The block every notifying handler ends with:
    [if (issue.reporterEmail) { try { ... sendEmail(...) } catch (e) { } }] *)
Definition notifyReporter (i : Issue.t) (mk : string → Email) : M unit :=
  match JS.present (Issue.reporterEmail i) with
  | Some e =>
      catch (let! p := Profile_findOne e in
             if optedIn p
             then let! _ := sendEmail (mk e) in ret tt
             else ret tt)
            (λ _, ret tt)
  | None => ret tt
  end.

(** What [notifyReporter] hands to the transport. *)
Definition notification (w : World) (i : Issue.t) (mk : string → Email)
  : list Email :=
  match JS.present (Issue.reporterEmail i) with
  | Some e =>
      if optedIn (findProfile w e)
      then match mailer w with
           | Some _ => [mk e]
           | None => []
           end
      else []
  | None => []
  end.

(** ** Responses *)

Inductive Payload :=
| JIssue (d : Doc)
| JIssues (l : list Doc)
| JError (msg : string).

Record Response := { code : nat; payload : Payload }.

Definition json (d : Doc) : Response := {| code := 200; payload := JIssue d |}.
Definition failure (c : nat) (msg : string) : Response :=
  {| code := c; payload := JError msg |}.

(** ** Handlers, in the order of the source *)

(** [GET /api/issues/:id] *)
Definition getIssueById (id : string) : M Response :=
  catch (let! r := findById id in
         match r with
         | None => ret (failure 404 "Issue not found")
         | Some d => ret (json d)
         end)
        (λ _, ret (failure 500 "Failed to fetch issue")).

Definition tenDays : Z := 10 * 24 * 60 * 60 * 1000.

(** The filter [{ status: 'pending', reportedAt: { $lte: tenDaysAgo } }]. *)
Definition overdue (env : Env) (i : Issue.t) : bool :=
  String.eqb (Issue.status i) "pending"
  && (Issue.reportedAt i <=? now env - tenDays).

(** The handler registered for [GET /api/issues/escalated]. *)
Definition getEscalated (env : Env) : M Response :=
  let! l := findIssues (overdue env) in
  ret {| code := 200; payload := JIssues l |}.

Definition claimMail (i : Issue.t) (ngo : option string) (e : string) : Email :=
  let text :=
    "Good news â€” " +:+ JS.show ngo +:+ " has adopted your report titled: "
    +:+ Issue.title i
    +:+ ". The organization will follow up and update progress." in
  {| to := e;
     subject := "Your report " +:+ JS.dquote +:+ Issue.title i +:+ JS.dquote
                +:+ " was adopted by " +:+ JS.show ngo;
     text := text;
     html := "<p>" +:+ text +:+ "</p>" |}.

(** [POST /api/issues/:id/claim] *)
Definition claimIssue (env : Env) (id : string) (b : Body.t) : M Response :=
  let ngo := Body.ngo b in
  let! r := findByIdAndUpdate env id (Body.claimUpdate ngo) in
  match r with
  | None => ret (failure 404 "Issue not found")
  | Some d =>
      let! _ := notifyReporter d.2 (claimMail d.2 ngo) in
      ret (json d)
  end.

(** The mutation of the NGO route: [claimedByNGO], [claimStatus], [status],
    then the push on [statusHistory]. *)
Definition claimedBy (env : Env) (n : NGO.t) (i : Issue.t) : Issue.t :=
  let i1 := Issue.set_claimedByNGO (NGO.name n) i in
  let i2 := Issue.set_claimStatus "claimed" i1 in
  let i3 := Issue.set_status "community-in-progress" i2 in
  Issue.set_statusHistory
    (Issue.statusHistory i3
     ++ [{| StatusEntry.status := Some (Issue.status i3);
            StatusEntry.date := now env;
            StatusEntry.by_ := NGO.name n |}]) i3.

(** [POST /api/ngo/issues/:id/claim] *)
Definition ngoClaim (env : Env) (id : string) (b : Body.t) : M Response :=
  let ngoEmail := Body.ngoEmail b in
  let! ngo := NGO_findOne ngoEmail in
  match ngo with
  | None => ret (failure 404 "NGO not found")
  | Some (e, n) =>
      let! r := findById id in
      match r with
      | None => ret (failure 404 "Issue not found")
      | Some (oid, i) =>
          let! d := saveIssue env (oid, claimedBy env n i) in
          let! _ := saveNGO (e, NGO.bumpClaimed n) in
          ret (json d)
      end
  end.

Definition isSolved (s : string) : bool :=
  String.eqb s "solved" || String.eqb s "resolved".

(** [ngo ? ngo.name : (ngoEmail || 'ngo')] *)
Definition actor (ngo : option (string * NGO.t)) (ngoEmail : option string)
  : string :=
  match ngo with
  | Some (_, n) => NGO.name n
  | None => JS.or ngoEmail "ngo"
  end.

Definition pushUpdate (u : Update.t) (i : Issue.t) : Issue.t :=
  Issue.set_updates (Issue.updates i ++ [u]) i.

(** [issue.statusHistory.push({ status, date, by }); issue.status = status] *)
Definition pushStatus (env : Env) (s by_ : string) (i : Issue.t) : Issue.t :=
  Issue.set_status s
    (Issue.set_statusHistory
       (Issue.statusHistory i
        ++ [{| StatusEntry.status := Some s;
               StatusEntry.date := now env;
               StatusEntry.by_ := by_ |}]) i).

Definition ngoUpdateMail (i : Issue.t) (u : Update.t) (status : option string)
    (e : string) : Email :=
  let bodyText :=
    Update.by_ u +:+ " posted an update: "
    +:+ (if JS.truthy (Update.text u) then Update.text u else "(status change)")
    +:+ (match JS.present status with
         | Some s => JS.newline +:+ "New status: " +:+ s
         | None => ""
         end) in
  {| to := e;
     subject := "Update on your report: " +:+ Issue.title i;
     text := bodyText;
     html := "<p>" +:+ JS.brNewlines bodyText +:+ "</p>" |}.

(** [POST /api/ngo/issues/:id/update] *)
Definition ngoUpdate (env : Env) (id : string) (b : Body.t) : M Response :=
  let ngoEmail := Body.ngoEmail b in
  let text := Body.text b in
  let status := Body.status b in
  let! ngo := NGO_findOne ngoEmail in
  let! r := findById id in
  match r with
  | None => ret (failure 404 "Issue not found")
  | Some (oid, i) =>
      let updateObj :=
        {| Update.text := JS.or text ""; Update.date := now env;
           Update.by_ := actor ngo ngoEmail |} in
      let i1 := pushUpdate updateObj i in
      let! i2 :=
        match JS.present status with
        | Some s =>
            let i' := pushStatus env s (actor ngo ngoEmail) i1 in
            if isSolved s
            then match ngo with
                 | Some (e, n) =>
                     let! _ := saveNGO (e, NGO.bumpSolved n) in ret i'
                 | None => ret i'
                 end
            else ret i'
        | None => ret i1
        end in
      let! d := saveIssue env (oid, i2) in
      let! _ := notifyReporter d.2 (ngoUpdateMail d.2 updateObj status) in
      ret (json d)
  end.

Definition statusMail (i : Issue.t) (status : option string) (e : string)
  : Email :=
  let text :=
    "The status of your report " +:+ JS.dquote +:+ Issue.title i +:+ JS.dquote
    +:+ " has changed to: " +:+ JS.show status in
  {| to := e;
     subject := "Status update for your report: " +:+ Issue.title i;
     text := text;
     html := "<p>" +:+ text +:+ "</p>" |}.

(** [PUT /api/issues/:id/status]: the history push and its [save] sit in a
    [try] whose [catch] ignores the error; the in-memory document keeps the
    pushed entry either way. *)
Definition putStatus (env : Env) (id : string) (b : Body.t) : M Response :=
  let status := Body.status b in
  let! r := findByIdAndUpdate env id (Body.statusUpdate status) in
  match r with
  | None => ret (failure 404 "Issue not found")
  | Some (oid, i) =>
      let i' :=
        Issue.set_statusHistory
          (Issue.statusHistory i
           ++ [{| StatusEntry.status := status;
                  StatusEntry.date := now env;
                  StatusEntry.by_ := "admin" |}]) i in
      let! d := catch (saveIssue env (oid, i')) (λ _, ret (oid, i')) in
      let! _ := notifyReporter d.2 (statusMail d.2 status) in
      ret (json d)
  end.

(** [createPayload] of [POST /api/issues]; the paths it leaves out take the
    schema defaults. *)
Definition createPayload (env : Env) (body : Body.t) : Issue.t :=
  {| Issue.title := default "" (Body.title body);
     Issue.description := default "" (Body.description body);
     Issue.category := JS.or (Body.category body) "other";
     Issue.status := JS.or (Body.status body) "pending";
     Issue.location :=
       default {| lat := QArith_base.Qmake 0 1; lng := QArith_base.Qmake 0 1;
                  address := "" |} (Body.location body);
     Issue.reportedBy := JS.or (Body.reportedBy body) "anonymous";
     Issue.reporterEmail := JS.present (Body.reporterEmail body);
     Issue.reportedAt :=
       match Body.reportedAt body with
       | Some t => if t =? 0 then now env else t
       | None => now env
       end;
     Issue.verificationCount := JS.or0 (default 0 (Body.verificationCount body));
     Issue.priority := JS.or (Body.priority body) "medium";
     Issue.attachments := default [] (Body.attachments body);
     Issue.statusHistory := default [] (Body.statusHistory body);
     Issue.updates := default [] (Body.updates body);
     Issue.claimedByNGO := "";
     Issue.claimStatus := "none";
     Issue.claimUpdates := [];
     Issue.escalated := false;
     Issue.eventId := None;
     Issue.createdAt := now env;
     Issue.updatedAt := now env |}.

(** [POST /api/issues] *)
Definition createIssue (env : Env) (body : Body.t) : M Response :=
  let! d := insertIssue env (createPayload env body) in
  ret {| code := 201; payload := JIssue d |}.

(** [PUT /api/issues/:id] *)
Definition putIssue (env : Env) (id : string) (update : Body.t) : M Response :=
  let! r := findByIdAndUpdate env id update in
  match r with
  | None => ret (failure 404 "Issue not found")
  | Some d => ret (json d)
  end.

Definition addUpdateMail (i : Issue.t) (u : Update.t) (e : string) : Email :=
  let text := Update.by_ u +:+ " posted: " +:+ Update.text u in
  {| to := e;
     subject := "Update on your report: " +:+ Issue.title i;
     text := text;
     html := "<p>" +:+ text +:+ "</p>" |}.

(** [POST /api/issues/:id/add-update] *)
Definition addUpdate (env : Env) (id : string) (b : Body.t) : M Response :=
  let text := Body.text b in
  let status := Body.status b in
  let by_ := Body.by_ b in
  let updateObj :=
    {| Update.text := JS.or text ""; Update.date := now env;
       Update.by_ := JS.or by_ "system" |} in
  let! r := findById id in
  match r with
  | None => ret (failure 404 "Issue not found")
  | Some (oid, i) =>
      let i1 := pushUpdate updateObj i in
      let i2 :=
        match JS.present status with
        | Some s => pushStatus env s (JS.or by_ "system") i1
        | None => i1
        end in
      let! d := saveIssue env (oid, i2) in
      let! _ := notifyReporter d.2 (addUpdateMail d.2 updateObj) in
      ret (json d)
  end.

(** ** The documents the handlers save

    Closed forms of the in-memory document at the moment of [save], used to
    state what each handler stores. *)

(** [PUT /api/issues/:id/status] *)
Definition statusChanged (env : Env) (status : option string) (i : Issue.t)
  : Issue.t :=
  let i1 := Issue.touch (now env) (applyUpdate (Body.statusUpdate status) i) in
  Issue.set_statusHistory
    (Issue.statusHistory i1
     ++ [{| StatusEntry.status := status; StatusEntry.date := now env;
            StatusEntry.by_ := "admin" |}]) i1.

(** [POST /api/issues/:id/add-update] *)
Definition updateAdded (env : Env) (b : Body.t) (i : Issue.t) : Issue.t :=
  let u := {| Update.text := JS.or (Body.text b) ""; Update.date := now env;
              Update.by_ := JS.or (Body.by_ b) "system" |} in
  match JS.present (Body.status b) with
  | Some s => pushStatus env s (JS.or (Body.by_ b) "system") (pushUpdate u i)
  | None => pushUpdate u i
  end.

(** [POST /api/ngo/issues/:id/update] *)
Definition ngoUpdated (env : Env) (ngo : option (string * NGO.t)) (b : Body.t)
    (i : Issue.t) : Issue.t :=
  let u := {| Update.text := JS.or (Body.text b) ""; Update.date := now env;
              Update.by_ := actor ngo (Body.ngoEmail b) |} in
  match JS.present (Body.status b) with
  | Some s => pushStatus env s (actor ngo (Body.ngoEmail b)) (pushUpdate u i)
  | None => pushUpdate u i
  end.

(** The NGO collection after [POST /api/ngo/issues/:id/update]. *)
Definition ngosAfterUpdate (ngo : option (string * NGO.t)) (b : Body.t)
    (ns : gmap string NGO.t) : gmap string NGO.t :=
  match JS.present (Body.status b), ngo with
  | Some s, Some (e, n) =>
      if isSolved s then <[e := NGO.bumpSolved n]> ns else ns
  | _, _ => ns
  end.

(** ** Well-formedness and the operations of the lifecycle *)

(** Every NGO record has the [name] its schema requires. *)
Definition NGOsValid (w : World) : Prop :=
  ∀ e n, ngos w !! e = Some n → JS.truthy (NGO.name n) = true.

(** A status that a handler acts on ([if (status)]) is one the schema lists. *)
Definition statusListed (b : Body.t) : Prop :=
  ∀ s, JS.present (Body.status b) = Some s →
       Issue.inEnum Issue.statusEnum s = true.

(** The request asks for [solved] or [resolved]. *)
Definition solvedRequested (b : Body.t) : bool :=
  match JS.present (Body.status b) with
  | Some s => isSolved s
  | None => false
  end.

(** [claimedByNGO] is non-empty exactly when [claimStatus] is not [none]. *)
Definition claimInv (i : Issue.t) : Prop :=
  Issue.claimedByNGO i ≠ "" ↔ Issue.claimStatus i ≠ "none".

Definition allClaimInv (w : World) : Prop :=
  ∀ k i, issues w !! k = Some i → claimInv i.

(** The store invariant the lifecycle maintains. *)
Definition storeOK (w : World) : Prop := NGOsValid w ∧ allClaimInv w.

(** The handlers that end with the notification block. *)
Inductive Notifying := ViaClaim | ViaPutStatus | ViaAddUpdate | ViaNgoUpdate.

Definition runNotifying (h : Notifying) : Env → string → Body.t → M Response :=
  match h with
  | ViaClaim => claimIssue
  | ViaPutStatus => putStatus
  | ViaAddUpdate => addUpdate
  | ViaNgoUpdate => ngoUpdate
  end.

(** The handlers that change [status] to a requested value. *)
Inductive StatusChange := ByPutStatus | ByAddUpdate | ByNgoUpdate.

Definition runStatusChange (h : StatusChange)
  : Env → string → Body.t → M Response :=
  match h with
  | ByPutStatus => putStatus
  | ByAddUpdate => addUpdate
  | ByNgoUpdate => ngoUpdate
  end.

(** Calls of the lifecycle other than the generic [PUT /api/issues/:id]. *)
Inductive Op :=
| OpCreate (env : Env) (b : Body.t)
| OpClaim (env : Env) (id : string) (b : Body.t)
| OpNgoClaim (env : Env) (id : string) (b : Body.t)
| OpPutStatus (env : Env) (id : string) (b : Body.t)
| OpAddUpdate (env : Env) (id : string) (b : Body.t)
| OpNgoUpdate (env : Env) (id : string) (b : Body.t).

Definition runOp (op : Op) : M Response :=
  match op with
  | OpCreate env b => createIssue env b
  | OpClaim env id b => claimIssue env id b
  | OpNgoClaim env id b => ngoClaim env id b
  | OpPutStatus env id b => putStatus env id b
  | OpAddUpdate env id b => addUpdate env id b
  | OpNgoUpdate env id b => ngoUpdate env id b
  end.

(** A plain claim names its NGO: [ngo] is a non-empty string. *)
Definition namesNGO (op : Op) : Prop :=
  match op with
  | OpClaim _ _ b => JS.present (Body.ngo b) ≠ None
  | _ => True
  end.

(** The stores reachable from [w0] by such calls, whatever their outcome. *)
Inductive reachable (w0 : World) : World → Prop :=
| reach_refl : reachable w0 w0
| reach_step w op :
    reachable w0 w → namesNGO op → reachable w0 (runOp op w).2.

(** ** The router *)

Module Router.

Inductive Method := GET | POST | PUT.

Definition Method_eqb (a b : Method) : bool :=
  match a, b with
  | GET, GET | POST, POST | PUT, PUT => true
  | _, _ => false
  end.

(** The handlers of the embedding; [Other] stands for a registered route
    whose handler is not part of it. *)
Inductive Handler :=
| GetIssueById | GetEscalated | ClaimIssue | NgoClaim | NgoUpdate
| PutStatus | CreateIssue | PutIssue | AddUpdate
| Other.

Inductive Seg := Lit (s : string) | Param.

Fixpoint splitOn (sep : Ascii.ascii) (cur s : string) : list string :=
  match s with
  | EmptyString => [cur]
  | String c r =>
      if Ascii.eqb c sep then cur :: splitOn sep EmptyString r
      else splitOn sep (cur +:+ String c EmptyString) r
  end.

Definition slash : Ascii.ascii := Ascii.ascii_of_nat 47.
Definition colon : Ascii.ascii := Ascii.ascii_of_nat 58.

Fixpoint dropLastEmpty (l : list string) : list string :=
  match l with
  | [] => []
  | [s] => if String.eqb s "" then [] else [s]
  | s :: r => s :: dropLastEmpty r
  end.

(** The segments of a request path: it starts with a slash, and one
    trailing slash is allowed (Express routes are not strict). *)
Definition segments (p : string) : option (list string) :=
  match splitOn slash EmptyString p with
  | s :: rest => if String.eqb s "" then Some (dropLastEmpty rest) else None
  | [] => None
  end.

(** A route path as written in the source; [:name] is a parameter. *)
Definition pattern (p : string) : list Seg :=
  match segments p with
  | Some l =>
      map (λ s, match s with
                | String c _ => if Ascii.eqb c colon then Param else Lit s
                | EmptyString => Lit s
                end) l
  | None => []
  end.

Definition lowerChar (c : Ascii.ascii) : Ascii.ascii :=
  let n := Ascii.nat_of_ascii c in
  if ((65 <=? n) && (n <=? 90))%nat then Ascii.ascii_of_nat (n + 32) else c.

Fixpoint lower (s : string) : string :=
  match s with
  | EmptyString => EmptyString
  | String c r => String (lowerChar c) (lower r)
  end.

(** Literals match without regard to case; a parameter takes one
    non-empty segment.  The result is the list of parameter values. *)
Fixpoint matchPath (pat : list Seg) (segs : list string)
  : option (list string) :=
  match pat, segs with
  | [], [] => Some []
  | Lit l :: pat', s :: segs' =>
      if String.eqb (lower s) (lower l) then matchPath pat' segs' else None
  | Param :: pat', s :: segs' =>
      if JS.truthy s then cons s <$> matchPath pat' segs' else None
  | _, _ => None
  end.

(** [app.get], [app.post] and [app.put] in the order they are called. *)
Definition table : list (Method * string * Handler) :=
  [ (GET, "/health", Other);
    (POST, "/api/auth/signup", Other);
    (POST, "/api/auth/login", Other);
    (POST, "/api/ngo/auth/signup", Other);
    (POST, "/api/ngo/auth/login", Other);
    (GET, "/api/issues", Other);
    (GET, "/api/issues/:id", GetIssueById);
    (GET, "/api/issues/escalated", GetEscalated);
    (POST, "/api/issues/:id/claim", ClaimIssue);
    (POST, "/api/ngo/issues/:id/claim", NgoClaim);
    (POST, "/api/ngo/issues/:id/update", NgoUpdate);
    (POST, "/api/issues/:id/claim-update", Other);
    (PUT, "/api/issues/:id/status", PutStatus);
    (POST, "/api/events", Other);
    (GET, "/api/events", Other);
    (POST, "/api/events/:id/volunteer", Other);
    (POST, "/api/events/:id/donate", Other);
    (GET, "/api/ngos/:email", Other);
    (POST, "/api/ngos/:email/follow", Other);
    (POST, "/api/events/:id/wishlist", Other);
    (POST, "/api/events/:id/donate-item", Other);
    (GET, "/api/ngos/:email/stats", Other);
    (POST, "/api/issues", CreateIssue);
    (PUT, "/api/issues/:id", PutIssue);
    (POST, "/api/issues/:id/attachments", Other);
    (POST, "/api/issues/:id/add-update", AddUpdate);
    (POST, "/api/issues/:id/escalate", Other);
    (GET, "/api/stats", Other);
    (GET, "/api/profile", Other);
    (POST, "/api/profile", Other) ].

(** The first registered route that matches handles the request. *)
Fixpoint lookup (t : list (Method * string * Handler)) (m : Method)
    (segs : list string) : option (Handler * list string) :=
  match t with
  | [] => None
  | (m', p, h) :: t' =>
      if Method_eqb m m'
      then match matchPath (pattern p) segs with
           | Some params => Some (h, params)
           | None => lookup t' m segs
           end
      else lookup t' m segs
  end.

Definition route (m : Method) (segs : list string)
  : option (Handler * list string) :=
  lookup table m segs.

(** The router with its parameters decoded.  It walks the routes in order:
    a route whose path matches has its parameters decoded, and a parameter
    that does not decode ends the walk with an error, whatever the method;
    a route whose path and method match handles the request. *)
Inductive Dispatch :=
| NotFound
| BadParam
| Found (h : Handler) (params : list string).

Fixpoint walk (t : list (Method * string * Handler)) (m : Method)
    (segs : list string) : Dispatch :=
  match t with
  | [] => NotFound
  | (m', p, h) :: t' =>
      match matchPath (pattern p) segs with
      | None => walk t' m segs
      | Some raw =>
          match mapM URI.decodeURIComponent raw with
          | None => BadParam
          | Some params =>
              if Method_eqb m m' then Found h params else walk t' m segs
          end
      end
  end.

Definition dispatch (m : Method) (segs : list string) : Dispatch :=
  walk table m segs.

End Router.

Record Request := {
  method : Router.Method;
  path : string;
  body : Body.t
}.

(** [Refused] is the 400 of Express for a parameter that does not decode. *)
Inductive Served :=
| NoRoute
| Refused
| Unmodelled
| Ran (r : Outcome Response * World).

(** What the application does with a request. *)
Definition serve (env : Env) (req : Request) (w : World) : Served :=
  match Router.segments (path req) with
  | None => NoRoute
  | Some segs =>
      match Router.dispatch (method req) segs with
      | Router.NotFound => NoRoute
      | Router.BadParam => Refused
      | Router.Found h params =>
          let id := hd "" params in
          match h with
          | Router.GetIssueById => Ran (getIssueById id w)
          | Router.GetEscalated => Ran (getEscalated env w)
          | Router.ClaimIssue => Ran (claimIssue env id (body req) w)
          | Router.NgoClaim => Ran (ngoClaim env id (body req) w)
          | Router.NgoUpdate => Ran (ngoUpdate env id (body req) w)
          | Router.PutStatus => Ran (putStatus env id (body req) w)
          | Router.CreateIssue => Ran (createIssue env (body req) w)
          | Router.PutIssue => Ran (putIssue env id (body req) w)
          | Router.AddUpdate => Ran (addUpdate env id (body req) w)
          | Router.Other => Unmodelled
          end
      end
  end.

(** ** A sample deployment

    One pending report with a reporter, one registered NGO, a configured
    transport.  The scenario of the specification runs on it. *)

Module Sample.

Definition id0 : string := "507f1f77bcf86cd799439011".
Definition oid0 : N := Eval vm_compute in default 0%N (ObjectId.cast id0).

Definition day : Z := 24 * 60 * 60 * 1000.
Definition env0 : Env := {| now := 100 * day; freshId := 4096 |}.

Definition pothole : Issue.t :=
  {| Issue.title := "Pothole on Main St";
     Issue.description := "Deep pothole near the crossing";
     Issue.category := "pothole";
     Issue.status := "pending";
     Issue.location :=
       {| lat := QArith_base.Qmake 0 1; lng := QArith_base.Qmake 0 1;
          address := "Main St" |};
     Issue.reportedBy := "Asha";
     Issue.reporterEmail := Some "a@x.com";
     Issue.reportedAt := 89 * day;
     Issue.verificationCount := 0;
     Issue.priority := "medium";
     Issue.attachments := [];
     Issue.statusHistory := [];
     Issue.updates := [];
     Issue.claimedByNGO := "";
     Issue.claimStatus := "none";
     Issue.claimUpdates := [];
     Issue.escalated := false;
     Issue.eventId := None;
     Issue.createdAt := 89 * day;
     Issue.updatedAt := 89 * day |}.

Definition greenCity : NGO.t :=
  {| NGO.name := "GreenCity";
     NGO.profile := Some "";
     NGO.impactStats :=
       {| NGO.issuesClaimed := 0; NGO.issuesSolved := 0;
          NGO.volunteerHours := 0; NGO.resourcesRaised := 0 |};
     NGO.followers := [];
     NGO.events := [] |}.

Definition optedOut : Profile.t :=
  {| Profile.fullName := "Asha"; Profile.email := "a@x.com";
     Profile.phone := ""; Profile.gender := ""; Profile.dateOfBirth := "";
     Profile.notifyByEmail := Some false |}.

Definition world0 : World :=
  {| issues := {[ oid0 := pothole ]};
     ngos := {[ "green@city.org"%string := greenCity ]};
     profiles := [];
     mailer := Some true;
     outbox := [] |}.

(** The same deployment, the reporter having switched notifications off. *)
Definition worldQuiet : World :=
  {| issues := {[ oid0 := pothole ]};
     ngos := {[ "green@city.org"%string := greenCity ]};
     profiles := [optedOut];
     mailer := Some true;
     outbox := [] |}.

(** A body carrying only the keys the update and claim routes read. *)
Definition say (status ngo ngoEmail text by_ : option string) : Body.t :=
  {| Body.title := None; Body.description := None; Body.category := None;
     Body.status := status; Body.location := None; Body.reportedBy := None;
     Body.reporterEmail := None; Body.reportedAt := None;
     Body.verificationCount := None; Body.priority := None;
     Body.attachments := None; Body.statusHistory := None;
     Body.updates := None; Body.claimedByNGO := None;
     Body.claimStatus := None; Body.claimUpdates := None;
     Body.escalated := None; Body.eventId := None;
     Body.ngo := ngo; Body.ngoEmail := ngoEmail;
     Body.text := text; Body.by_ := by_ |}.

(** [{ ngo: 'GreenCity', ngoEmail: 'green@city.org' }] *)
Definition byGreenCity : Body.t :=
  say None (Some "GreenCity") (Some "green@city.org") None None.

(** [{ status: 'in-progress', ngoEmail: 'green@city.org', text: ..., by: 'admin' }] *)
Definition markInProgress : Body.t :=
  say (Some "in-progress") None (Some "green@city.org")
      (Some "Crew dispatched") (Some "admin").

(** [{ status: 'solved', ngoEmail: 'green@city.org', text: 'Filled' }] *)
Definition markSolved : Body.t :=
  say (Some "solved") None (Some "green@city.org") (Some "Filled") None.

(** [{ ngoEmail: 'green@city.org', text: 'Surveyed the site' }] *)
Definition progressNote : Body.t :=
  say None None (Some "green@city.org") (Some "Surveyed the site") None.

(** [{ status: 'resolved', ngoEmail: 'nobody@x.org', text: 'Done' }]: no NGO
    is registered under this address. *)
Definition strangerResolved : Body.t :=
  say (Some "resolved") None (Some "nobody@x.org") (Some "Done") None.

(** [{ title, description, status: 'resolved', statusHistory: [...] }] *)
Definition resolvedReport : Body.t :=
  {| Body.title := Some "Old report"; Body.description := Some "Imported";
     Body.category := None; Body.status := Some "resolved";
     Body.location := None; Body.reportedBy := None;
     Body.reporterEmail := None; Body.reportedAt := None;
     Body.verificationCount := None; Body.priority := None;
     Body.attachments := None;
     Body.statusHistory :=
       Some [{| StatusEntry.status := Some "resolved";
                StatusEntry.date := 0; StatusEntry.by_ := "import" |}];
     Body.updates :=
       Some [{| Update.text := "closed"; Update.date := 0;
                Update.by_ := "import" |}];
     Body.claimedByNGO := None; Body.claimStatus := None;
     Body.claimUpdates := None; Body.escalated := None;
     Body.eventId := None; Body.ngo := None; Body.ngoEmail := None;
     Body.text := None; Body.by_ := None |}.

(** [{ title, description, reporterEmail }] *)
Definition newReport : Body.t :=
  {| Body.title := Some "Pothole on Main St";
     Body.description := Some "Deep pothole near the crossing";
     Body.category := None; Body.status := None;
     Body.location := None; Body.reportedBy := None;
     Body.reporterEmail := Some "a@x.com"; Body.reportedAt := None;
     Body.verificationCount := None; Body.priority := None;
     Body.attachments := None; Body.statusHistory := None;
     Body.updates := None;
     Body.claimedByNGO := None; Body.claimStatus := None;
     Body.claimUpdates := None; Body.escalated := None;
     Body.eventId := None; Body.ngo := None; Body.ngoEmail := None;
     Body.text := None; Body.by_ := None |}.

(** [{ claimedByNGO: 'GreenCity' }], as a body of [PUT /api/issues/:id]. *)
Definition adoptOnly : Body.t :=
  {| Body.title := None; Body.description := None; Body.category := None;
     Body.status := None; Body.location := None; Body.reportedBy := None;
     Body.reporterEmail := None; Body.reportedAt := None;
     Body.verificationCount := None; Body.priority := None;
     Body.attachments := None; Body.statusHistory := None;
     Body.updates := None; Body.claimedByNGO := Some "GreenCity";
     Body.claimStatus := None; Body.claimUpdates := None;
     Body.escalated := None; Body.eventId := None;
     Body.ngo := None; Body.ngoEmail := None;
     Body.text := None; Body.by_ := None |}.

End Sample.

(** * The rest of the server

    The routes of [server/index.js] that the lifecycle above does not use,
    and the two dashboard actions that call it.  The issue routes run in
    [M]; the routes on users and events run on a [Site], the [World]
    together with the two collections it leaves out. *)

From stdpp Require Import sorting.

Local Open Scope Z_scope.

(** ** More of the issue routes *)

(** The [query] object of [GET /api/issues]. *)
Inductive IssueQuery :=
| AnyIssue
| ByReporter (reporterEmail : string)
| ByClaimant (claimedByNGO : string).

(** [let query = {}; if (reporter) query = { reporterEmail: reporter };
    if (claimedByNGO) query = { claimedByNGO };] *)
Definition listQuery (reporter claimedByNGO : option string) : IssueQuery :=
  let query := AnyIssue in
  let query :=
    match JS.present reporter with
    | Some r => ByReporter r
    | None => query
    end in
  let query :=
    match JS.present claimedByNGO with
    | Some c => ByClaimant c
    | None => query
    end in
  query.

Definition satisfies (q : IssueQuery) (i : Issue.t) : bool :=
  match q with
  | AnyIssue => true
  | ByReporter e => bool_decide (Issue.reporterEmail i = Some e)
  | ByClaimant n => String.eqb (Issue.claimedByNGO i) n
  end.

(** The order of [.sort({ createdAt: -1 })].  Documents created at the same
    instant come in the order the sort leaves them; no statement below
    depends on it. *)
Definition newerFirst (a b : Doc) : Prop :=
  (Issue.createdAt b.2 ≤ Issue.createdAt a.2)%Z.

#[global] Instance newerFirst_dec a b : Decision (newerFirst a b).
Proof. unfold newerFirst. apply _. Defined.

(** [GET /api/issues] *)
Definition listIssues (reporter claimedByNGO : option string) : M Response :=
  let! l := findIssues (satisfies (listQuery reporter claimedByNGO)) in
  ret {| code := 200; payload := JIssues (merge_sort newerFirst l) |}.

Module IssueOps.

Definition set_claimUpdates (c : list ClaimUpdate.t) (i : Issue.t) : Issue.t :=
  {| Issue.title := Issue.title i; Issue.description := Issue.description i;
     Issue.category := Issue.category i; Issue.status := Issue.status i;
     Issue.location := Issue.location i; Issue.reportedBy := Issue.reportedBy i;
     Issue.reporterEmail := Issue.reporterEmail i;
     Issue.reportedAt := Issue.reportedAt i;
     Issue.verificationCount := Issue.verificationCount i;
     Issue.priority := Issue.priority i;
     Issue.attachments := Issue.attachments i;
     Issue.statusHistory := Issue.statusHistory i;
     Issue.updates := Issue.updates i;
     Issue.claimedByNGO := Issue.claimedByNGO i;
     Issue.claimStatus := Issue.claimStatus i; Issue.claimUpdates := c;
     Issue.escalated := Issue.escalated i; Issue.eventId := Issue.eventId i;
     Issue.createdAt := Issue.createdAt i; Issue.updatedAt := Issue.updatedAt i |}.


(** [{ escalated: true }] *)
Definition escalatedUpdate : Body.t :=
  {| Body.title := None; Body.description := None; Body.category := None;
     Body.status := None; Body.location := None; Body.reportedBy := None;
     Body.reporterEmail := None; Body.reportedAt := None;
     Body.verificationCount := None; Body.priority := None;
     Body.attachments := None; Body.statusHistory := None;
     Body.updates := None; Body.claimedByNGO := None;
     Body.claimStatus := None; Body.claimUpdates := None;
     Body.escalated := Some true; Body.eventId := None;
     Body.ngo := None; Body.ngoEmail := None;
     Body.text := None; Body.by_ := None |}.

End IssueOps.

(** [Issue.findByIdAndUpdate(id, { $push: { claimUpdates: c } }, { new: true })] *)
Definition findByIdAndPushClaimUpdate (env : Env) (id : string)
    (c : ClaimUpdate.t) : M (option Doc) :=
  λ w, match ObjectId.cast id with
       | None => (Throw CastError, w)
       | Some oid =>
           match issues w !! oid with
           | None => (Done None, w)
           | Some i =>
               let i' :=
                 Issue.touch (now env)
                   (IssueOps.set_claimUpdates (Issue.claimUpdates i ++ [c]) i) in
               (Done (Some (oid, i')), set_issues (<[oid := i']> (issues w)) w)
           end
       end.

(** [POST /api/issues/:id/claim-update], with [{ update, ngo }] of the body. *)
Definition claimUpdate (env : Env) (id : string) (update ngo : option string)
  : M Response :=
  let! r := findByIdAndPushClaimUpdate env id
              {| ClaimUpdate.update := update; ClaimUpdate.date := now env;
                 ClaimUpdate.ngo := ngo |} in
  match r with
  | None => ret (failure 404 "Issue not found")
  | Some d => ret (json d)
  end.

(** [POST /api/issues/:id/escalate] *)
Definition escalate (env : Env) (id : string) : M Response :=
  let! r := findByIdAndUpdate env id IssueOps.escalatedUpdate in
  match r with
  | None => ret (failure 404 "Issue not found")
  | Some d => ret (json d)
  end.

Module Upload.
(** [req.file] as multer leaves it. *)
Record t := { filename : string; originalname : string; mimetype : string }.
End Upload.


Module Multer.

(** A file part of a multipart body: the name of its form field and what
    multer records of the file. *)
Record Part := { fieldname : string; file : Upload.t }.

(** The parts multer looks at: a part sent without a file name is skipped. *)
Definition named (parts : list Part) : list Part :=
  filter (λ p, JS.truthy (Upload.originalname (file p)) = true) parts.


End Multer.



(** The number of documents of a collection that satisfy a filter. *)
Definition countOf (q : Issue.t → bool) (m : gmap N Issue.t) : nat :=
  size (filter (λ kv : N * Issue.t, q kv.2 = true) m).

(** [Issue.countDocuments(q)] *)
Definition countDocuments (q : Issue.t → bool) : M nat :=
  λ w, (Done (countOf q (issues w)), w).

Record IssueCounts := {
  total : nat;
  pending : nat;
  inProgress : nat;
  resolved : nat
}.

Definition hasStatus (s : string) (i : Issue.t) : bool :=
  String.eqb (Issue.status i) s.

(** [GET /api/stats] *)
Definition getStats : M IssueCounts :=
  let! total := countDocuments (λ _, true) in
  let! pending := countDocuments (hasStatus "pending") in
  let! inProgress := countDocuments (hasStatus "in-progress") in
  let! resolved := countDocuments (hasStatus "resolved") in
  ret {| total := total; pending := pending; inProgress := inProgress;
         resolved := resolved |}.

(** ** What the lifecycle never takes back *)

(** [i'] is a later state of the report [i]: the two audit sequences have
    only grown, and what the reporter filed, the attachments, the claim
    notes and the escalation flag are as they were. *)
Definition laterStateOf (i i' : Issue.t) : Prop :=
  Issue.statusHistory i `prefix_of` Issue.statusHistory i'
  ∧ Issue.updates i `prefix_of` Issue.updates i'
  ∧ Issue.title i' = Issue.title i
  ∧ Issue.description i' = Issue.description i
  ∧ Issue.category i' = Issue.category i
  ∧ Issue.location i' = Issue.location i
  ∧ Issue.reportedBy i' = Issue.reportedBy i
  ∧ Issue.reporterEmail i' = Issue.reporterEmail i
  ∧ Issue.reportedAt i' = Issue.reportedAt i
  ∧ Issue.priority i' = Issue.priority i
  ∧ Issue.attachments i' = Issue.attachments i
  ∧ Issue.claimUpdates i' = Issue.claimUpdates i
  ∧ Issue.escalated i' = Issue.escalated i
  ∧ Issue.createdAt i' = Issue.createdAt i.

Definition storeGrows (w w' : World) : Prop :=
  ∀ k i, issues w !! k = Some i →
         ∃ i', issues w' !! k = Some i' ∧ laterStateOf i i'.

(** One call of the lifecycle, whatever it is and however it ends. *)
Definition lifecycleStep (w w' : World) : Prop :=
  ∃ op, w' = (runOp op w).2.

(** The store without anything the dispatcher reads or writes. *)
Definition silenced (w : World) : World :=
  {| issues := issues w; ngos := ngos w; profiles := [];
     mailer := None; outbox := [] |}.

(** ** More of the sample deployment *)

Module Fixtures.




End Fixtures.

(** ** Answers of the remaining routes *)

(** [res.status(code).json(a)], or [res.status(code).json({ error })]. *)
Inductive Reply (A : Type) :=
| Ok (code : nat) (a : A)
| Err (code : nat) (error : string).
Arguments Ok {A} code a.
Arguments Err {A} code error.

(** ** NGO pages *)

(** [NGO.findOneAndUpdate({ email }, { $push: { followers: { email: f } } },
    { new: true })] *)
Definition findNGOAndPushFollower (email f : string)
  : M (option (string * NGO.t)) :=
  λ w, match ngos w !! email with
       | None => (Done None, w)
       | Some n =>
           let n' :=
             {| NGO.name := NGO.name n; NGO.profile := NGO.profile n;
                NGO.impactStats := NGO.impactStats n;
                NGO.followers := NGO.followers n ++ [f];
                NGO.events := NGO.events n |} in
           (Done (Some (email, n')), set_ngos (<[email := n']> (ngos w)) w)
       end.

(** [POST /api/ngos/:email/follow], with [req.body.email]. *)
Definition followNGO (email follower : string) : M (Reply NGO.t) :=
  let! r := findNGOAndPushFollower email follower in
  match r with
  | None => ret (Err 404 "NGO not found")
  | Some (_, n) => ret (Ok 200 n)
  end.

Record NGOStats := { impactStats : NGO.Stats; followers : nat }.

(** [GET /api/ngos/:email/stats] *)
Definition ngoStats (email : string) : M (Reply NGOStats) :=
  let! r := NGO_findOne (Some email) in
  match r with
  | None => ret (Err 404 "NGO not found")
  | Some (_, n) =>
      ret (Ok 200 {| impactStats := NGO.impactStats n;
                     followers := length (NGO.followers n) |})
  end.

(** ** Profiles *)

Module ProfileBody.
(** The body of [POST /api/profile].  [notifyByEmail] is [None] when the
    key is absent and [Some None] when it is [null]. *)
Record t := {
  fullName : option string;
  email : option string;
  phone : option string;
  gender : option string;
  dateOfBirth : option string;
  notifyByEmail : option (option bool)
}.
End ProfileBody.

Module User.
(** [email], unique, is the key of the collection. *)
Record t := {
  uid : N;
  fullName : string;
  passwordHash : string;
  role : string;
  organization : option string
}.
End User.

(** [$set] of the keys of the body on a profile. *)
Definition applyProfile (b : ProfileBody.t) (p : Profile.t) : Profile.t :=
  {| Profile.fullName := default (Profile.fullName p) (ProfileBody.fullName b);
     Profile.email := default (Profile.email p) (ProfileBody.email b);
     Profile.phone := default (Profile.phone p) (ProfileBody.phone b);
     Profile.gender := default (Profile.gender p) (ProfileBody.gender b);
     Profile.dateOfBirth :=
       default (Profile.dateOfBirth p) (ProfileBody.dateOfBirth b);
     Profile.notifyByEmail :=
       default (Profile.notifyByEmail p) (ProfileBody.notifyByEmail b) |}.

(** A new profile with the defaults of the schema. *)
Definition blankProfile (email : string) : Profile.t :=
  {| Profile.fullName := ""; Profile.email := email; Profile.phone := "";
     Profile.gender := ""; Profile.dateOfBirth := "";
     Profile.notifyByEmail := Some true |}.

(** The first element that satisfies [q] replaced by its image. *)
Fixpoint updateFirst {A} (q : A → bool) (f : A → A) (l : list A) : list A :=
  match l with
  | [] => []
  | x :: r => if q x then f x :: r else x :: updateFirst q f r
  end.

(** [Profile.findOneAndUpdate({ email }, b, { new: true, upsert: true })] *)
Definition upsertProfile (email : string) (b : ProfileBody.t) : M Profile.t :=
  λ w, match findProfile w email with
       | Some p =>
           (Done (applyProfile b p),
            {| issues := issues w; ngos := ngos w;
               profiles :=
                 updateFirst (λ p, String.eqb (Profile.email p) email)
                   (applyProfile b) (profiles w);
               mailer := mailer w; outbox := outbox w |})
       | None =>
           let p := applyProfile b (blankProfile email) in
           (Done p,
            {| issues := issues w; ngos := ngos w;
               profiles := profiles w ++ [p];
               mailer := mailer w; outbox := outbox w |})
       end.

(** [if (typeof body.notifyByEmail === 'undefined') body.notifyByEmail = true] *)
Definition withNotifyDefault (b : ProfileBody.t) : ProfileBody.t :=
  {| ProfileBody.fullName := ProfileBody.fullName b;
     ProfileBody.email := ProfileBody.email b;
     ProfileBody.phone := ProfileBody.phone b;
     ProfileBody.gender := ProfileBody.gender b;
     ProfileBody.dateOfBirth := ProfileBody.dateOfBirth b;
     ProfileBody.notifyByEmail :=
       match ProfileBody.notifyByEmail b with
       | None => Some (Some true)
       | Some v => Some v
       end |}.

(** [POST /api/profile] *)
Definition postProfile (body : ProfileBody.t) : M (Reply Profile.t) :=
  match JS.present (ProfileBody.email body) with
  | None => ret (Err 400 "email is required")
  | Some email =>
      let body := withNotifyDefault body in
      let! profile := upsertProfile email body in
      ret (Ok 200 profile)
  end.

(** [Profile.create(p)] *)
Definition createProfile (p : Profile.t) : M Profile.t :=
  λ w, (Done p,
        {| issues := issues w; ngos := ngos w; profiles := profiles w ++ [p];
           mailer := mailer w; outbox := outbox w |}).

(** [GET /api/profile?email=...]; the User collection is only read.  The
    answer is [null] when neither a profile nor a user has the address. *)
Definition getProfile (users : gmap string User.t) (email : option string)
  : M (Reply (option Profile.t)) :=
  match JS.present email with
  | None => ret (Err 400 "email is required")
  | Some email =>
      let! profile := Profile_findOne email in
      let! profile :=
        match profile with
        | Some p => ret (Some p)
        | None =>
            match users !! email with
            | Some user =>
                let! p := createProfile
                            {| Profile.fullName := User.fullName user;
                               Profile.email := email;
                               Profile.phone := ""; Profile.gender := "";
                               Profile.dateOfBirth := "";
                               Profile.notifyByEmail := Some true |} in
                ret (Some p)
            | None => ret None
            end
        end in
      ret (Ok 200 profile)
  end.

Module FixturesProfile.

(** [{ email: 'a@x.com', fullName: 'Asha K' }], with no [notifyByEmail] key. *)
Definition rename : ProfileBody.t :=
  {| ProfileBody.fullName := Some "Asha K";
     ProfileBody.email := Some "a@x.com";
     ProfileBody.phone := None; ProfileBody.gender := None;
     ProfileBody.dateOfBirth := None;
     ProfileBody.notifyByEmail := None |}.

Definition asha : User.t :=
  {| User.uid := 7; User.fullName := "Asha"; User.passwordHash := "$hash";
     User.role := "citizen"; User.organization := None |}.

End FixturesProfile.

(** ** Events *)

Module Volunteer.
Record t := { name : option string; email : option string }.
End Volunteer.

Module Wish.
(** An element of [wishlist]; a number that was never set is [None]. *)
Record t := { item : option string; quantity : option Z; donated : option Z }.

Definition set_donated (d : option Z) (x : t) : t :=
  {| item := item x; quantity := quantity x; donated := d |}.

(** [donated || 0] *)
Definition given (x : t) : Z := JS.or0 (default 0 (donated x)).
End Wish.

Module Event.

Record t := {
  title : string;
  description : string;
  ngo : string;
  issueId : option N;
  date : option Z;
  volunteers : list Volunteer.t;
  wishlist : list Wish.t
}.

(** [title], [description], [ngo] and [date] are [required]. *)
Definition validate (e : t) : bool :=
  JS.truthy (title e) && JS.truthy (description e) && JS.truthy (ngo e)
  && bool_decide (is_Some (date e)).

Definition set_wishlist (l : list Wish.t) (e : t) : t :=
  {| title := title e; description := description e; ngo := ngo e;
     issueId := issueId e; date := date e; volunteers := volunteers e;
     wishlist := l |}.

Definition set_volunteers (l : list Volunteer.t) (e : t) : t :=
  {| title := title e; description := description e; ngo := ngo e;
     issueId := issueId e; date := date e; volunteers := l;
     wishlist := wishlist e |}.

(** The body of [POST /api/events], handed to [Event.create] as it is. *)
Record Body := {
  b_title : option string;
  b_description : option string;
  b_ngo : option string;
  b_issueId : option N;
  b_date : option Z;
  b_volunteers : option (list Volunteer.t);
  b_wishlist : option (list Wish.t)
}.

Definition ofBody (b : Body) : t :=
  {| title := default "" (b_title b);
     description := default "" (b_description b);
     ngo := default "" (b_ngo b);
     issueId := b_issueId b;
     date := b_date b;
     volunteers := default [] (b_volunteers b);
     wishlist := default [] (b_wishlist b) |}.

End Event.

(** The Event collection, and handlers that run on it alone. *)
Definition Events : Type := gmap N Event.t.
Definition EDoc : Type := N * Event.t.
Definition E (A : Type) : Type := Events → Outcome A * Events.

Definition eret {A} (a : A) : E A := λ s, (Done a, s).

Definition ebind {A B} (m : E A) (k : A → E B) : E B :=
  λ s, match m s with
       | (Done a, s') => k a s'
       | (Throw e, s') => (Throw e, s')
       end.

Notation "'do!' x ':=' m 'in' k" := (ebind m (λ x, k))
  (at level 10, x pattern, m at level 200, k at level 200).

(** [Event.findById(id)] *)
Definition Event_findById (id : string) : E (option EDoc) :=
  λ s, match ObjectId.cast id with
       | None => (Throw CastError, s)
       | Some oid => (Done (pair oid <$> s !! oid), s)
       end.

(** [event.save()] *)
Definition saveEvent (d : EDoc) : E EDoc :=
  λ s, if Event.validate d.2
       then (Done d, <[d.1 := d.2]> s)
       else (Throw ValidationError, s).

(** [POST /api/events] *)
Definition createEvent (env : Env) (body : Event.Body) : E (Reply EDoc) :=
  λ s, let e := Event.ofBody body in
       if Event.validate e
       then match s !! freshId env with
            | Some _ => (Throw DuplicateKey, s)
            | None => (Done (Ok 201 (freshId env, e)), <[freshId env := e]> s)
            end
       else (Throw ValidationError, s).

(** [const query = ngo ? { ngo } : {}] *)
Definition hostedBy (ngo : option string) (e : Event.t) : bool :=
  match JS.present ngo with
  | Some n => String.eqb (Event.ngo e) n
  | None => true
  end.

(** [GET /api/events?ngo=...] *)
Definition listEvents (ngo : option string) : E (Reply (list EDoc)) :=
  λ s, (Done (Ok 200
          (filter (λ d : EDoc, hostedBy ngo d.2 = true) (map_to_list s))), s).

(** [POST /api/events/:id/volunteer], with [{ name, email }] of the body:
    a [$push] through [findByIdAndUpdate]. *)
Definition volunteer (id : string) (name email : option string)
  : E (Reply EDoc) :=
  λ s, match ObjectId.cast id with
       | None => (Throw CastError, s)
       | Some oid =>
           match s !! oid with
           | None => (Done (Err 404 "Event not found"), s)
           | Some e =>
               let e' :=
                 Event.set_volunteers
                   (Event.volunteers e
                    ++ [{| Volunteer.name := name; Volunteer.email := email |}])
                   e in
               (Done (Ok 200 (oid, e')), <[oid := e']> s)
           end
       end.

(** [w => w.item === item] *)
Definition named (item : option string) (x : Wish.t) : bool :=
  bool_decide (Wish.item x = item).

(** [a + b] on numbers that may be [undefined]; [None] is [NaN]. *)
Definition addNum (a b : option Z) : option Z :=
  match a, b with
  | Some x, Some y => Some (JS.plus x y)
  | _, _ => None
  end.

(** [POST /api/events/:id/donate]: [wishlistItem.donated += quantity] when
    the item is found; a [NaN] does not cast to a Number and the [save]
    rejects. *)
Definition donate (id : string) (item : option string) (quantity : option Z)
  : E (Reply EDoc) :=
  do! r := Event_findById id in
  match r with
  | None => eret (Err 404 "Event not found")
  | Some (oid, e) =>
      match List.find (named item) (Event.wishlist e) with
      | Some x =>
          match addNum (Wish.donated x) quantity with
          | Some v =>
              do! d := saveEvent
                         (oid, Event.set_wishlist
                                 (updateFirst (named item)
                                    (Wish.set_donated (Some v))
                                    (Event.wishlist e)) e) in
              eret (Ok 200 d)
          | None => λ s, (Throw ValidationError, s)
          end
      | None =>
          do! d := saveEvent (oid, e) in
          eret (Ok 200 d)
      end
  end.

(** [quantity || 1] *)
Definition orOne (q : option Z) : Z :=
  match q with
  | Some n => if n =? 0 then 1 else n
  | None => 1
  end.

(** [POST /api/events/:id/wishlist] *)
Definition addWish (id : string) (item : option string) (quantity : option Z)
  : E (Reply EDoc) :=
  do! r := Event_findById id in
  match r with
  | None => eret (Err 404 "Event not found")
  | Some (oid, e) =>
      do! d := saveEvent
                 (oid, Event.set_wishlist
                         (Event.wishlist e
                          ++ [{| Wish.item := item;
                                 Wish.quantity := Some (orOne quantity);
                                 Wish.donated := Some 0 |}]) e) in
      eret (Ok 200 d)
  end.

(** [POST /api/events/:id/donate-item] *)
Definition donateItem (id : string) (item : option string)
    (quantity : option Z) : E (Reply EDoc) :=
  do! r := Event_findById id in
  match r with
  | None => eret (Err 404 "Event not found")
  | Some (oid, e) =>
      match List.find (named item) (Event.wishlist e) with
      | None => eret (Err 404 "Wishlist item not found")
      | Some x =>
          do! d := saveEvent
                     (oid, Event.set_wishlist
                             (updateFirst (named item)
                                (Wish.set_donated
                                   (Some (JS.plus (Wish.given x)
                                            (orOne quantity))))
                                (Event.wishlist e)) e) in
          eret (Ok 200 d)
      end
  end.

(** The sum of what has been given to the items of a wishlist. *)
Definition totalGiven (l : list Wish.t) : Z :=
  foldr (λ x acc, Wish.given x + acc) 0 l.

Module FixturesEvent.

Definition eid : string := "64b7f1f77bcf86cd79943901".
Definition eoid : N := Eval vm_compute in default 0%N (ObjectId.cast eid).

(** A clean-up drive asking for ten bags (three given) and for gloves whose
    [donated] was never set. *)
Definition cleanup : Event.t :=
  {| Event.title := "Main St clean-up";
     Event.description := "Saturday morning";
     Event.ngo := "green@city.org";
     Event.issueId := None;
     Event.date := Some 8640000000;
     Event.volunteers := [];
     Event.wishlist :=
       [ {| Wish.item := Some "bags"%string; Wish.quantity := Some 10;
            Wish.donated := Some 3 |};
         {| Wish.item := Some "gloves"%string; Wish.quantity := Some 5;
            Wish.donated := None |} ] |}.

Definition calendar : Events := {[ eoid := cleanup ]}.

End FixturesEvent.

(** ** Accounts *)

(** [bcrypt] and [jsonwebtoken], as the server uses them: [bcrypt.hash]
    draws a salt, here an argument; the token carries the user's id and
    role, and the instant it was issued at, which [jwt.sign] reads from the
    clock. *)
Class Crypto := {
  bcrypt_hash : string → string → string;
  bcrypt_compare : string → string → bool;
  jwt_sign : Z → N → string → string
}.

(** What the libraries promise: a password matches its own hash, and a hash
    is never the empty string. *)
Class CryptoLaws `{Crypto} := {
  compare_hash : ∀ salt password,
    bcrypt_compare password (bcrypt_hash salt password) = true;
  hash_nonempty : ∀ salt password,
    JS.truthy (bcrypt_hash salt password) = true
}.

(** The deployment with its User collection. *)
Record Site := { world : World; users : gmap string User.t }.

(** What a request draws from its surroundings: the salt of [bcrypt.hash],
    the [_id] of a created user, and the clock read by [jwt.sign]. *)
Record AuthEnv := { salt : string; freshUid : N; clock : Z }.

Module AuthBody.
Record t := {
  fullName : option string;
  name : option string;
  email : option string;
  password : option string;
  role : option string;
  organization : option string;
  profile : option string;
  rolePasscode : option string
}.
End AuthBody.

(** [{ token, user: { id, fullName, email, role } }] *)
Record Session := {
  token : string;
  s_id : N;
  s_fullName : string;
  s_email : string;
  s_role : string
}.

(** [{ token, ngo }]; [ngo] is [null] when no NGO record has the address. *)
Record NGOSession := { n_token : string; n_ngo : option NGO.t }.

Definition SiteM (A : Type) : Type := Site → Outcome A * Site.

Definition sret {A} (a : A) : SiteM A := λ s, (Done a, s).

Definition sbind {A B} (m : SiteM A) (k : A → SiteM B) : SiteM B :=
  λ s, match m s with
       | (Done a, s') => k a s'
       | (Throw e, s') => (Throw e, s')
       end.

Definition scatch {A} (m : SiteM A) (h : Exn → SiteM A) : SiteM A :=
  λ s, match m s with
       | (Done a, s') => (Done a, s')
       | (Throw e, s') => h e s'
       end.

Notation "'run!' x ':=' m 'in' k" := (sbind m (λ x, k))
  (at level 10, x pattern, m at level 200, k at level 200).

(** A handler of the issue lifecycle, run on the site. *)
Definition onWorld {A} (m : M A) : SiteM A :=
  λ s, let (o, w') := m (world s) in (o, {| world := w'; users := users s |}).

(** [User.findOne({ email })] *)
Definition User_findOne (email : string) : SiteM (option User.t) :=
  λ s, (Done (users s !! email), s).

Definition roles : list string := ["citizen"; "ngo"; "admin"].

Definition validUser (u : User.t) : bool :=
  JS.truthy (User.fullName u) && JS.truthy (User.passwordHash u)
  && Issue.inEnum roles (User.role u).

(** [User.create(u)]: [email] is [unique]. *)
Definition User_create (email : string) (u : User.t) : SiteM User.t :=
  λ s, if JS.truthy email && validUser u
       then match users s !! email with
            | Some _ => (Throw DuplicateKey, s)
            | None =>
                (Done u, {| world := world s;
                            users := <[email := u]> (users s) |})
            end
       else (Throw ValidationError, s).

(** [NGO.create(n)]: [name] and [email] are [required], [email] [unique]. *)
Definition NGO_create (email : string) (n : NGO.t) : SiteM NGO.t :=
  λ s, if JS.truthy email && JS.truthy (NGO.name n)
       then match ngos (world s) !! email with
            | Some _ => (Throw DuplicateKey, s)
            | None =>
                (Done n, {| world := set_ngos (<[email := n]> (ngos (world s)))
                                       (world s);
                            users := users s |})
            end
       else (Throw ValidationError, s).

(** [['citizen', 'ngo', 'admin'].includes(role) ? role : 'citizen'] *)
Definition normalizedRole (role : option string) : string :=
  match role with
  | Some r => if Issue.inEnum roles r then r else "citizen"
  | None => "citizen"
  end.

(** [(normalizedRole === 'ngo' && rolePasscode !== 'NGO25') ||
     (normalizedRole === 'admin' && rolePasscode !== 'ADMIN25')] *)
Definition passcodeRefused (role : string) (rolePasscode : option string)
  : bool :=
  (String.eqb role "ngo" && negb (bool_decide (rolePasscode = Some "NGO25"%string)))
  || (String.eqb role "admin"
      && negb (bool_decide (rolePasscode = Some "ADMIN25"%string))).

Section Auth.

Context `{Crypto}.

Definition sessionOf (env : AuthEnv) (email : string) (u : User.t) : Session :=
  {| token := jwt_sign (clock env) (User.uid u) (User.role u);
     s_id := User.uid u; s_fullName := User.fullName u;
     s_email := email; s_role := User.role u |}.

(** [POST /api/auth/signup] *)
Definition signup (env : AuthEnv) (body : AuthBody.t) : SiteM (Reply Session) :=
  scatch
    (match JS.present (AuthBody.fullName body),
           JS.present (AuthBody.email body),
           JS.present (AuthBody.password body) with
     | Some fullName, Some email, Some password =>
         let role := normalizedRole (AuthBody.role body) in
         if passcodeRefused role (AuthBody.rolePasscode body)
         then sret (Err 403 "Invalid role passcode")
         else
           run! existing := User_findOne email in
           match existing with
           | Some _ => sret (Err 409 "Email already registered")
           | None =>
               let passwordHash := bcrypt_hash (salt env) password in
               run! user := User_create email
                              {| User.uid := freshUid env;
                                 User.fullName := fullName;
                                 User.passwordHash := passwordHash;
                                 User.role := role;
                                 User.organization :=
                                   AuthBody.organization body |} in
               sret (Ok 201 (sessionOf env email user))
           end
     | _, _, _ =>
         sret (Err 400 "fullName, email and password are required")
     end)
    (λ _, sret (Err 500 "Signup failed")).

(** [POST /api/auth/login] *)
Definition login (env : AuthEnv) (body : AuthBody.t) : SiteM (Reply Session) :=
  scatch
    (match JS.present (AuthBody.email body),
           JS.present (AuthBody.password body) with
     | Some email, Some password =>
         run! user := User_findOne email in
         match user with
         | None => sret (Err 401 "Invalid credentials")
         | Some user =>
             if bcrypt_compare password (User.passwordHash user)
             then sret (Ok 200 (sessionOf env email user))
             else sret (Err 401 "Invalid credentials")
         end
     | _, _ => sret (Err 400 "email and password are required")
     end)
    (λ _, sret (Err 500 "Login failed")).

(** [POST /api/ngo/auth/signup] *)
Definition ngoSignup (env : AuthEnv) (body : AuthBody.t)
  : SiteM (Reply NGOSession) :=
  scatch
    (match JS.present (AuthBody.name body),
           JS.present (AuthBody.email body),
           JS.present (AuthBody.password body) with
     | Some name, Some email, Some password =>
         if negb (bool_decide (AuthBody.rolePasscode body = Some "NGO25"%string))
         then sret (Err 403 "Invalid NGO passcode")
         else
           run! existingUser := User_findOne email in
           match existingUser with
           | Some _ => sret (Err 409 "Email already registered")
           | None =>
               let passwordHash := bcrypt_hash (salt env) password in
               run! user := User_create email
                              {| User.uid := freshUid env;
                                 User.fullName := name;
                                 User.passwordHash := passwordHash;
                                 User.role := "ngo";
                                 User.organization := Some name |} in
               run! ngo := NGO_create email
                             {| NGO.name := name;
                                NGO.profile :=
                                  Some (JS.or (AuthBody.profile body) "");
                                NGO.impactStats :=
                                  {| NGO.issuesClaimed := 0;
                                     NGO.issuesSolved := 0;
                                     NGO.volunteerHours := 0;
                                     NGO.resourcesRaised := 0 |};
                                NGO.followers := [];
                                NGO.events := [] |} in
               sret (Ok 201 {| n_token := jwt_sign (clock env) (User.uid user)
                                            "ngo";
                               n_ngo := Some ngo |})
           end
     | _, _, _ => sret (Err 400 "name, email and password are required")
     end)
    (λ _, sret (Err 500 "NGO signup failed")).

(** [POST /api/ngo/auth/login] *)
Definition ngoLogin (env : AuthEnv) (body : AuthBody.t)
  : SiteM (Reply NGOSession) :=
  scatch
    (match JS.present (AuthBody.email body),
           JS.present (AuthBody.password body) with
     | Some email, Some password =>
         run! user := User_findOne email in
         match user with
         | None => sret (Err 401 "Invalid NGO credentials")
         | Some user =>
             if negb (String.eqb (User.role user) "ngo")
             then sret (Err 401 "Invalid NGO credentials")
             else if bcrypt_compare password (User.passwordHash user)
             then λ s, (Done (Ok 200
                          {| n_token := jwt_sign (clock env) (User.uid user)
                                          (User.role user);
                             n_ngo := ngos (world s) !! email |}), s)
             else sret (Err 401 "Invalid NGO credentials")
         end
     | _, _ => sret (Err 400 "email and password are required")
     end)
    (λ _, sret (Err 500 "NGO login failed")).

End Auth.

Module FixturesAuth.

(** A stand-in for the two libraries, for running the handlers: the hash
    of a password is the password behind a dollar sign. *)
Definition toy : Crypto :=
  {| bcrypt_hash := λ _ password, "$" +:+ password;
     bcrypt_compare := λ password h, String.eqb h ("$" +:+ password);
     jwt_sign := λ iat uid role,
       role +:+ (if (iat <? 1000)%Z then ".early" else ".late") |}.

Definition env : AuthEnv := {| salt := "salt"; freshUid := 42; clock := 10 |}.

(** A later request. *)
Definition later : AuthEnv := {| salt := "pepper"; freshUid := 43; clock := 5000 |}.

Definition site0 : Site := {| world := Sample.world0; users := ∅ |}.

(** [{ fullName, email, password, role: 'ngo', rolePasscode: 'NGO25' }] *)
Definition helper : AuthBody.t :=
  {| AuthBody.fullName := Some "River Helpers";
     AuthBody.name := Some "River Helpers";
     AuthBody.email := Some "help@river.org";
     AuthBody.password := Some "s3cret";
     AuthBody.role := Some "ngo";
     AuthBody.organization := None;
     AuthBody.profile := None;
     AuthBody.rolePasscode := Some "NGO25" |}.

(** [{ ngoEmail: 'help@river.org' }] *)
Definition byHelper : Body.t :=
  Sample.say None None (Some "help@river.org") None None.

End FixturesAuth.

(** ** The admin dashboard's status change

    [changeStatus] of [src/pages/admin/Dashboard.tsx]: a [PUT] of
    [{ status }] to [/api/issues/:id/status] and, when that answers with a
    2xx code, a [POST] of [{ text, status, by: 'admin' }] to
    [/api/issues/:id/add-update]; [apiPut] and [apiPost] throw on any other
    code and the surrounding [catch] ignores the error.  The two requests
    are served at times of their own.  The closing [GET /api/issues] only
    reads. *)
Module AdminDashboard.

(** [res.ok] *)
Definition ok (r : Response) : bool :=
  (200 <=? code r)%nat && (code r <? 300)%nat.

(** [`Status changed to ${newStatus} by admin`] *)
Definition note (newStatus : string) : string :=
  "Status changed to " +:+ newStatus +:+ " by admin".

Definition changeStatus (env1 env2 : Env) (issueId newStatus : string)
  : M unit :=
  let! r := putStatus env1 issueId (Body.statusUpdate (Some newStatus)) in
  if ok r
  then
    let! r' :=
      addUpdate env2 issueId
        (Sample.say (Some newStatus) None None (Some (note newStatus))
           (Some "admin")) in
    ret tt
  else ret tt.

End AdminDashboard.

(** ** The NGO dashboard

    [src/pages/ngo/Dashboard.tsx].  The page reads the signed-in account
    from [localStorage]: [auth_email] is the address typed at login and
    [auth_name] the name of the NGO record the login returned. *)
Module NGODashboard.

(** [localStorage.getItem]: [null] for a key never set. *)
Record Storage := { auth_name : option string; auth_email : option string }.

(** [getItem('auth_name') || getItem('auth_email') || 'NGO'] *)
Definition ngoName (ls : Storage) : string :=
  JS.or (auth_name ls) (JS.or (auth_email ls) "NGO").

(** The issue request of the page's effect:
    [apiGet(`/api/issues?claimedByNGO=${encodeURIComponent(ngoEmail)}`)]
    with [ngoEmail = getItem('auth_email') || '']. *)
Definition loadClaims (ls : Storage) : M Response :=
  let ngoEmail := JS.or (auth_email ls) "" in
  listIssues None (Some ngoEmail).

(** [apiPost(`/api/issues/${id}/claim`, { ngo: ngoName })] *)
Definition claimIssue (env : Env) (ls : Storage) (id : string) : M Response :=
  claimIssue env id (Sample.say None (Some (ngoName ls)) None None None).

End NGODashboard.

(** * Properties *)

(** ** The sample deployment is well formed *)

Lemma cast_id0 : ObjectId.cast Sample.id0 = Some Sample.oid0.
Proof. reflexivity. Qed.

Lemma pothole_stored : issues Sample.world0 !! Sample.oid0 = Some Sample.pothole.
Proof. reflexivity. Qed.

Lemma pothole_valid : Issue.validate Sample.pothole = true.
Proof. reflexivity. Qed.

Lemma world0_ngos_valid : NGOsValid Sample.world0.
Proof.
  intros e n H. unfold Sample.world0 in H. cbn in H.
  apply lookup_singleton_Some in H as [_ <-]. reflexivity.
Qed.

Lemma world0_claim_inv : allClaimInv Sample.world0.
Proof.
  intros k i H. unfold Sample.world0 in H. cbn in H.
  apply lookup_singleton_Some in H as [_ <-]. by unfold claimInv.
Qed.

(** ** Routing *)

(** Every modelled route but the escalation query is reached by the paths
    written for it, for any non-empty [:id] segment. *)
Lemma routes_reach_handlers id :
  JS.truthy id = true →
  Router.route Router.GET ["api"; "issues"; id]
  = Some (Router.GetIssueById, [id])
  ∧ Router.route Router.POST ["api"; "issues"; id; "claim"]
    = Some (Router.ClaimIssue, [id])
  ∧ Router.route Router.POST ["api"; "ngo"; "issues"; id; "claim"]
    = Some (Router.NgoClaim, [id])
  ∧ Router.route Router.POST ["api"; "ngo"; "issues"; id; "update"]
    = Some (Router.NgoUpdate, [id])
  ∧ Router.route Router.PUT ["api"; "issues"; id; "status"]
    = Some (Router.PutStatus, [id])
  ∧ Router.route Router.POST ["api"; "issues"]
    = Some (Router.CreateIssue, [])
  ∧ Router.route Router.PUT ["api"; "issues"; id]
    = Some (Router.PutIssue, [id])
  ∧ Router.route Router.POST ["api"; "issues"; id; "add-update"]
    = Some (Router.AddUpdate, [id]).
Proof.
  intros H. destruct id; [discriminate H|]. split_and!; reflexivity.
Qed.

(** The walk that decodes parameters finds what [Router.route] finds. *)
Lemma walk_lookup t m segs h params :
  Router.walk t m segs = Router.Found h params →
  ∃ raw, Router.lookup t m segs = Some (h, raw)
         ∧ mapM URI.decodeURIComponent raw = Some params.
Proof.
  induction t as [|[[m' p] h'] t IH]; [done|]. cbn.
  destruct (Router.matchPath (Router.pattern p) segs) as [raw|].
  - destruct (mapM URI.decodeURIComponent raw) as [ps|] eqn:Hd; [|done].
    destruct (Router.Method_eqb m m').
    + intros [= <- <-]. by exists raw.
    + exact IH.
  - destruct (Router.Method_eqb m m'); exact IH.
Qed.

Lemma decode_samples :
  URI.decodeURIComponent "507f1f77bcf86cd799439011"
  = Some "507f1f77bcf86cd799439011"%string
  ∧ URI.decodeURIComponent "%35%30%37f" = Some "507f"%string
  ∧ URI.decodeURIComponent "caf%C3%A9" = Some ("caf" +:+ URI.bytes [195; 169]%N)
  ∧ URI.decodeURIComponent "%zz" = None
  ∧ URI.decodeURIComponent "%4" = None
  ∧ URI.decodeURIComponent "%C0%80" = None
  ∧ URI.decodeURIComponent "%ED%A0%80" = None
  ∧ URI.decodeURIComponent "%E2%82" = None.
Proof. split_and!; reflexivity. Qed.

(** A parameter that does not decode is refused whatever the method, also
    one no route of that path is registered for. *)
Lemma serve_refuses_bad_escape env b w :
  serve env {| method := Router.GET; path := "/api/issues/%zz"; body := b |} w
  = Refused
  ∧ serve env {| method := Router.POST; path := "/api/issues/%zz";
                 body := b |} w
    = Refused
  ∧ serve env {| method := Router.GET;
                 path := "/api/issues/%35%30%37f1f77bcf86cd799439011";
                 body := b |} w
    = Ran (getIssueById Sample.id0 w).
Proof. split_and!; reflexivity. Qed.

Lemma serve_claim_sample env b w :
  serve env {| method := Router.POST;
               path := "/api/issues/507f1f77bcf86cd799439011/claim";
               body := b |} w
  = Ran (claimIssue env Sample.id0 b w)
  ∧ serve env {| method := Router.POST;
                 path := "/api/ngo/issues/507f1f77bcf86cd799439011/claim";
                 body := b |} w
    = Ran (ngoClaim env Sample.id0 b w).
Proof. split; reflexivity. Qed.

(** ** Validation *)

Lemma validate_spec (i : Issue.t) :
  Issue.validate i = true ↔
    JS.truthy (Issue.title i) = true
    ∧ JS.truthy (Issue.description i) = true
    ∧ Issue.inEnum Issue.statusEnum (Issue.status i) = true
    ∧ Issue.inEnum Issue.priorityEnum (Issue.priority i) = true
    ∧ Issue.inEnum Issue.claimStatusEnum (Issue.claimStatus i) = true.
Proof.
  unfold Issue.validate. rewrite !andb_true_iff. tauto.
Qed.

(** A write to [status] keeps a valid document valid when the new value is
    one of the enumeration; [updates] and [statusHistory] are not validated. *)
Lemma validate_pushStatus env s by_ i :
  Issue.validate i = true →
  Issue.inEnum Issue.statusEnum s = true →
  Issue.validate (pushStatus env s by_ i) = true.
Proof.
  rewrite !validate_spec. cbn. tauto.
Qed.

Lemma validate_pushUpdate u i :
  Issue.validate (pushUpdate u i) = Issue.validate i.
Proof. reflexivity. Qed.

Lemma validate_claimedBy env n i :
  Issue.validate i = true → Issue.validate (claimedBy env n i) = true.
Proof.
  rewrite !validate_spec. cbn. tauto.
Qed.

Lemma validate_touch t i : Issue.validate (Issue.touch t i) = Issue.validate i.
Proof. reflexivity. Qed.

(** ** The dispatcher *)

Lemma notifyReporter_run i mk w :
  notifyReporter i mk w
  = (Done tt, set_outbox (outbox w ++ notification w i mk) w).
Proof.
  unfold notifyReporter, notification.
  destruct w as [im nm ps m ob]; cbn.
  destruct (JS.present (Issue.reporterEmail i)) as [e|]; cbn.
  - unfold catch, bind, Profile_findOne, sendEmail; cbn.
    destruct (optedIn _); cbn.
    + destruct m; cbn; unfold set_outbox; cbn; by rewrite ?app_nil_r.
    + unfold set_outbox; cbn; by rewrite app_nil_r.
  - unfold ret, set_outbox; cbn. by rewrite app_nil_r.
Qed.


Lemma notification_sent w i mk e ok :
  Issue.reporterEmail i = Some e →
  JS.truthy e = true →
  optedIn (findProfile w e) = true →
  mailer w = Some ok →
  notification w i mk = [mk e].
Proof.
  intros He Ht Hp Hm. unfold notification, JS.present.
  by rewrite He, Ht, Hp, Hm.
Qed.

(** ** What each handler computes on an existing issue *)

Section Runs.

Variables (env : Env) (id : string) (oid : N) (b : Body.t) (w : World)
          (i : Issue.t).
Hypothesis Hcast : ObjectId.cast id = Some oid.
Hypothesis Hstored : issues w !! oid = Some i.

Lemma getIssueById_run : getIssueById id w = (Done (json (oid, i)), w).
Proof.
  unfold getIssueById, catch, bind, findById. by rewrite Hcast, Hstored.
Qed.

Lemma claimIssue_run :
  let i' :=
    Issue.touch (now env) (applyUpdate (Body.claimUpdate (Body.ngo b)) i) in
  claimIssue env id b w
  = (Done (json (oid, i')),
     {| issues := <[oid := i']> (issues w);
        ngos := ngos w; profiles := profiles w; mailer := mailer w;
        outbox := outbox w ++ notification w i' (claimMail i' (Body.ngo b)) |}).
Proof.
  intros i'. unfold claimIssue, bind, findByIdAndUpdate.
  rewrite Hcast, Hstored. cbn. by rewrite notifyReporter_run.
Qed.


Lemma ngoClaim_run e n :
  Body.ngoEmail b = Some e →
  ngos w !! e = Some n →
  JS.truthy (NGO.name n) = true →
  Issue.validate i = true →
  let i' := Issue.touch (now env) (claimedBy env n i) in
  ngoClaim env id b w
  = (Done (json (oid, i')),
     {| issues := <[oid := i']> (issues w);
        ngos := <[e := NGO.bumpClaimed n]> (ngos w);
        profiles := profiles w; mailer := mailer w; outbox := outbox w |}).
Proof.
  intros He Hn Hname Hval i'.
  unfold ngoClaim, bind, NGO_findOne, findNGO, findById, saveIssue, saveNGO.
  rewrite He, Hn. cbn. rewrite Hcast. cbn. rewrite Hstored. cbn.
  rewrite (validate_claimedBy env n i Hval). cbn.
  by rewrite Hname.
Qed.

Lemma putStatus_run :
  Issue.validate (statusChanged env (Body.status b) i) = true →
  let i' := Issue.touch (now env) (statusChanged env (Body.status b) i) in
  putStatus env id b w
  = (Done (json (oid, i')),
     {| issues := <[oid := i']> (issues w);
        ngos := ngos w; profiles := profiles w; mailer := mailer w;
        outbox := outbox w ++ notification w i' (statusMail i' (Body.status b)) |}).
Proof.
  intros Hval i'. subst i'.
  unfold putStatus, bind, findByIdAndUpdate, catch, saveIssue, statusChanged in *.
  rewrite Hcast, Hstored. cbn in Hval |- *. rewrite Hval. cbn.
  rewrite notifyReporter_run. cbn. by rewrite insert_insert_eq.
Qed.

(** When the saved document does not validate, the [catch] swallows the
    error: the status is stored, the history entry is not. *)
Lemma putStatus_run_invalid :
  Issue.validate (statusChanged env (Body.status b) i) = false →
  let i1 :=
    Issue.touch (now env) (applyUpdate (Body.statusUpdate (Body.status b)) i) in
  let i' := statusChanged env (Body.status b) i in
  putStatus env id b w
  = (Done (json (oid, i')),
     {| issues := <[oid := i1]> (issues w);
        ngos := ngos w; profiles := profiles w; mailer := mailer w;
        outbox := outbox w ++ notification w i' (statusMail i' (Body.status b)) |}).
Proof.
  intros Hval i1 i'. subst i1 i'.
  unfold putStatus, bind, findByIdAndUpdate, catch, saveIssue, statusChanged in *.
  rewrite Hcast, Hstored. cbn in Hval |- *. rewrite Hval. cbn.
  by rewrite notifyReporter_run.
Qed.

Lemma addUpdate_run :
  Issue.validate (updateAdded env b i) = true →
  let u := {| Update.text := JS.or (Body.text b) ""; Update.date := now env;
              Update.by_ := JS.or (Body.by_ b) "system" |} in
  let i' := Issue.touch (now env) (updateAdded env b i) in
  addUpdate env id b w
  = (Done (json (oid, i')),
     {| issues := <[oid := i']> (issues w);
        ngos := ngos w; profiles := profiles w; mailer := mailer w;
        outbox := outbox w ++ notification w i' (addUpdateMail i' u) |}).
Proof.
  intros Hval u i'. subst u i'.
  unfold addUpdate, bind, findById, saveIssue, updateAdded in *.
  rewrite Hcast. cbn. rewrite Hstored. cbn in Hval |- *. rewrite Hval. cbn.
  by rewrite notifyReporter_run.
Qed.

Lemma ngoUpdate_run :
  let ngo := findNGO w (Body.ngoEmail b) in
  (∀ e n, ngo = Some (e, n) → JS.truthy (NGO.name n) = true) →
  Issue.validate (ngoUpdated env ngo b i) = true →
  let u := {| Update.text := JS.or (Body.text b) ""; Update.date := now env;
              Update.by_ := actor ngo (Body.ngoEmail b) |} in
  let i' := Issue.touch (now env) (ngoUpdated env ngo b i) in
  ngoUpdate env id b w
  = (Done (json (oid, i')),
     {| issues := <[oid := i']> (issues w);
        ngos := ngosAfterUpdate ngo b (ngos w);
        profiles := profiles w; mailer := mailer w;
        outbox :=
          outbox w ++ notification w i' (ngoUpdateMail i' u (Body.status b)) |}).
Proof.
  intros ngo Hname Hval u i'. subst u i'.
  unfold ngoUpdate, bind, NGO_findOne, findById, saveIssue, saveNGO,
    ngoUpdated, ngosAfterUpdate in *.
  fold ngo. rewrite Hcast. cbn. rewrite Hstored. cbn.
  destruct (JS.present (Body.status b)) as [s|]; cbn in Hval |- *.
  - destruct (isSolved s); cbn.
    + destruct ngo as [[e n]|] eqn:Hngo; cbn in Hval |- *.
      * rewrite (Hname e n eq_refl). cbn. rewrite Hval. cbn.
        by rewrite notifyReporter_run.
      * rewrite Hval. cbn. rewrite notifyReporter_run. by destruct w.
    + rewrite Hval. cbn. rewrite notifyReporter_run.
      destruct ngo as [[e n]|]; by destruct w.
  - rewrite Hval. cbn. rewrite notifyReporter_run.
    destruct ngo as [[e n]|]; by destruct w.
Qed.

(** When the document does not validate, [add-update] rejects before it
    has written anything. *)
Lemma addUpdate_run_invalid :
  Issue.validate (updateAdded env b i) = false →
  addUpdate env id b w = (Throw ValidationError, w).
Proof.
  intros Hval.
  unfold addUpdate, bind, findById, saveIssue, updateAdded in *.
  rewrite Hcast. cbn. rewrite Hstored. cbn in Hval |- *. by rewrite Hval.
Qed.

(** The NGO update saves the NGO's counter before the issue: when the issue
    does not validate, the call rejects with the counter already written
    and the issue as it was. *)
Lemma ngoUpdate_run_invalid :
  let ngo := findNGO w (Body.ngoEmail b) in
  (∀ e n, ngo = Some (e, n) → JS.truthy (NGO.name n) = true) →
  Issue.validate (ngoUpdated env ngo b i) = false →
  ngoUpdate env id b w
  = (Throw ValidationError, set_ngos (ngosAfterUpdate ngo b (ngos w)) w).
Proof.
  intros ngo Hname Hval.
  unfold ngoUpdate, bind, NGO_findOne, findById, saveIssue, saveNGO,
    ngoUpdated, ngosAfterUpdate in *.
  fold ngo. rewrite Hcast. cbn. rewrite Hstored. cbn.
  destruct (JS.present (Body.status b)) as [s|]; cbn in Hval |- *.
  - destruct (isSolved s); cbn.
    + destruct ngo as [[e n]|] eqn:Hngo; cbn in Hval |- *.
      * rewrite (Hname e n eq_refl). cbn. by rewrite Hval.
      * rewrite Hval. by destruct w.
    + rewrite Hval. destruct ngo as [[e n]|]; by destruct w.
  - rewrite Hval. destruct ngo as [[e n]|]; by destruct w.
Qed.

End Runs.

Lemma createIssue_run env b w :
  Issue.datesCast (createPayload env b) = true →
  Issue.validate (createPayload env b) = true →
  issues w !! freshId env = None →
  createIssue env b w
  = (Done {| code := 201; payload := JIssue (freshId env, createPayload env b) |},
     set_issues (<[freshId env := createPayload env b]> (issues w)) w).
Proof.
  intros Hcast Hval Hfresh. unfold createIssue, bind, insertIssue.
  by rewrite Hcast, Hval, Hfresh.
Qed.

(** ** Claiming an issue *)

Lemma or0_id n : JS.or0 n = n.
Proof. unfold JS.or0. destruct (Z.eqb_spec n 0); congruence. Qed.

(** ** Sums of numbers *)

Lemma plus_exact a b : JS.exact (a + b) → JS.plus a b = a + b.
Proof.
  unfold JS.exact, JS.plus, JS.roundDouble. intros Hab.
  destruct (Z.eqb_spec a 0) as [->|_]; [done|].
  destruct (Z.eqb_spec b 0) as [->|_]; [lia|].
  destruct (Z.leb_spec (Z.abs (a + b)) JS.maxSafe) as [_|Hbig]; [done|lia].
Qed.

Lemma plus_0_l b : JS.plus 0 b = b.
Proof. reflexivity. Qed.

(** Past [2 ^ 53] a counter stops counting: [2 ^ 53 + 1] is no double, and
    the sum is [2 ^ 53] again. *)
Lemma plus_saturates : JS.plus JS.maxSafe 1 = JS.maxSafe.
Proof. reflexivity. Qed.

Lemma bump_exact c : JS.exact (c + 1) → JS.plus (JS.or0 c) 1 = c + 1.
Proof. intros Hc. rewrite or0_id. by apply plus_exact. Qed.









(** ** Status changes *)

Lemma listed_truthy s :
  Issue.inEnum Issue.statusEnum s = true → JS.truthy s = true.
Proof. destruct s; [discriminate|done]. Qed.

Lemma present_listed s :
  Issue.inEnum Issue.statusEnum s = true → JS.present (Some s) = Some s.
Proof. intros H. unfold JS.present. by rewrite (listed_truthy s H). Qed.

Lemma findNGO_Some w email e n :
  findNGO w email = Some (e, n) → email = Some e ∧ ngos w !! e = Some n.
Proof.
  unfold findNGO. destruct email as [e'|]; [|done].
  destruct (ngos w !! e') as [n'|] eqn:Hn; [|done].
  cbn. intros [= -> ->]. done.
Qed.

Lemma findNGO_named w email e n :
  NGOsValid w → findNGO w email = Some (e, n) → JS.truthy (NGO.name n) = true.
Proof. intros Hv H. apply findNGO_Some in H as [_ H]. by eapply Hv. Qed.

Lemma validate_statusChanged env s i :
  Issue.validate i = true →
  Issue.inEnum Issue.statusEnum s = true →
  Issue.validate (statusChanged env (Some s) i) = true.
Proof. rewrite !validate_spec. cbn. tauto. Qed.

Lemma validate_updateAdded env b i :
  Issue.validate i = true → statusListed b →
  Issue.validate (updateAdded env b i) = true.
Proof.
  intros Hval Hs. unfold updateAdded.
  destruct (JS.present (Body.status b)) as [s|] eqn:Hp; [|done].
  apply validate_pushStatus; [done|by apply Hs].
Qed.


Lemma validate_set_status s i :
  Issue.validate (Issue.set_status s i) = true →
  Issue.inEnum Issue.statusEnum s = true.
Proof. rewrite validate_spec. cbn. tauto. Qed.

(** C4, at a concrete input.  [PUT /api/issues/:id/status] with a status
    the schema does not list answers 200 and stores the status, but the
    [save] that would store the new [statusHistory] entry rejects and the
    handler ignores it: the stored history is as long as it was. *)
Lemma put_status_unlisted_appends_nothing :
  ∃ r i1 w',
    putStatus Sample.env0 Sample.id0
      (Sample.say (Some "verified") None None None None) Sample.world0
    = (Done r, w')
    ∧ code r = 200%nat
    ∧ issues w' !! Sample.oid0 = Some i1
    ∧ Issue.status i1 = "verified"
    ∧ Issue.statusHistory i1 = Issue.statusHistory Sample.pothole
    ∧ length (Issue.statusHistory i1)
      ≠ S (length (Issue.statusHistory Sample.pothole)).
Proof.
  eexists _, _, _.
  repeat (split; [vm_compute; reflexivity|]). vm_compute. discriminate.
Qed.

(** C4, amended.  On an existing issue, take a status-change call that asks
    for the status [s], through [PUT /api/issues/:id/status],
    [POST /api/issues/:id/add-update] or [POST /api/ngo/issues/:id/update].
    When the issue with [s] for its status passes validation, the call
    succeeds and leaves a [statusHistory] that is the previous one followed
    by one entry whose [status] is [s]: its length grows by exactly 1.
    When it does not (a status the schema does not list, or an issue that
    was stored without its required fields), [PUT status] still answers
    200 and stores [s], with the stored [statusHistory] as it was, while
    [add-update] and the NGO update reject and leave the issue as it was. *)
Theorem status_change_appends_history h env id oid b w i s :
  ObjectId.cast id = Some oid →
  issues w !! oid = Some i →
  NGOsValid w →
  Body.status b = Some s →
  (Issue.validate (Issue.set_status s i) = true →
   ∃ i' w' entry,
     runStatusChange h env id b w = (Done (json (oid, i')), w')
     ∧ issues w' !! oid = Some i'
     ∧ Issue.statusHistory i' = Issue.statusHistory i ++ [entry]
     ∧ StatusEntry.status entry = Some s
     ∧ length (Issue.statusHistory i') = S (length (Issue.statusHistory i))
     ∧ Issue.status i' = s)
  ∧ (Issue.validate (Issue.set_status s i) = false →
     (∃ r i1 w',
        putStatus env id b w = (Done r, w')
        ∧ code r = 200%nat
        ∧ issues w' !! oid = Some i1
        ∧ Issue.status i1 = s
        ∧ Issue.statusHistory i1 = Issue.statusHistory i)
     ∧ (JS.truthy s = true →
        addUpdate env id b w = (Throw ValidationError, w)
        ∧ ∃ w', ngoUpdate env id b w = (Throw ValidationError, w')
                ∧ issues w' = issues w)).
Proof.
  intros Hcast Hstored Hngos Hb. split.
  - intros Hval.
    pose proof (validate_set_status s i Hval) as Hs.
    assert (Hp : JS.present (Body.status b) = Some s)
      by (rewrite Hb; by apply present_listed).
    destruct h; cbn [runStatusChange].
    + eexists _, _, _. split.
      * eapply putStatus_run; [done..|]. by rewrite Hb.
      * cbn. rewrite lookup_insert_eq, Hb. cbn.
        repeat split. rewrite length_app. cbn. lia.
    + eexists _, _, _. split.
      * eapply addUpdate_run; [done..|]. unfold updateAdded. by rewrite Hp.
      * cbn. rewrite lookup_insert_eq. unfold updateAdded. rewrite Hp. cbn.
        repeat split. rewrite length_app. cbn. lia.
    + eexists _, _, _. split.
      * eapply ngoUpdate_run; [done..| |].
        -- intros e n. by apply findNGO_named.
        -- unfold ngoUpdated. by rewrite Hp.
      * cbn. rewrite lookup_insert_eq. unfold ngoUpdated. rewrite Hp. cbn.
        repeat split. rewrite length_app. cbn. lia.
  - intros Hval. split.
    + eexists _, _, _. split.
      * eapply putStatus_run_invalid; [done..|]. by rewrite Hb.
      * cbn. rewrite lookup_insert_eq, Hb. done.
    + intros Hts.
      assert (Hp : JS.present (Body.status b) = Some s)
        by (rewrite Hb; unfold JS.present; by rewrite Hts).
      split.
      * eapply addUpdate_run_invalid; [done..|].
        unfold updateAdded. by rewrite Hp.
      * eexists. split.
        -- eapply ngoUpdate_run_invalid; [done..| |].
           ++ intros e n. by apply findNGO_named.
           ++ unfold ngoUpdated. by rewrite Hp.
        -- done.
Qed.

Lemma status_change_appends_history_witness :
  (∃ i' w' entry,
      putStatus Sample.env0 Sample.id0 Sample.markInProgress Sample.world0
      = (Done (json (Sample.oid0, i')), w')
      ∧ issues w' !! Sample.oid0 = Some i'
      ∧ Issue.statusHistory i' = [] ++ [entry]
      ∧ StatusEntry.status entry = Some "in-progress"
      ∧ length (Issue.statusHistory i') = 1%nat
      ∧ Issue.status i' = "in-progress")
  ∧ (∃ i' w' entry,
      addUpdate Sample.env0 Sample.id0 Sample.markInProgress Sample.world0
      = (Done (json (Sample.oid0, i')), w')
      ∧ issues w' !! Sample.oid0 = Some i'
      ∧ Issue.statusHistory i' = [] ++ [entry]
      ∧ StatusEntry.status entry = Some "in-progress"
      ∧ length (Issue.statusHistory i') = 1%nat
      ∧ Issue.status i' = "in-progress")
  ∧ (∃ i' w' entry,
      ngoUpdate Sample.env0 Sample.id0 Sample.markInProgress Sample.world0
      = (Done (json (Sample.oid0, i')), w')
      ∧ issues w' !! Sample.oid0 = Some i'
      ∧ Issue.statusHistory i' = [] ++ [entry]
      ∧ StatusEntry.status entry = Some "in-progress"
      ∧ length (Issue.statusHistory i') = 1%nat
      ∧ Issue.status i' = "in-progress")
  ∧ (∃ w',
      ngoUpdate Sample.env0 Sample.id0
        (Sample.say (Some "verified") None None None None) Sample.world0
      = (Throw ValidationError, w')
      ∧ issues w' = issues Sample.world0).
Proof.
  split_and!.
  - exact (proj1 (status_change_appends_history ByPutStatus Sample.env0
                    Sample.id0 Sample.oid0 Sample.markInProgress Sample.world0
                    Sample.pothole "in-progress" eq_refl eq_refl
                    world0_ngos_valid eq_refl) eq_refl).
  - exact (proj1 (status_change_appends_history ByAddUpdate Sample.env0
                    Sample.id0 Sample.oid0 Sample.markInProgress Sample.world0
                    Sample.pothole "in-progress" eq_refl eq_refl
                    world0_ngos_valid eq_refl) eq_refl).
  - exact (proj1 (status_change_appends_history ByNgoUpdate Sample.env0
                    Sample.id0 Sample.oid0 Sample.markInProgress Sample.world0
                    Sample.pothole "in-progress" eq_refl eq_refl
                    world0_ngos_valid eq_refl) eq_refl).
  - exact (proj2 (proj2 (proj2 (status_change_appends_history ByPutStatus
                    Sample.env0 Sample.id0 Sample.oid0
                    (Sample.say (Some "verified") None None None None)
                    Sample.world0 Sample.pothole "verified" eq_refl eq_refl
                    world0_ngos_valid eq_refl) eq_refl) eq_refl)).
Defined.

(** ** The NGO update and the [issuesSolved] counter *)

Lemma solvedRequested_spec b :
  solvedRequested b = true ↔
  JS.present (Body.status b) = Some "solved"%string
  ∨ JS.present (Body.status b) = Some "resolved"%string.
Proof.
  unfold solvedRequested, isSolved.
  destruct (JS.present (Body.status b)) as [s|].
  - rewrite orb_true_iff, !String.eqb_eq. split.
    + intros [->| ->]; tauto.
    + intros [[= ->]|[= ->]]; tauto.
  - split; [done|]. by intros [?|?].
Qed.

Lemma ngosAfterUpdate_at w b e n :
  ngos w !! e = Some n →
  ngosAfterUpdate (Some (e, n)) b (ngos w) !! e
  = Some (if solvedRequested b then NGO.bumpSolved n else n)
  ∧ ∀ e', e' ≠ e →
          ngosAfterUpdate (Some (e, n)) b (ngos w) !! e' = ngos w !! e'.
Proof.
  intros Hn. unfold ngosAfterUpdate, solvedRequested.
  destruct (JS.present (Body.status b)) as [s|]; [|done].
  destruct (isSolved s); [|done].
  rewrite lookup_insert_eq. split; [done|].
  intros e' Hne. by rewrite lookup_insert_ne.
Qed.

(** C5, at a concrete input.  GreenCity claims the sample issue and marks
    it [solved]; the counter is 1.  It then sends the same update again: the
    issue is [solved] before the call and after it, nothing transitions,
    and the counter is 2. *)
Lemma solved_again_counts_again :
  ∃ d1 w1 d2 w2 d3 w3 n2 n3,
    ngoClaim Sample.env0 Sample.id0 Sample.byGreenCity Sample.world0
    = (Done (json d1), w1)
    ∧ ngoUpdate Sample.env0 Sample.id0 Sample.markSolved w1
      = (Done (json d2), w2)
    ∧ issues w2 !! Sample.oid0 = Some d2.2
    ∧ Issue.status d2.2 = "solved"
    ∧ ngos w2 !! "green@city.org" = Some n2
    ∧ NGO.issuesSolved (NGO.impactStats n2) = 1
    ∧ ngoUpdate Sample.env0 Sample.id0 Sample.markSolved w2
      = (Done (json d3), w3)
    ∧ Issue.status d3.2 = "solved"
    ∧ ngos w3 !! "green@city.org" = Some n3
    ∧ NGO.issuesSolved (NGO.impactStats n3) = 2.
Proof.
  eexists _, _, _, _, _, _, _, _.
  repeat (split; [vm_compute; reflexivity|]). vm_compute; reflexivity.
Qed.

(** C5, amended.  On an existing issue, a call of
    [POST /api/ngo/issues/:id/update] by a registered NGO adds exactly 1 to
    that NGO's [issuesSolved] when the status it asks for is [solved] or
    [resolved], and leaves the NGO record as it was when it asks for any
    other status or for none; [issuesClaimed] and every other NGO record
    are unchanged.  The status the issue had before the call plays no part:
    the source compares nothing with it.  When the updated issue passes
    validation the call answers with it, its [status] the one asked for and
    its [statusHistory] one entry longer; when it does not, the call
    rejects and the issue stays as it was, the counter having been saved
    before the issue.  The counter is a number: the sum is the counter plus
    1 as long as that is within [2 ^ 53] of zero. *)
Theorem ngo_update_counts_solved env id oid b w i e n :
  ObjectId.cast id = Some oid →
  issues w !! oid = Some i →
  Body.ngoEmail b = Some e →
  ngos w !! e = Some n →
  JS.truthy (NGO.name n) = true →
  JS.exact (NGO.issuesSolved (NGO.impactStats n) + 1) →
  ∃ o w' n',
    ngoUpdate env id b w = (o, w')
    ∧ ngos w' !! e = Some n'
    ∧ (JS.present (Body.status b) = Some "solved"%string
       ∨ JS.present (Body.status b) = Some "resolved"%string →
       NGO.issuesSolved (NGO.impactStats n')
       = NGO.issuesSolved (NGO.impactStats n) + 1)
    ∧ (JS.present (Body.status b) ≠ Some "solved"%string →
       JS.present (Body.status b) ≠ Some "resolved"%string →
       n' = n)
    ∧ NGO.issuesClaimed (NGO.impactStats n')
      = NGO.issuesClaimed (NGO.impactStats n)
    ∧ NGO.name n' = NGO.name n
    ∧ (∀ e', e' ≠ e → ngos w' !! e' = ngos w !! e')
    ∧ (Issue.validate (ngoUpdated env (Some (e, n)) b i) = true →
       ∃ i',
         o = Done (json (oid, i'))
         ∧ issues w' !! oid = Some i'
         ∧ (∀ s, JS.present (Body.status b) = Some s →
              Issue.status i' = s
              ∧ Issue.statusHistory i'
                = Issue.statusHistory i
                  ++ [{| StatusEntry.status := Some s;
                         StatusEntry.date := now env;
                         StatusEntry.by_ := NGO.name n |}])
         ∧ (JS.present (Body.status b) = None →
              Issue.status i' = Issue.status i
              ∧ Issue.statusHistory i' = Issue.statusHistory i))
    ∧ (Issue.validate (ngoUpdated env (Some (e, n)) b i) = false →
       o = Throw ValidationError ∧ issues w' = issues w).
Proof.
  intros Hcast Hstored He Hn Hname Hrange.
  assert (Hngo : findNGO w (Body.ngoEmail b) = Some (e, n))
    by (unfold findNGO; by rewrite He, Hn).
  assert (Hnamed : ∀ e0 n0, Some (e, n) = Some (e0, n0) →
                            JS.truthy (NGO.name n0) = true)
    by (by intros e0 n0 [= <- <-]).
  destruct (ngosAfterUpdate_at w b e n Hn) as [Hat Hother].
  assert (Hcount :
    ∃ n', (if solvedRequested b then NGO.bumpSolved n else n) = n'
      ∧ (solvedRequested b = true →
         NGO.issuesSolved (NGO.impactStats n')
         = NGO.issuesSolved (NGO.impactStats n) + 1)
      ∧ (solvedRequested b = false → n' = n)
      ∧ NGO.issuesClaimed (NGO.impactStats n')
        = NGO.issuesClaimed (NGO.impactStats n)
      ∧ NGO.name n' = NGO.name n).
  { eexists. split; [reflexivity|].
    destruct (solvedRequested b); split_and!; try done.
    intros _. cbn. by apply bump_exact. }
  destruct Hcount as (n' & Hn' & Hsolved & Hnot & Hclaimed & Hsame).
  rewrite Hn' in Hat.
  assert (Hno : JS.present (Body.status b) ≠ Some "solved"%string →
                JS.present (Body.status b) ≠ Some "resolved"%string →
                solvedRequested b = false).
  { intros H1 H2. apply not_true_is_false. rewrite solvedRequested_spec.
    tauto. }
  destruct (Issue.validate (ngoUpdated env (Some (e, n)) b i)) eqn:Hval.
  - pose proof (ngoUpdate_run env id oid b w i Hcast Hstored) as Hrun.
    cbn zeta in Hrun. rewrite Hngo in Hrun.
    specialize (Hrun Hnamed Hval).
    eexists _, _, n'. split; [exact Hrun|]. cbn.
    split; [exact Hat|].
    split; [intros Hs; by apply Hsolved, solvedRequested_spec|].
    split; [intros H1 H2; by apply Hnot, Hno|].
    split; [done|]. split; [done|]. split; [exact Hother|].
    split; [|done]. intros _. eexists. split; [reflexivity|].
    split; [apply lookup_insert_eq|].
    unfold ngoUpdated. split.
    + intros s ->. done.
    + intros ->. done.
  - pose proof (ngoUpdate_run_invalid env id oid b w i Hcast Hstored) as Hrun.
    cbn zeta in Hrun. rewrite Hngo in Hrun.
    specialize (Hrun Hnamed Hval).
    eexists _, _, n'. split; [exact Hrun|]. cbn.
    split; [exact Hat|].
    split; [intros Hs; by apply Hsolved, solvedRequested_spec|].
    split; [intros H1 H2; by apply Hnot, Hno|].
    split; [done|]. split; [done|]. split; [exact Hother|].
    split; [done|]. done.
Qed.


Lemma ngo_update_counts_solved_witness :
  (∃ i' w' n',
      ngoUpdate Sample.env0 Sample.id0 Sample.markSolved Sample.world0
      = (Done (json (Sample.oid0, i')), w')
      ∧ issues w' !! Sample.oid0 = Some i'
      ∧ Issue.status i' = "solved"
      ∧ ngos w' !! "green@city.org" = Some n'
      ∧ NGO.issuesSolved (NGO.impactStats n') = 0 + 1
      ∧ NGO.issuesClaimed (NGO.impactStats n') = 0)
  ∧ (∃ i' w',
      ngoUpdate Sample.env0 Sample.id0 Sample.progressNote Sample.world0
      = (Done (json (Sample.oid0, i')), w')
      ∧ issues w' !! Sample.oid0 = Some i'
      ∧ Issue.status i' = "pending"
      ∧ ngos w' !! "green@city.org" = Some Sample.greenCity).
Proof.
  split.
  - destruct (ngo_update_counts_solved Sample.env0 Sample.id0 Sample.oid0
                Sample.markSolved Sample.world0 Sample.pothole
                "green@city.org"%string Sample.greenCity
                eq_refl eq_refl eq_refl eq_refl eq_refl)
      as (o & w' & n' & Hrun & Hn' & Hs & _ & Hc & _ & _ & Hok & _).
    { split; by vm_compute. }
    destruct (Hok eq_refl) as (i' & -> & Hi' & Hst & _).
    exists i', w', n'. split; [exact Hrun|]. split; [exact Hi'|].
    split; [exact (proj1 (Hst _ eq_refl))|]. split; [exact Hn'|].
    split; [apply Hs; by left|exact Hc].
  - destruct (ngo_update_counts_solved Sample.env0 Sample.id0 Sample.oid0
                Sample.progressNote Sample.world0 Sample.pothole
                "green@city.org"%string Sample.greenCity
                eq_refl eq_refl eq_refl eq_refl eq_refl)
      as (o & w' & n' & Hrun & Hn' & _ & Hs & _ & _ & _ & Hok & _).
    { split; by vm_compute. }
    destruct (Hok eq_refl) as (i' & -> & Hi' & _ & Hst).
    rewrite (Hs ltac:(discriminate) ltac:(discriminate)) in Hn'.
    exists i', w'. split; [exact Hrun|]. split; [exact Hi'|].
    split; [exact (proj1 (Hst eq_refl))|exact Hn'].
Defined.



(** ** Creating an issue *)

(** C8, at a concrete input.  [POST /api/issues] accepts a body that carries
    its own [status], [statusHistory] and [updates], and the created issue
    has them: it is not [pending], and neither sequence is empty. *)
Lemma create_keeps_supplied_status :
  ∃ d w',
    createIssue Sample.env0 Sample.resolvedReport Sample.world0
    = (Done {| code := 201; payload := JIssue d |}, w')
    ∧ issues w' !! d.1 = Some d.2
    ∧ Issue.status d.2 = "resolved"
    ∧ Issue.status d.2 ≠ "pending"
    ∧ Issue.statusHistory d.2 ≠ []
    ∧ Issue.updates d.2 ≠ [].
Proof.
  eexists _, _. split; [reflexivity|]. cbn. split_and!; done.
Qed.

(** [POST /api/issues] rejects a body whose [reportedAt] is a number past
    the range of [Date], whatever else it carries. *)
Lemma create_rejects_invalid_date env b w t :
  Body.reportedAt b = Some t →
  JS.maxTime < t →
  createIssue env b w = (Throw ValidationError, w).
Proof.
  intros Hb Ht. unfold createIssue, bind, insertIssue.
  assert (Hd : Issue.datesCast (createPayload env b) = false).
  { unfold Issue.datesCast. cbn. rewrite Hb.
    assert (Hz : t ≠ 0) by (unfold JS.maxTime in Ht; lia).
    apply Z.eqb_neq in Hz as ->.
    assert (Hno : JS.isDate t = false).
    { unfold JS.isDate. rewrite andb_false_iff. right. by apply Z.leb_gt. }
    by rewrite Hno. }
  by rewrite Hd.
Qed.

(** C8, amended.  A body is accepted when [POST /api/issues] answers it
    with 201; the payload built from it then casts to the schema and
    validates, and the created issue is stored under an [_id] that was
    free.  The created issue has the [status] of the body when the body
    carries a non-empty one and [pending] otherwise, and the
    [statusHistory] and [updates] of the body when it carries them and
    empty sequences otherwise; in particular a body with none of the three
    keys creates a [pending] issue with both sequences empty. *)
Theorem create_initial_state env b w r w' :
  createIssue env b w = (Done r, w') →
  ∃ d,
    r = {| code := 201; payload := JIssue d |}
    ∧ issues w !! d.1 = None
    ∧ issues w' !! d.1 = Some d.2
    ∧ Issue.datesCast d.2 = true
    ∧ Issue.validate d.2 = true
    ∧ Issue.status d.2 = JS.or (Body.status b) "pending"
    ∧ Issue.statusHistory d.2 = default [] (Body.statusHistory b)
    ∧ Issue.updates d.2 = default [] (Body.updates b)
    ∧ (Body.status b = None → Issue.status d.2 = "pending")
    ∧ (Body.statusHistory b = None → Issue.statusHistory d.2 = [])
    ∧ (Body.updates b = None → Issue.updates d.2 = []).
Proof.
  unfold createIssue, bind, insertIssue.
  destruct (Issue.datesCast (createPayload env b)) eqn:Hcast; [|done].
  destruct (Issue.validate (createPayload env b)) eqn:Hval; [|done].
  destruct (issues w !! freshId env) eqn:Hfresh; [done|].
  cbn. intros [= <- <-]. eexists. split; [reflexivity|]. cbn.
  rewrite lookup_insert_eq. split_and!; try done.
  all: by intros ->.
Qed.

Lemma create_initial_state_witness :
  ∃ d w',
    createIssue Sample.env0 Sample.newReport Sample.world0
    = (Done {| code := 201; payload := JIssue d |}, w')
    ∧ issues w' !! d.1 = Some d.2
    ∧ Issue.status d.2 = "pending"
    ∧ Issue.statusHistory d.2 = []
    ∧ Issue.updates d.2 = [].
Proof.
  destruct (create_initial_state Sample.env0 Sample.newReport Sample.world0
              _ _ (createIssue_run Sample.env0 Sample.newReport Sample.world0
                     eq_refl eq_refl eq_refl))
    as (d & Hr & _ & Hstored & _ & _ & Hs & Hh & Hu & _).
  exists d, (set_issues
               (<[freshId Sample.env0
                  := createPayload Sample.env0 Sample.newReport]>
                  (issues Sample.world0)) Sample.world0).
  split.
  { rewrite <- Hr.
    exact (createIssue_run Sample.env0 Sample.newReport Sample.world0
             eq_refl eq_refl eq_refl). }
  split; [exact Hstored|]. split; [exact Hs|]. split; [exact Hh|exact Hu].
Defined.

(** ** The escalation query *)

(** The handler registered for the query selects exactly the stored issues
    that are [pending] and were reported at least ten days before [now]. *)
Lemma getEscalated_exact env w :
  ∃ l,
    getEscalated env w = (Done {| code := 200; payload := JIssues l |}, w)
    ∧ ∀ k i,
        (k, i) ∈ l ↔
        issues w !! k = Some i
        ∧ Issue.status i = "pending"
        ∧ Issue.reportedAt i ≤ now env - tenDays.
Proof.
  eexists. split; [reflexivity|].
  intros k i. rewrite list_elem_of_filter, elem_of_map_to_list. cbn.
  unfold overdue. rewrite andb_true_iff, String.eqb_eq, Z.leb_le. tauto.
Qed.

(** C2.  The query never runs.  [GET /api/issues/:id] is registered before
    [GET /api/issues/escalated], so the path [/api/issues/escalated] is
    served by the single-issue handler with [id = "escalated"]; that string
    is no ObjectId, the lookup throws, and the handler answers 500
    [Failed to fetch issue] whatever the store holds: in particular when it
    holds a pending issue reported eleven days ago, as the sample does. *)
Theorem escalation_query_is_shadowed :
  Router.route Router.GET ["api"; "issues"; "escalated"]
  = Some (Router.GetIssueById, ["escalated"])
  ∧ (∀ env b w,
      serve env {| method := Router.GET; path := "/api/issues/escalated";
                   body := b |} w
      = Ran (Done (failure 500 "Failed to fetch issue"), w))
  ∧ getEscalated Sample.env0 Sample.world0
    = (Done {| code := 200;
               payload := JIssues [(Sample.oid0, Sample.pothole)] |},
       Sample.world0)
  ∧ Issue.status Sample.pothole = "pending"
  ∧ Issue.reportedAt Sample.pothole = now Sample.env0 - 11 * Sample.day.
Proof.
  split_and!; try reflexivity.
Qed.

(** ** The claim invariant *)

Lemma truthy_ne s : JS.truthy s = true ↔ s ≠ "".
Proof.
  unfold JS.truthy. rewrite negb_true_iff, String.eqb_neq. done.
Qed.

(** A store whose new documents satisfy the invariant, and whose new NGO
    records are named, is as good as the one it came from. *)
Lemma storeOK_intro w w' :
  storeOK w →
  (∀ k i', issues w' !! k = Some i' → issues w !! k = Some i' ∨ claimInv i') →
  (∀ e n', ngos w' !! e = Some n' →
           ngos w !! e = Some n' ∨ JS.truthy (NGO.name n') = true) →
  storeOK w'.
Proof.
  intros [Hn Hc] Hi Hg. split.
  - intros e n' H. destruct (Hg e n' H) as [H'|H']; [by eapply Hn|done].
  - intros k i' H. destruct (Hi k i' H) as [H'|H']; [by eapply Hc|done].
Qed.

Lemma insert_old_or_new `{Countable K} {A} (m : gmap K A) k x (P : A → Prop) :
  P x → ∀ j y, <[k := x]> m !! j = Some y → m !! j = Some y ∨ P y.
Proof.
  intros Hx j y Hj. destruct (decide (k = j)) as [->|Hne].
  - rewrite lookup_insert_eq in Hj. injection Hj as <-. by right.
  - rewrite lookup_insert_ne in Hj by done. by left.
Qed.

Lemma createIssue_keeps env b w : storeOK w → storeOK (createIssue env b w).2.
Proof.
  intros Hok. unfold createIssue, bind, insertIssue.
  destruct (Issue.datesCast _ && Issue.validate _); [|done].
  destruct (issues w !! freshId env); [done|]. cbn.
  eapply storeOK_intro; [done| |]; cbn.
  - apply insert_old_or_new. unfold claimInv. cbn. done.
  - by left.
Qed.

Lemma claimIssue_keeps env id b w :
  JS.present (Body.ngo b) ≠ None →
  storeOK w → storeOK (claimIssue env id b w).2.
Proof.
  intros Hngo Hok. unfold claimIssue, bind, findByIdAndUpdate.
  destruct (ObjectId.cast id) as [oid|]; [|done].
  destruct (issues w !! oid) as [i|]; [|done]. cbn.
  rewrite notifyReporter_run.
  eapply storeOK_intro; [done| |]; cbn.
  - apply insert_old_or_new. unfold claimInv. cbn.
    unfold JS.present in Hngo. destruct (Body.ngo b) as [name|]; [|done].
    destruct (JS.truthy name) eqn:Ht; [|done]. apply truthy_ne in Ht.
    cbn. split; done.
  - by left.
Qed.

Lemma ngoClaim_keeps env id b w : storeOK w → storeOK (ngoClaim env id b w).2.
Proof.
  intros Hok. unfold ngoClaim, bind, NGO_findOne, findById, saveIssue, saveNGO.
  cbn.
  destruct (findNGO w (Body.ngoEmail b)) as [[e n]|] eqn:Hngo; [|done]. cbn.
  pose proof (findNGO_named w _ e n (proj1 Hok) Hngo) as Hname.
  destruct (ObjectId.cast id) as [oid|]; [|done]. cbn.
  destruct (issues w !! oid) as [i|]; [|done]. cbn.
  destruct (Issue.validate _); [|done]. cbn. rewrite Hname. cbn.
  eapply storeOK_intro; [done| |]; cbn.
  - apply insert_old_or_new. unfold claimInv. cbn.
    apply truthy_ne in Hname. split; done.
  - apply insert_old_or_new. done.
Qed.

Lemma putStatus_keeps env id b w : storeOK w → storeOK (putStatus env id b w).2.
Proof.
  intros Hok. unfold putStatus, bind, findByIdAndUpdate, catch, saveIssue.
  destruct (ObjectId.cast id) as [oid|]; [|done].
  destruct (issues w !! oid) as [i|] eqn:Hi; [|done]. cbn.
  assert (Hinv : claimInv i) by (by eapply (proj2 Hok)).
  destruct (Issue.validate _); cbn; rewrite notifyReporter_run; cbn.
  - eapply storeOK_intro; [done| |]; cbn; [|by left].
    rewrite insert_insert_eq. by apply insert_old_or_new.
  - eapply storeOK_intro; [done| |]; cbn; [|by left].
    by apply insert_old_or_new.
Qed.

Lemma addUpdate_keeps env id b w : storeOK w → storeOK (addUpdate env id b w).2.
Proof.
  intros Hok. unfold addUpdate, bind, findById, saveIssue.
  destruct (ObjectId.cast id) as [oid|]; [|done]. cbn.
  destruct (issues w !! oid) as [i|] eqn:Hi; [|done]. cbn.
  assert (Hinv : claimInv i) by (by eapply (proj2 Hok)).
  destruct (Issue.validate _); [|done]. cbn. rewrite notifyReporter_run. cbn.
  eapply storeOK_intro; [done| |]; cbn; [|by left].
  apply insert_old_or_new.
  destruct (JS.present (Body.status b)); by unfold claimInv in *.
Qed.

Lemma ngoUpdate_keeps env id b w : storeOK w → storeOK (ngoUpdate env id b w).2.
Proof.
  intros Hok. unfold ngoUpdate, bind, NGO_findOne, findById, saveIssue, saveNGO.
  cbn.
  destruct (ObjectId.cast id) as [oid|]; [|done]. cbn.
  destruct (issues w !! oid) as [i|] eqn:Hi; [|done]. cbn.
  assert (Hinv : claimInv i) by (by eapply (proj2 Hok)).
  destruct (JS.present (Body.status b)) as [s|]; cbn.
  - destruct (isSolved s); cbn.
    + destruct (findNGO w (Body.ngoEmail b)) as [[e n]|] eqn:Hngo; cbn.
      * rewrite (findNGO_named w _ e n (proj1 Hok) Hngo). cbn.
        destruct (Issue.validate _); cbn.
        -- rewrite notifyReporter_run. cbn.
           eapply storeOK_intro; [done| |]; cbn.
           ++ by apply insert_old_or_new.
           ++ apply insert_old_or_new.
              exact (findNGO_named w _ e n (proj1 Hok) Hngo).
        -- eapply storeOK_intro; [done| |]; cbn; [by left|].
           apply insert_old_or_new.
              exact (findNGO_named w _ e n (proj1 Hok) Hngo).
      * destruct (Issue.validate _); cbn; [|done].
        rewrite notifyReporter_run. cbn.
        eapply storeOK_intro; [done| |]; cbn; [|by left].
        by apply insert_old_or_new.
    + destruct (Issue.validate _); cbn; [|done].
      rewrite notifyReporter_run. cbn.
      eapply storeOK_intro; [done| |]; cbn; [|by left].
      by apply insert_old_or_new.
  - destruct (Issue.validate _); cbn; [|done].
    rewrite notifyReporter_run. cbn.
    eapply storeOK_intro; [done| |]; cbn; [|by left].
    by apply insert_old_or_new.
Qed.

Lemma runOp_keeps op w : namesNGO op → storeOK w → storeOK (runOp op w).2.
Proof.
  destruct op; cbn [runOp namesNGO]; intros Hn.
  - apply createIssue_keeps.
  - by apply claimIssue_keeps.
  - apply ngoClaim_keeps.
  - apply putStatus_keeps.
  - apply addUpdate_keeps.
  - apply ngoUpdate_keeps.
Qed.

(** C7, at a concrete input.  The sample store satisfies the invariant; the
    generic [PUT /api/issues/:id] with the body [{ claimedByNGO: 'GreenCity' }]
    succeeds and stores a record whose [claimedByNGO] is non-empty while its
    [claimStatus] is still [none]. *)
Lemma generic_put_breaks_claim_invariant :
  allClaimInv Sample.world0
  ∧ ∃ i' w',
      putIssue Sample.env0 Sample.id0 Sample.adoptOnly Sample.world0
      = (Done (json (Sample.oid0, i')), w')
      ∧ issues w' !! Sample.oid0 = Some i'
      ∧ Issue.claimedByNGO i' ≠ ""
      ∧ Issue.claimStatus i' = "none"
      ∧ ¬ claimInv i'.
Proof.
  split; [apply world0_claim_inv|].
  eexists _, _. split; [reflexivity|]. cbn. split_and!; try done.
    intros [H _]. by apply H.
Qed.

(** The plain claim is the other way to break it: with an empty [ngo] it
    stores [claimStatus = 'claimed'] next to an empty [claimedByNGO]. *)
Lemma unnamed_claim_breaks_claim_invariant :
  ∃ i' w',
    claimIssue Sample.env0 Sample.id0
      (Sample.say None (Some "") None None None) Sample.world0
    = (Done (json (Sample.oid0, i')), w')
    ∧ issues w' !! Sample.oid0 = Some i'
    ∧ ¬ claimInv i'.
Proof.
  eexists _, _. split; [reflexivity|]. cbn. split; [done|].
  intros [_ H]. by apply H.
Qed.

(** C7, amended.  Start from a store in which every issue satisfies the
    invariant and every NGO record is named.  After any sequence of calls of
    create, the NGO-scoped claim, the plain claim with a non-empty [ngo],
    [PUT /api/issues/:id/status], add-update and the NGO update, succeeding
    or not, every stored issue has a non-empty [claimedByNGO] if and only if
    its [claimStatus] is not [none]. *)
Theorem claim_invariant_reachable w0 w :
  NGOsValid w0 →
  allClaimInv w0 →
  reachable w0 w →
  ∀ k i, issues w !! k = Some i →
         (Issue.claimedByNGO i ≠ "" ↔ Issue.claimStatus i ≠ "none").
Proof.
  intros Hn Hc Hreach.
  assert (Hok : storeOK w).
  { induction Hreach as [|w op Hreach IH Hnames].
    - by split.
    - by apply runOp_keeps. }
  intros k i Hi. by apply (proj2 Hok k i).
Qed.

Lemma claim_invariant_reachable_witness :
  let i' :=
    Issue.touch (now Sample.env0)
      (claimedBy Sample.env0 Sample.greenCity Sample.pothole) in
  Issue.claimedByNGO i' ≠ "" ↔ Issue.claimStatus i' ≠ "none".
Proof.
  exact (claim_invariant_reachable Sample.world0
           (runOp (OpNgoClaim Sample.env0 Sample.id0 Sample.byGreenCity)
              Sample.world0).2
           world0_ngos_valid world0_claim_inv
           (reach_step Sample.world0 Sample.world0
              (OpNgoClaim Sample.env0 Sample.id0 Sample.byGreenCity)
              (reach_refl Sample.world0) I)
           Sample.oid0 _ eq_refl).
Defined.

(** ** Notifications *)



(** The other gate of the dispatcher: without a configured transport
    [sendEmail] returns before anything is sent, also for a reporter who has
    no Profile record. *)
Lemma no_transport_no_send :
  ∃ i' w',
    claimIssue Sample.env0 Sample.id0 Sample.byGreenCity
      {| issues := issues Sample.world0; ngos := ngos Sample.world0;
         profiles := []; mailer := None; outbox := [] |}
    = (Done (json (Sample.oid0, i')), w')
    ∧ Issue.reporterEmail i' = Some "a@x.com"%string
    ∧ outbox w' = [].
Proof.
  eexists _, _. split; [reflexivity|]. done.
Qed.



(** * The rest of the server: properties *)

(** ** Reading issues *)

(** X1. [GET /api/issues/:id] always answers and never writes: 200 with
    the stored record when the id is an ObjectId of a stored issue, 404 when
    it is an ObjectId of none, and 500 when it is no ObjectId at all. *)
Theorem getIssueById_answers id w :
  ∃ r,
    getIssueById id w = (Done r, w)
    ∧ (code r = 200%nat ↔
       ∃ oid i, ObjectId.cast id = Some oid ∧ issues w !! oid = Some i
                ∧ payload r = JIssue (oid, i))
    ∧ (code r = 404%nat ↔
       ∃ oid, ObjectId.cast id = Some oid ∧ issues w !! oid = None)
    ∧ (code r = 500%nat ↔ ObjectId.cast id = None).
Proof.
  unfold getIssueById, catch, bind, findById.
  destruct (ObjectId.cast id) as [oid|] eqn:Hc.
  - destruct (issues w !! oid) as [i|] eqn:Hi; cbn.
    + eexists. split; [done|]. cbn. split_and!.
      * split; [|done]. intros _. by exists oid, i.
      * split; [done|]. intros (oid' & [= <-] & ?). congruence.
      * done.
    + eexists. split; [done|]. cbn. split_and!.
      * split; [done|]. intros (oid' & i & [= <-] & ? & _). congruence.
      * split; [|done]. intros _. by exists oid.
      * done.
  - eexists. split; [done|]. cbn. split_and!.
    + split; [done|]. by intros (? & ? & ? & _).
    + split; [done|]. by intros (? & ? & _).
    + done.
Qed.

#[global] Instance newerFirst_total : Total newerFirst.
Proof. intros a b. unfold newerFirst. lia. Qed.

#[global] Instance newerFirst_trans : Transitive newerFirst.
Proof. intros a b c. unfold newerFirst. lia. Qed.

(** X2. [GET /api/issues] answers with exactly the stored issues that match
    the effective query, each once, newest first.  A non-empty
    [claimedByNGO] parameter decides the query alone, whatever [reporter]
    is; otherwise a non-empty [reporter] selects by [reporterEmail]; with
    neither, every issue is listed. *)
Theorem listIssues_exact reporter claimedByNGO w :
  ∃ l,
    listIssues reporter claimedByNGO w
    = (Done {| code := 200; payload := JIssues l |}, w)
    ∧ NoDup l
    ∧ StronglySorted newerFirst l
    ∧ (∀ c, JS.present claimedByNGO = Some c →
            ∀ k i, (k, i) ∈ l ↔
                   issues w !! k = Some i ∧ Issue.claimedByNGO i = c)
    ∧ (JS.present claimedByNGO = None →
       ∀ r, JS.present reporter = Some r →
            ∀ k i, (k, i) ∈ l ↔
                   issues w !! k = Some i ∧ Issue.reporterEmail i = Some r)
    ∧ (JS.present claimedByNGO = None → JS.present reporter = None →
       ∀ k i, (k, i) ∈ l ↔ issues w !! k = Some i).
Proof.
  eexists. split; [reflexivity|].
  assert (Hin : ∀ k i,
    (k, i) ∈ merge_sort newerFirst
               (filter (λ d : Doc,
                  satisfies (listQuery reporter claimedByNGO) d.2 = true)
                  (map_to_list (issues w)))
    ↔ issues w !! k = Some i
      ∧ satisfies (listQuery reporter claimedByNGO) i = true).
  { intros k i. rewrite merge_sort_Permutation, list_elem_of_filter.
    rewrite elem_of_map_to_list. cbn. tauto. }
  split_and!.
  - rewrite merge_sort_Permutation. apply NoDup_filter, NoDup_map_to_list.
  - apply StronglySorted_merge_sort; apply _.
  - intros c Hc k i. rewrite Hin. unfold listQuery. rewrite Hc. cbn.
    by rewrite String.eqb_eq.
  - intros Hc r Hr k i. rewrite Hin. unfold listQuery. rewrite Hc, Hr. cbn.
    by rewrite bool_decide_eq_true.
  - intros Hc Hr k i. rewrite Hin. unfold listQuery. rewrite Hc, Hr. cbn.
    tauto.
Qed.

(** ** Counting issues *)

Lemma countOf_insert_fresh q m k v :
  m !! k = None →
  countOf q (<[k := v]> m) = (countOf q m + (if q v then 1 else 0))%nat.
Proof.
  intros Hk. unfold countOf. destruct (q v) eqn:Hq.
  - rewrite map_filter_insert_True by done.
    rewrite map_size_insert_None; [lia|].
    by rewrite map_lookup_filter_None; left.
  - rewrite map_filter_insert_False by (cbn; congruence).
    rewrite delete_id by done. lia.
Qed.

Lemma countOf_split q m k v :
  m !! k = Some v →
  countOf q m = (countOf q (delete k m) + (if q v then 1 else 0))%nat.
Proof.
  intros Hk. rewrite <-(insert_delete_id m k v) at 1 by done.
  apply countOf_insert_fresh, lookup_delete_eq.
Qed.

Lemma countOf_insert q m k v v' :
  m !! k = Some v →
  (countOf q (<[k := v']> m) + (if q v then 1 else 0)
   = countOf q m + (if q v' then 1 else 0))%nat.
Proof.
  intros Hk. rewrite (countOf_split q m k v Hk).
  rewrite <-insert_delete_eq.
  rewrite countOf_insert_fresh by apply lookup_delete_eq. lia.
Qed.

Lemma countOf_all m : countOf (λ _, true) m = size m.
Proof.
  unfold countOf. f_equal. apply map_filter_id. done.
Qed.

Lemma getStats_run w :
  getStats w
  = (Done {| total := countOf (λ _, true) (issues w);
             pending := countOf (hasStatus "pending") (issues w);
             inProgress := countOf (hasStatus "in-progress") (issues w);
             resolved := countOf (hasStatus "resolved") (issues w) |}, w).
Proof. reflexivity. Qed.

Lemma buckets_bounded m :
  (countOf (hasStatus "pending") m + countOf (hasStatus "in-progress") m
   + countOf (hasStatus "resolved") m ≤ size m)%nat.
Proof.
  induction m as [|k v m Hk _ IH] using map_first_key_ind; [done|].
  rewrite !countOf_insert_fresh by done.
  rewrite map_size_insert_None by done.
  unfold hasStatus in *.
  destruct (String.eqb_spec (Issue.status v) "pending") as [H1|H1];
    destruct (String.eqb_spec (Issue.status v) "in-progress") as [H2|H2];
    destruct (String.eqb_spec (Issue.status v) "resolved") as [H3|H3];
    try congruence; cbn; lia.
Qed.

(** X3. [GET /api/stats] counts without writing: [total] is the number of
    stored issues, and the three status buckets are disjoint, so
    [pending + inProgress + resolved] never exceeds [total]; the difference
    is the number of issues in any other status. *)
Theorem stats_buckets w :
  ∃ c,
    getStats w = (Done c, w)
    ∧ total c = size (issues w)
    ∧ (pending c + inProgress c + resolved c ≤ total c)%nat
    ∧ (total c - (pending c + inProgress c + resolved c))%nat
      = countOf (λ i, negb (hasStatus "pending" i)
                      && negb (hasStatus "in-progress" i)
                      && negb (hasStatus "resolved" i)) (issues w).
Proof.
  eexists. split; [apply getStats_run|]. cbn.
  rewrite countOf_all. split; [done|]. split; [apply buckets_bounded|].
  induction (issues w) as [|k v m Hk _ IH] using map_first_key_ind; [done|].
  rewrite !countOf_insert_fresh by done.
  rewrite map_size_insert_None by done.
  pose proof (buckets_bounded m) as Hb.
  unfold hasStatus in *.
  destruct (String.eqb_spec (Issue.status v) "pending") as [H1|H1];
    destruct (String.eqb_spec (Issue.status v) "in-progress") as [H2|H2];
    destruct (String.eqb_spec (Issue.status v) "resolved") as [H3|H3];
    try congruence; cbn; lia.
Qed.

Lemma countOf_insert_moved q m k v v' :
  m !! k = Some v → q v' = false →
  (countOf q (<[k := v']> m) + (if q v then 1 else 0))%nat = countOf q m.
Proof.
  intros Hk Hq. pose proof (countOf_insert q m k v v' Hk) as H.
  rewrite Hq in H. lia.
Qed.

(** X4. A claimed issue is in no bucket of [GET /api/stats].  After a
    successful claim through either route the total is unchanged, and the
    bucket the issue was in ([pending], [inProgress] or [resolved], if any)
    has lost exactly that issue: [community-in-progress] is counted by none
    of the three. *)
Theorem stats_after_claim env id oid w i :
  ObjectId.cast id = Some oid →
  issues w !! oid = Some i →
  ∀ c, getStats w = (Done c, w) →
  (∀ b r w',
      claimIssue env id b w = (Done r, w') →
      ∃ c', getStats w' = (Done c', w')
            ∧ total c' = total c
            ∧ (pending c' + (if hasStatus "pending" i then 1 else 0))%nat
              = pending c
            ∧ (inProgress c' + (if hasStatus "in-progress" i then 1 else 0))%nat
              = inProgress c
            ∧ (resolved c' + (if hasStatus "resolved" i then 1 else 0))%nat
              = resolved c)
  ∧ (∀ b r w',
      ngoClaim env id b w = (Done r, w') → code r = 200%nat →
      ∃ c', getStats w' = (Done c', w')
            ∧ total c' = total c
            ∧ (pending c' + (if hasStatus "pending" i then 1 else 0))%nat
              = pending c
            ∧ (inProgress c' + (if hasStatus "in-progress" i then 1 else 0))%nat
              = inProgress c
            ∧ (resolved c' + (if hasStatus "resolved" i then 1 else 0))%nat
              = resolved c).
Proof.
  intros Hcast Hstored c Hc. rewrite getStats_run in Hc.
  injection Hc as <-. split.
  - intros b r w' Hrun.
    rewrite (claimIssue_run env id oid b w i Hcast Hstored) in Hrun.
    injection Hrun as <- <-.
    eexists. split; [apply getStats_run|]. cbn. rewrite !countOf_all.
    split_and!.
    + rewrite map_size_insert_Some; [done|by rewrite Hstored].
    + by apply countOf_insert_moved.
    + by apply countOf_insert_moved.
    + by apply countOf_insert_moved.
  - intros b r w' Hrun Hcode.
    unfold ngoClaim, bind, NGO_findOne, findById, saveIssue, saveNGO in Hrun.
    destruct (findNGO w (Body.ngoEmail b)) as [[e n]|]; cbn in Hrun;
      [|injection Hrun as <- <-; discriminate Hcode].
    rewrite Hcast in Hrun. cbn in Hrun. rewrite Hstored in Hrun. cbn in Hrun.
    destruct (Issue.validate _); cbn in Hrun; [|discriminate Hrun].
    destruct (JS.truthy (NGO.name n)); cbn in Hrun; [|discriminate Hrun].
    injection Hrun as <- <-.
    eexists. split; [apply getStats_run|]. cbn. rewrite !countOf_all.
    split_and!.
    + rewrite map_size_insert_Some; [done|by rewrite Hstored].
    + by apply countOf_insert_moved.
    + by apply countOf_insert_moved.
    + by apply countOf_insert_moved.
Qed.

Lemma stats_after_claim_witness :
  ∃ c,
    getStats Sample.world0 = (Done c, Sample.world0)
    ∧ pending c = 1%nat
    ∧ ∃ r w' c',
        ngoClaim Sample.env0 Sample.id0 Sample.byGreenCity Sample.world0
        = (Done r, w')
        ∧ getStats w' = (Done c', w')
        ∧ total c' = total c
        ∧ (pending c' + 1)%nat = pending c
        ∧ (inProgress c' + 0)%nat = inProgress c
        ∧ (resolved c' + 0)%nat = resolved c.
Proof.
  eexists. split; [reflexivity|]. split; [reflexivity|].
  destruct (stats_after_claim Sample.env0 Sample.id0 Sample.oid0
              Sample.world0 Sample.pothole eq_refl eq_refl _ eq_refl)
    as [_ Hngo].
  destruct (Hngo Sample.byGreenCity _ _ eq_refl eq_refl) as (c' & Hc' & H).
  eexists _, _, c'. split; [reflexivity|]. split; [exact Hc'|exact H].
Defined.

(** ** What the lifecycle never takes back *)

#[global] Instance laterStateOf_refl : Reflexive laterStateOf.
Proof. intros i. by unfold laterStateOf. Qed.

#[global] Instance laterStateOf_trans : Transitive laterStateOf.
Proof.
  intros a b c Hab Hbc. unfold laterStateOf in *.
  destruct Hab as (h1 & u1 & Hab), Hbc as (h2 & u2 & Hbc).
  split; [by etrans|]. split; [by etrans|].
  repeat match goal with H : _ ∧ _ |- _ => destruct H end.
  split_and!; congruence.
Qed.

Lemma storeGrows_refl w : storeGrows w w.
Proof. intros k i Hi. by exists i. Qed.

Lemma storeGrows_trans w1 w2 w3 :
  storeGrows w1 w2 → storeGrows w2 w3 → storeGrows w1 w3.
Proof.
  intros H12 H23 k i Hi.
  destruct (H12 k i Hi) as (i2 & Hi2 & L2).
  destruct (H23 k i2 Hi2) as (i3 & Hi3 & L3).
  exists i3. split; [done|]. by etrans.
Qed.

Lemma storeGrows_issues w w' :
  issues w' = issues w → storeGrows w w'.
Proof. intros H k i Hi. exists i. by rewrite H. Qed.

Lemma storeGrows_update w w' k i i' :
  issues w !! k = Some i → laterStateOf i i' →
  issues w' = <[k := i']> (issues w) → storeGrows w w'.
Proof.
  intros Hk Hl Hw j x Hj. rewrite Hw.
  destruct (decide (k = j)) as [<-|Hne].
  - exists i'. rewrite lookup_insert_eq. split; [done|]. congruence.
  - exists x. by rewrite lookup_insert_ne.
Qed.

Lemma storeGrows_fresh w w' k i' :
  issues w !! k = None →
  issues w' = <[k := i']> (issues w) → storeGrows w w'.
Proof.
  intros Hk Hw j x Hj. rewrite Hw. exists x. split; [|done].
  rewrite lookup_insert_ne; [done|]. congruence.
Qed.

Lemma laterStateOf_history i h u s c n t :
  laterStateOf i
    (Issue.touch t
       (Issue.set_status s
          (Issue.set_claimStatus c
             (Issue.set_claimedByNGO n
                (Issue.set_statusHistory (Issue.statusHistory i ++ h)
                   (Issue.set_updates (Issue.updates i ++ u) i)))))).
Proof.
  unfold laterStateOf. cbn. split_and!; try done; by apply prefix_app_r.
Qed.

Lemma runOp_grows op w : storeGrows w (runOp op w).2.
Proof.
  destruct op as [env b|env id b|env id b|env id b|env id b|env id b];
    cbn [runOp].
  - unfold createIssue, bind, insertIssue.
    destruct (Issue.datesCast _ && Issue.validate _); [|apply storeGrows_refl].
    destruct (issues w !! freshId env) eqn:Hf; [apply storeGrows_refl|].
    by eapply storeGrows_fresh.
  - unfold claimIssue, bind, findByIdAndUpdate.
    destruct (ObjectId.cast id) as [oid|]; [|apply storeGrows_refl].
    destruct (issues w !! oid) as [i|] eqn:Hi; [|apply storeGrows_refl].
    cbn. rewrite notifyReporter_run. cbn.
    eapply storeGrows_update; [done| |done].
    unfold laterStateOf. cbn. done.
  - unfold ngoClaim, bind, NGO_findOne, findById, saveIssue, saveNGO. cbn.
    destruct (findNGO w (Body.ngoEmail b)) as [[e n]|]; [|apply storeGrows_refl].
    cbn. destruct (ObjectId.cast id) as [oid|]; [|apply storeGrows_refl].
    cbn. destruct (issues w !! oid) as [i|] eqn:Hi; [|apply storeGrows_refl].
    cbn. destruct (Issue.validate _); [|apply storeGrows_refl]. cbn.
    assert (laterStateOf i (Issue.touch (now env) (claimedBy env n i))).
    { unfold laterStateOf. cbn. split_and!; try done. by apply prefix_app_r. }
    destruct (JS.truthy (NGO.name n)); cbn; by eapply storeGrows_update.
  - unfold putStatus, bind, findByIdAndUpdate, catch, saveIssue.
    destruct (ObjectId.cast id) as [oid|]; [|apply storeGrows_refl].
    destruct (issues w !! oid) as [i|] eqn:Hi; [|apply storeGrows_refl].
    cbn. destruct (Issue.validate _); cbn; rewrite notifyReporter_run; cbn.
    + eapply storeGrows_update; [done| |by rewrite insert_insert_eq].
      unfold laterStateOf. cbn. split_and!; try done. by apply prefix_app_r.
    + eapply storeGrows_update; [done| |done].
      unfold laterStateOf. cbn. done.
  - unfold addUpdate, bind, findById, saveIssue.
    destruct (ObjectId.cast id) as [oid|]; [|apply storeGrows_refl]. cbn.
    destruct (issues w !! oid) as [i|] eqn:Hi; [|apply storeGrows_refl]. cbn.
    destruct (Issue.validate _); [|apply storeGrows_refl]. cbn.
    rewrite notifyReporter_run. cbn.
    eapply storeGrows_update; [done| |done].
    unfold laterStateOf.
    destruct (JS.present (Body.status b)); cbn;
      split_and!; try done; by apply prefix_app_r.
  - unfold ngoUpdate, bind, NGO_findOne, findById, saveIssue, saveNGO. cbn.
    destruct (ObjectId.cast id) as [oid|]; [|apply storeGrows_refl]. cbn.
    destruct (issues w !! oid) as [i|] eqn:Hi; [|apply storeGrows_refl]. cbn.
    assert (Hl : ∀ i2,
      i2 = pushUpdate
             {| Update.text := JS.or (Body.text b) ""; Update.date := now env;
                Update.by_ := actor (findNGO w (Body.ngoEmail b))
                                (Body.ngoEmail b) |} i
      ∨ (∃ s, i2 = pushStatus env s
                     (actor (findNGO w (Body.ngoEmail b)) (Body.ngoEmail b))
                     (pushUpdate
                        {| Update.text := JS.or (Body.text b) "";
                           Update.date := now env;
                           Update.by_ := actor (findNGO w (Body.ngoEmail b))
                                           (Body.ngoEmail b) |} i)) →
      laterStateOf i (Issue.touch (now env) i2)).
    { intros i2 [->|[s ->]]; unfold laterStateOf; cbn;
        split_and!; try done; by apply prefix_app_r. }
    destruct (JS.present (Body.status b)) as [s|]; cbn.
    + destruct (isSolved s); cbn.
      * destruct (findNGO w (Body.ngoEmail b)) as [[e n]|]; cbn.
        -- destruct (JS.truthy (NGO.name n)); cbn; [|apply storeGrows_refl].
           destruct (Issue.validate _); cbn.
           ++ rewrite notifyReporter_run. cbn.
              eapply storeGrows_update; [done| |done]. apply Hl. right. eauto.
           ++ by apply storeGrows_issues.
        -- destruct (Issue.validate _); cbn; [|apply storeGrows_refl].
           rewrite notifyReporter_run. cbn.
           eapply storeGrows_update; [done| |done]. apply Hl. right. eauto.
      * destruct (Issue.validate _); cbn; [|apply storeGrows_refl].
        rewrite notifyReporter_run. cbn.
        eapply storeGrows_update; [done| |done]. apply Hl. right. eauto.
    + destruct (Issue.validate _); cbn; [|apply storeGrows_refl].
      rewrite notifyReporter_run. cbn.
      eapply storeGrows_update; [done| |done]. apply Hl. by left.
Qed.

(** X5. The lifecycle is append-only and never deletes.  Through any
    sequence of create, claim (either route), status change, add-update and
    NGO update calls, whatever their arguments and outcomes, every stored
    issue stays stored; its [statusHistory] and [updates] keep all their
    entries in place and only gain entries at the end; and its title,
    description, reporter, report date, attachments, claim notes and
    [escalated] flag do not change. *)
Theorem lifecycle_append_only w w' :
  rtc lifecycleStep w w' →
  ∀ k i, issues w !! k = Some i →
    ∃ i', issues w' !! k = Some i'
          ∧ Issue.statusHistory i `prefix_of` Issue.statusHistory i'
          ∧ Issue.updates i `prefix_of` Issue.updates i'
          ∧ laterStateOf i i'.
Proof.
  intros Hsteps.
  assert (Hg : storeGrows w w').
  { induction Hsteps as [w|w1 w2 w3 [op ->] _ IH].
    - apply storeGrows_refl.
    - eapply storeGrows_trans; [apply runOp_grows|exact IH]. }
  intros k i Hi. destruct (Hg k i Hi) as (i' & Hi' & Hl).
  exists i'. split; [done|]. split; [apply Hl|]. split; [apply Hl|done].
Qed.

Lemma lifecycle_append_only_witness :
  ∃ i',
    issues (ngoUpdate Sample.env0 Sample.id0 Sample.markSolved
              Sample.world0).2 !! Sample.oid0 = Some i'
    ∧ Issue.statusHistory Sample.pothole `prefix_of` Issue.statusHistory i'
    ∧ Issue.updates Sample.pothole `prefix_of` Issue.updates i'
    ∧ laterStateOf Sample.pothole i'.
Proof.
  exact (lifecycle_append_only Sample.world0 _
           (rtc_once _ _
              (ex_intro _ (OpNgoUpdate Sample.env0 Sample.id0 Sample.markSolved)
                 eq_refl))
           Sample.oid0 Sample.pothole eq_refl).
Defined.

(** ** Claim notes, escalation, attachments *)

(** X6. [POST /api/issues/:id/claim-update] appends one note
    [{ update, date: now, ngo }] to [claimUpdates] and changes nothing else
    of the issue but [updatedAt]: every other field of the stored record is
    the one it had.  It does so for any issue, claimed or not, and any
    [ngo]; it never notifies and never touches an NGO record.  For an
    ObjectId that is not stored it answers 404 and writes nothing. *)
Theorem claimUpdate_appends env id oid update ngo w :
  ObjectId.cast id = Some oid →
  (issues w !! oid = None →
   claimUpdate env id update ngo w
   = (Done (failure 404 "Issue not found"), w))
  ∧ (∀ i, issues w !! oid = Some i →
      ∃ i',
        claimUpdate env id update ngo w
        = (Done (json (oid, i')), set_issues (<[oid := i']> (issues w)) w)
        ∧ i' = {| Issue.title := Issue.title i;
             Issue.description := Issue.description i;
             Issue.category := Issue.category i;
             Issue.status := Issue.status i;
             Issue.location := Issue.location i;
             Issue.reportedBy := Issue.reportedBy i;
             Issue.reporterEmail := Issue.reporterEmail i;
             Issue.reportedAt := Issue.reportedAt i;
             Issue.verificationCount := Issue.verificationCount i;
             Issue.priority := Issue.priority i;
             Issue.attachments := Issue.attachments i;
             Issue.statusHistory := Issue.statusHistory i;
             Issue.updates := Issue.updates i;
             Issue.claimedByNGO := Issue.claimedByNGO i;
             Issue.claimStatus := Issue.claimStatus i;
             Issue.claimUpdates := Issue.claimUpdates i
               ++ [{| ClaimUpdate.update := update;
                      ClaimUpdate.date := now env;
                      ClaimUpdate.ngo := ngo |}];
             Issue.escalated := Issue.escalated i;
             Issue.eventId := Issue.eventId i;
             Issue.createdAt := Issue.createdAt i;
             Issue.updatedAt := now env |}
        ∧ Issue.claimUpdates i'
          = Issue.claimUpdates i
            ++ [{| ClaimUpdate.update := update; ClaimUpdate.date := now env;
                   ClaimUpdate.ngo := ngo |}]
        ∧ Issue.status i' = Issue.status i
        ∧ Issue.claimedByNGO i' = Issue.claimedByNGO i
        ∧ Issue.claimStatus i' = Issue.claimStatus i
        ∧ Issue.statusHistory i' = Issue.statusHistory i
        ∧ Issue.updates i' = Issue.updates i
        ∧ Issue.escalated i' = Issue.escalated i).
Proof.
  intros Hcast. unfold claimUpdate, bind, findByIdAndPushClaimUpdate.
  rewrite Hcast. split.
  - by intros ->.
  - intros i ->. eexists. split; [reflexivity|]. split; [|done].
    by destruct i.
Qed.

Lemma claimUpdate_appends_witness :
  ∃ i',
    claimUpdate Sample.env0 Sample.id0 (Some "Crew booked"%string)
      (Some "Nobody"%string) Sample.world0
    = (Done (json (Sample.oid0, i')),
       set_issues (<[Sample.oid0 := i']> (issues Sample.world0)) Sample.world0)
    ∧ Issue.claimUpdates i'
      = [] ++ [{| ClaimUpdate.update := Some "Crew booked"%string;
                  ClaimUpdate.date := now Sample.env0;
                  ClaimUpdate.ngo := Some "Nobody"%string |}]
    ∧ Issue.status i' = "pending"
    ∧ Issue.claimedByNGO i' = ""
    ∧ Issue.claimStatus i' = "none"
    ∧ Issue.statusHistory i' = []
    ∧ Issue.updates i' = []
    ∧ Issue.escalated i' = false.
Proof.
  destruct (proj2 (claimUpdate_appends Sample.env0 Sample.id0 Sample.oid0
                     (Some "Crew booked"%string) (Some "Nobody"%string)
                     Sample.world0 eq_refl)
              Sample.pothole eq_refl) as (i' & Hrun & _ & Hrest).
  exists i'. split; [exact Hrun|exact Hrest].
Defined.

(** X7. [POST /api/issues/:id/escalate] raises the [escalated] flag of any
    stored issue, whatever its status and age: it does not consult the
    ten-day filter of the escalation query, and the flag does not change
    what that filter selects.  Every field of the stored record but the
    flag and [updatedAt] is the one it had (status, claim fields and
    histories among them), and a second call at the same instant changes
    nothing more. *)
Theorem escalate_sets_flag env id oid w i :
  ObjectId.cast id = Some oid →
  issues w !! oid = Some i →
  ∃ i' w',
    escalate env id w = (Done (json (oid, i')), w')
    ∧ issues w' = <[oid := i']> (issues w)
    ∧ i' = {| Issue.title := Issue.title i;
           Issue.description := Issue.description i;
           Issue.category := Issue.category i;
           Issue.status := Issue.status i;
           Issue.location := Issue.location i;
           Issue.reportedBy := Issue.reportedBy i;
           Issue.reporterEmail := Issue.reporterEmail i;
           Issue.reportedAt := Issue.reportedAt i;
           Issue.verificationCount := Issue.verificationCount i;
           Issue.priority := Issue.priority i;
           Issue.attachments := Issue.attachments i;
           Issue.statusHistory := Issue.statusHistory i;
           Issue.updates := Issue.updates i;
           Issue.claimedByNGO := Issue.claimedByNGO i;
           Issue.claimStatus := Issue.claimStatus i;
           Issue.claimUpdates := Issue.claimUpdates i;
           Issue.escalated := true;
           Issue.eventId := Issue.eventId i;
           Issue.createdAt := Issue.createdAt i;
           Issue.updatedAt := now env |}
    ∧ issues w' !! oid = Some i'
    ∧ Issue.escalated i' = true
    ∧ Issue.status i' = Issue.status i
    ∧ Issue.statusHistory i' = Issue.statusHistory i
    ∧ Issue.claimStatus i' = Issue.claimStatus i
    ∧ (∀ env', overdue env' i' = overdue env' i)
    ∧ ngos w' = ngos w ∧ outbox w' = outbox w
    ∧ escalate env id w' = (Done (json (oid, i')), w').
Proof.
  intros Hcast Hstored. unfold escalate, bind, findByIdAndUpdate.
  rewrite Hcast, Hstored. eexists _, _. split; [reflexivity|]. cbn.
  rewrite lookup_insert_eq. split_and!; try done.
  unfold set_issues. cbn. by rewrite insert_insert_eq.
Qed.

Lemma escalate_sets_flag_witness :
  ∃ i' w',
    escalate Sample.env0 Sample.id0 Sample.world0 = (Done (json (Sample.oid0, i')), w')
    ∧ issues w' !! Sample.oid0 = Some i'
    ∧ Issue.escalated i' = true
    ∧ Issue.status i' = "pending"
    ∧ Issue.statusHistory i' = []
    ∧ Issue.claimStatus i' = "none"
    ∧ (∀ env', overdue env' i' = overdue env' Sample.pothole)
    ∧ ngos w' = ngos Sample.world0 ∧ outbox w' = outbox Sample.world0
    ∧ escalate Sample.env0 Sample.id0 w' = (Done (json (Sample.oid0, i')), w').
Proof.
  destruct (escalate_sets_flag Sample.env0 Sample.id0 Sample.oid0
              Sample.world0 Sample.pothole eq_refl eq_refl)
    as (i' & w' & Hrun & _ & _ & Hrest).
  exists i', w'. split; [exact Hrun|exact Hrest].
Defined.




(** ** The generic update and validation *)



(** ** Routing *)

Lemma escalated_implies_id segs p :
  Router.matchPath (Router.pattern "/api/issues/escalated") segs = Some p →
  Router.matchPath (Router.pattern "/api/issues/:id") segs ≠ None.
Proof.
  change (Router.pattern "/api/issues/escalated")
    with [Router.Lit "api"; Router.Lit "issues"; Router.Lit "escalated"].
  change (Router.pattern "/api/issues/:id")
    with [Router.Lit "api"; Router.Lit "issues"; Router.Param].
  destruct segs as [|a [|b [|c [|d segs]]]]; try done.
  3: destruct c as [|ch c];
       [|change (JS.truthy (String ch c)) with true in *].
  all: cbn.
  all: repeat (match goal with
               | |- context [if ?x then _ else _] => destruct x
               end; cbn; try done).
Qed.

Lemma lookup_app t1 t2 m segs :
  Router.lookup (t1 ++ t2) m segs
  = match Router.lookup t1 m segs with
    | Some r => Some r
    | None => Router.lookup t2 m segs
    end.
Proof.
  induction t1 as [|[[m' p] h] t1 IH]; [done|]. cbn.
  destruct (Router.Method_eqb m m'); [|done].
  by destruct (Router.matchPath (Router.pattern p) segs).
Qed.

Lemma lookup_handler t m segs h ps :
  Router.lookup t m segs = Some (h, ps) → Exists (λ e, e.2 = h) t.
Proof.
  induction t as [|[[m' p] h'] t IH]; [done|]. cbn.
  destruct (Router.Method_eqb m m').
  - destruct (Router.matchPath (Router.pattern p) segs).
    + intros [= <- <-]. by left.
    + intros Hl. right. by apply IH.
  - intros Hl. right. by apply IH.
Qed.

Lemma lookup_not_handler t m segs h ps :
  Forall (λ e, e.2 ≠ h) t → Router.lookup t m segs ≠ Some (h, ps).
Proof.
  intros Hall Hl. apply lookup_handler in Hl.
  apply Exists_exists in Hl as (e & Hin & He).
  rewrite Forall_forall in Hall. by apply (Hall e).
Qed.

Lemma lookup_none t m segs :
  Router.lookup t m segs = None →
  ∀ m' p h, (m', p, h) ∈ t → Router.Method_eqb m m' = true →
            Router.matchPath (Router.pattern p) segs = None.
Proof.
  induction t as [|[[m1 p1] h1] t IH]; intros Hl m' p h Hin Hm.
  - by apply elem_of_nil in Hin.
  - cbn in Hl. apply elem_of_cons in Hin as [[= -> -> ->]|Hin].
    + rewrite Hm in Hl.
      by destruct (Router.matchPath (Router.pattern p1) segs).
    + destruct (Router.Method_eqb m m1).
      * destruct (Router.matchPath (Router.pattern p1) segs); [done|].
        by apply (IH Hl m' p h).
      * by apply (IH Hl m' p h).
Qed.

(** The table around the escalation route: seven routes before it, the
    single-issue route the last of them. *)
Lemma table_around_escalated :
  Router.table
  = take 7 Router.table
    ++ (Router.GET, "/api/issues/escalated", Router.GetEscalated)
       :: drop 8 Router.table.
Proof. reflexivity. Qed.

Lemma after_escalated :
  Forall (λ e : Router.Method * string * Router.Handler,
            e.2 ≠ Router.GetEscalated) (drop 8 Router.table).
Proof. cbn. repeat (constructor; [discriminate|]). constructor. Qed.

Lemma before_escalated :
  Forall (λ e : Router.Method * string * Router.Handler,
            e.2 ≠ Router.GetEscalated) (take 7 Router.table).
Proof. cbn. repeat (constructor; [discriminate|]). constructor. Qed.

Lemma single_issue_before :
  (Router.GET, "/api/issues/:id"%string, Router.GetIssueById)
  ∈ take 7 Router.table.
Proof. by apply (list_elem_of_lookup_2 _ 6%nat). Qed.

Lemma lookup_cons m' p h t m segs :
  Router.lookup ((m', p, h) :: t) m segs
  = if Router.Method_eqb m m'
    then match Router.matchPath (Router.pattern p) segs with
         | Some params => Some (h, params)
         | None => Router.lookup t m segs
         end
    else Router.lookup t m segs.
Proof. reflexivity. Qed.

(** X10. No request reaches the handler registered for
    [GET /api/issues/escalated]: whatever the method and the path, in any
    letter case, the router hands the request to another handler or to
    none, because every path that matches the route also matches
    [GET /api/issues/:id], which is registered first. *)
Theorem escalation_route_is_dead m segs params :
  Router.route m segs ≠ Some (Router.GetEscalated, params).
Proof.
  unfold Router.route. rewrite table_around_escalated, lookup_app.
  destruct (Router.lookup (take 7 Router.table) m segs) as [[h ps]|] eqn:Hpre.
  - intros [= -> ->]. revert Hpre.
    apply lookup_not_handler, before_escalated.
  - rewrite lookup_cons.
    destruct (Router.Method_eqb m Router.GET) eqn:Hm.
    + destruct (Router.matchPath (Router.pattern "/api/issues/escalated") segs)
        as [ps|] eqn:Hesc.
      * apply escalated_implies_id in Hesc. exfalso. apply Hesc.
        exact (lookup_none _ _ _ Hpre Router.GET "/api/issues/:id"
                 Router.GetIssueById single_issue_before Hm).
      * apply lookup_not_handler, after_escalated.
    + apply lookup_not_handler, after_escalated.
Qed.

(** ** Notifications and the response *)

Lemma notifying_silenced h env id b w :
  (runNotifying h env id b w).1 = (runNotifying h env id b (silenced w)).1
  ∧ issues (runNotifying h env id b w).2
    = issues (runNotifying h env id b (silenced w)).2
  ∧ ngos (runNotifying h env id b w).2
    = ngos (runNotifying h env id b (silenced w)).2.
Proof.
  destruct h; cbn [runNotifying].
  - unfold claimIssue, bind, findByIdAndUpdate. cbn.
    destruct (ObjectId.cast id) as [oid|]; [|done].
    destruct (issues w !! oid) as [i|]; [|done].
    cbn. by rewrite !notifyReporter_run.
  - unfold putStatus, bind, findByIdAndUpdate, catch, saveIssue. cbn.
    destruct (ObjectId.cast id) as [oid|]; [|done].
    destruct (issues w !! oid) as [i|]; [|done].
    cbn. destruct (Issue.validate _); cbn; by rewrite !notifyReporter_run.
  - unfold addUpdate, bind, findById, saveIssue. cbn.
    destruct (ObjectId.cast id) as [oid|]; [|done]. cbn.
    destruct (issues w !! oid) as [i|]; [|done]. cbn.
    destruct (Issue.validate _); [|done]. cbn.
    by rewrite !notifyReporter_run.
  - unfold ngoUpdate, bind, NGO_findOne, findById, saveIssue, saveNGO. cbn.
    change (findNGO (silenced w)) with (findNGO w).
    destruct (ObjectId.cast id) as [oid|]; [|done]. cbn.
    destruct (issues w !! oid) as [i|]; [|done]. cbn.
    destruct (JS.present (Body.status b)) as [s|]; cbn.
    + destruct (isSolved s); cbn.
      * destruct (findNGO w (Body.ngoEmail b)) as [[e n]|]; cbn.
        -- destruct (JS.truthy (NGO.name n)); [|done]. cbn.
           destruct (Issue.validate _); [|done]. cbn.
           by rewrite !notifyReporter_run.
        -- destruct (Issue.validate _); [|done]. cbn.
           by rewrite !notifyReporter_run.
      * destruct (Issue.validate _); [|done]. cbn.
        by rewrite !notifyReporter_run.
    + destruct (Issue.validate _); [|done]. cbn.
      by rewrite !notifyReporter_run.
Qed.

(** X11. Notification never changes what a handler answers or stores.  For
    the plain claim, the status change, add-update and the NGO update, two
    deployments that hold the same issues and NGO records get the same
    response (or the same rejection) and end with the same issues and NGO
    records, whatever their transports, their reporters' preferences and
    the transports' failures. *)
Theorem notification_is_transparent h env id b w1 w2 :
  issues w1 = issues w2 →
  ngos w1 = ngos w2 →
  (runNotifying h env id b w1).1 = (runNotifying h env id b w2).1
  ∧ issues (runNotifying h env id b w1).2
    = issues (runNotifying h env id b w2).2
  ∧ ngos (runNotifying h env id b w1).2
    = ngos (runNotifying h env id b w2).2.
Proof.
  intros Hi Hn.
  destruct (notifying_silenced h env id b w1) as (R1 & I1 & N1).
  destruct (notifying_silenced h env id b w2) as (R2 & I2 & N2).
  assert (Hs : silenced w1 = silenced w2) by (unfold silenced; congruence).
  rewrite R1, I1, N1, R2, I2, N2, Hs. done.
Qed.

Lemma notification_is_transparent_witness :
  (putStatus Sample.env0 Sample.id0 Sample.markInProgress Sample.world0).1
  = (putStatus Sample.env0 Sample.id0 Sample.markInProgress Sample.worldQuiet).1
  ∧ issues (putStatus Sample.env0 Sample.id0 Sample.markInProgress
              Sample.world0).2
    = issues (putStatus Sample.env0 Sample.id0 Sample.markInProgress
                Sample.worldQuiet).2
  ∧ ngos (putStatus Sample.env0 Sample.id0 Sample.markInProgress
            Sample.world0).2
    = ngos (putStatus Sample.env0 Sample.id0 Sample.markInProgress
              Sample.worldQuiet).2.
Proof.
  exact (notification_is_transparent ViaPutStatus Sample.env0 Sample.id0
           Sample.markInProgress Sample.world0 Sample.worldQuiet
           eq_refl eq_refl).
Defined.

(** ** Claiming again, and claims that fail *)


(** X13. The NGO-scoped claim writes nothing unless it succeeds, as long as
    every NGO record is named.  An [ngoEmail] that matches no NGO is
    answered 404 [NGO not found] before the issue id is even read; with a
    known NGO, an id that is no ObjectId rejects without a response, an
    ObjectId that is not stored is answered 404 [Issue not found], and an
    issue that would not pass validation once claimed (an empty title or
    description, an unlisted priority) rejects without a response.  In each
    of these cases the store, counters included, is left as it was. *)
Theorem ngoClaim_rejections env id b w :
  NGOsValid w →
  (findNGO w (Body.ngoEmail b) = None →
   ngoClaim env id b w = (Done (failure 404 "NGO not found"), w))
  ∧ (∀ e n, findNGO w (Body.ngoEmail b) = Some (e, n) →
      (ObjectId.cast id = None →
       ngoClaim env id b w = (Throw CastError, w))
      ∧ (∀ oid, ObjectId.cast id = Some oid →
           (issues w !! oid = None →
            ngoClaim env id b w
            = (Done (failure 404 "Issue not found"), w))
           ∧ (∀ i, issues w !! oid = Some i →
                Issue.validate (claimedBy env n i) = false →
                ngoClaim env id b w = (Throw ValidationError, w))))
  ∧ ((∃ d w', ngoClaim env id b w = (Done (json d), w'))
     ∨ (ngoClaim env id b w).2 = w).
Proof.
  intros Hv.
  unfold ngoClaim, bind, NGO_findOne, findById, saveIssue, saveNGO. cbn.
  destruct (findNGO w (Body.ngoEmail b)) as [[e n]|] eqn:Hngo; cbn.
  2:{ split_and!; try done. by right. }
  pose proof (findNGO_named w _ e n Hv Hngo) as Hname.
  split; [done|]. split.
  - intros e0 n0 [= <- <-]. split.
    + by intros ->.
    + intros oid ->. cbn. split.
      * by intros ->.
      * intros i -> Hval. cbn. by rewrite Hval.
  - destruct (ObjectId.cast id) as [oid|]; cbn; [|by right].
    destruct (issues w !! oid) as [i|]; cbn; [|by right].
    destruct (Issue.validate _); cbn; [|by right].
    rewrite Hname. cbn. left. by eexists _, _.
Qed.

Lemma ngoClaim_rejections_witness :
  ngoClaim Sample.env0 "escalated" Sample.strangerResolved Sample.world0
  = (Done (failure 404 "NGO not found"), Sample.world0)
  ∧ (ngoClaim Sample.env0 "escalated" Sample.byGreenCity Sample.world0
     = (Throw CastError, Sample.world0)).
Proof.
  destruct (ngoClaim_rejections Sample.env0 "escalated"
              Sample.strangerResolved Sample.world0 world0_ngos_valid)
    as (Hnone & _ & _).
  destruct (ngoClaim_rejections Sample.env0 "escalated"
              Sample.byGreenCity Sample.world0 world0_ngos_valid)
    as (_ & Hsome & _).
  split; [exact (Hnone eq_refl)|].
  exact (proj1 (Hsome "green@city.org"%string Sample.greenCity eq_refl) eq_refl).
Defined.


(** ** NGO pages *)

(** X14. [POST /api/ngos/:email/follow] adds the follower at the end of the
    NGO's list without looking for it there, so the follower count of
    [GET /api/ngos/:email/stats] grows by one on every call, also for an
    address that already follows.  The call leaves the impact counters and
    every other NGO as they were; for an unknown NGO it answers 404 and
    writes nothing. *)
Theorem follow_counts_calls email follower w :
  (ngos w !! email = None →
   followNGO email follower w = (Done (Err 404 "NGO not found"), w))
  ∧ (∀ n, ngos w !! email = Some n →
      ∃ n' w',
        followNGO email follower w = (Done (Ok 200 n'), w')
        ∧ ngos w' !! email = Some n'
        ∧ NGO.followers n' = NGO.followers n ++ [follower]
        ∧ NGO.impactStats n' = NGO.impactStats n
        ∧ NGO.name n' = NGO.name n
        ∧ (∀ e', e' ≠ email → ngos w' !! e' = ngos w !! e')
        ∧ issues w' = issues w
        ∧ ngoStats email w
          = (Done (Ok 200 {| impactStats := NGO.impactStats n;
                             followers := length (NGO.followers n) |}), w)
        ∧ ngoStats email w'
          = (Done (Ok 200 {| impactStats := NGO.impactStats n;
                             followers := S (length (NGO.followers n)) |}),
             w')).
Proof.
  unfold followNGO, ngoStats, bind, findNGOAndPushFollower, NGO_findOne,
    findNGO.
  split.
  - by intros ->.
  - intros n Hn. rewrite Hn. eexists _, _. split; [reflexivity|]. cbn.
    rewrite lookup_insert_eq. cbn. split_and!; try done.
    + intros e' Hne. by rewrite lookup_insert_ne.
    + rewrite length_app. cbn. by rewrite Nat.add_1_r.
Qed.

(** ** Profiles *)

Lemma find_updateFirst {A} (q : A → bool) f (l : list A) :
  (∀ x, q x = true → q (f x) = true) →
  List.find q (updateFirst q f l) = f <$> List.find q l.
Proof.
  intros Hq. induction l as [|x l IH]; [done|]. cbn.
  destruct (q x) eqn:Hx; cbn.
  - by rewrite (Hq x Hx).
  - by rewrite Hx.
Qed.

Lemma find_updateFirst_other {A} (q q' : A → bool) f (l : list A) :
  (∀ x, q x = true → q' x = false ∧ q' (f x) = false) →
  List.find q' (updateFirst q f l) = List.find q' l.
Proof.
  intros Hq. induction l as [|x l IH]; [done|]. cbn.
  destruct (q x) eqn:Hx; cbn.
  - destruct (Hq x Hx) as [-> ->]. done.
  - by rewrite IH.
Qed.

Lemma length_updateFirst {A} (q : A → bool) f (l : list A) :
  length (updateFirst q f l) = length l.
Proof.
  induction l as [|x l IH]; [done|]. cbn. destruct (q x); cbn; congruence.
Qed.

Lemma find_snoc {A} (q : A → bool) (l : list A) x :
  List.find q (l ++ [x])
  = match List.find q l with
    | Some y => Some y
    | None => if q x then Some x else None
    end.
Proof.
  induction l as [|y l IH]; cbn; [done|]. by destruct (q y).
Qed.

Lemma postProfile_run body email w :
  JS.present (ProfileBody.email body) = Some email →
  ∃ p' w',
    postProfile body w = (Done (Ok 200 p'), w')
    ∧ findProfile w' email = Some p'
    ∧ p' = applyProfile (withNotifyDefault body)
             (default (blankProfile email) (findProfile w email))
    ∧ Profile.email p' = email
    ∧ Profile.notifyByEmail p'
      = match ProfileBody.notifyByEmail body with
        | None => Some true
        | Some v => v
        end
    ∧ length (profiles w')
      = (length (profiles w)
         + if findProfile w email is Some _ then 0 else 1)%nat
    ∧ (∀ e', e' ≠ email → findProfile w' e' = findProfile w e')
    ∧ issues w' = issues w ∧ ngos w' = ngos w ∧ outbox w' = outbox w.
Proof.
  intros He.
  assert (Hbe : ProfileBody.email body = Some email).
  { unfold JS.present in He. destruct (ProfileBody.email body) as [e|]; [|done].
    destruct (JS.truthy e); congruence. }
  unfold postProfile, bind, upsertProfile. rewrite He.
  destruct (findProfile w email) as [p|] eqn:Hp; cbn.
  - eexists _, _. split; [reflexivity|]. cbn. unfold findProfile in *. cbn.
    rewrite Hbe. cbn. split_and!; try done.
    + rewrite find_updateFirst, Hp; [done|].
      intros x _. cbn. rewrite Hbe. cbn. apply String.eqb_refl.
    + by destruct (ProfileBody.notifyByEmail body).
    + rewrite length_updateFirst. lia.
    + intros e' Hne. apply find_updateFirst_other.
      intros x Hx. apply String.eqb_eq in Hx. cbn. rewrite Hbe, Hx. cbn.
      by split; apply String.eqb_neq.
  - eexists _, _. split; [reflexivity|]. cbn. unfold findProfile in *. cbn.
    rewrite Hbe. cbn. split_and!; try done.
    + rewrite find_snoc, Hp. cbn. rewrite Hbe. cbn.
      by rewrite String.eqb_refl.
    + by destruct (ProfileBody.notifyByEmail body).
    + by rewrite length_app.
    + intros e' Hne. rewrite find_snoc. cbn. rewrite Hbe. cbn.
      destruct (List.find (λ p, Profile.email p =? e')%string (profiles w));
        [done|].
      assert ((email =? e')%string = false) as ->; [|done].
      apply String.eqb_neq. congruence.
Qed.

(** X15. [POST /api/profile] keeps one profile per address and answers with
    what it stored.  With a non-empty [email] it updates the first profile
    stored under the address, or adds one with the schema's defaults when
    there is none; the stored profile has each field of the body that is
    present and the previous (or default) value of each field that is not,
    except [notifyByEmail], which a body without the key sets to [true].
    Profiles under other addresses, issues and NGO records are untouched. *)
Theorem postProfile_upserts body email w :
  JS.present (ProfileBody.email body) = Some email →
  ∃ p' w',
    postProfile body w = (Done (Ok 200 p'), w')
    ∧ findProfile w' email = Some p'
    ∧ p' = applyProfile (withNotifyDefault body)
             (default (blankProfile email) (findProfile w email))
    ∧ Profile.email p' = email
    ∧ Profile.notifyByEmail p'
      = match ProfileBody.notifyByEmail body with
        | None => Some true
        | Some v => v
        end
    ∧ length (profiles w')
      = (length (profiles w)
         + if findProfile w email is Some _ then 0 else 1)%nat
    ∧ (∀ e', e' ≠ email → findProfile w' e' = findProfile w e')
    ∧ issues w' = issues w ∧ ngos w' = ngos w ∧ outbox w' = outbox w.
Proof. apply postProfile_run. Qed.


Lemma postProfile_upserts_witness :
  ∃ p' w',
    postProfile FixturesProfile.rename Sample.worldQuiet = (Done (Ok 200 p'), w')
    ∧ findProfile w' "a@x.com" = Some p'
    ∧ p' = applyProfile (withNotifyDefault FixturesProfile.rename)
             (default (blankProfile "a@x.com")
                (findProfile Sample.worldQuiet "a@x.com"))
    ∧ Profile.email p' = "a@x.com"
    ∧ Profile.notifyByEmail p' = Some true
    ∧ length (profiles w') = (1 + 0)%nat
    ∧ (∀ e', e' ≠ "a@x.com"%string →
             findProfile w' e' = findProfile Sample.worldQuiet e')
    ∧ issues w' = issues Sample.worldQuiet
    ∧ ngos w' = ngos Sample.worldQuiet
    ∧ outbox w' = outbox Sample.worldQuiet.
Proof.
  exact (postProfile_upserts FixturesProfile.rename "a@x.com"
           Sample.worldQuiet eq_refl).
Defined.



(** X17. [GET /api/profile] answers 400 without an address.  With one, it
    returns the first profile stored under it; when there is none it
    creates one from the user registered under the address, opted in to
    notifications, and a second request then reads that profile back
    without adding another; with neither profile nor user it answers
    [null] and writes nothing. *)
Theorem getProfile_seeds users query w :
  (JS.present query = None →
   getProfile users query w = (Done (Err 400 "email is required"), w))
  ∧ (∀ email, JS.present query = Some email →
      (∀ p, findProfile w email = Some p →
         getProfile users query w = (Done (Ok 200 (Some p)), w))
      ∧ (findProfile w email = None → users !! email = None →
         getProfile users query w = (Done (Ok 200 None), w))
      ∧ (∀ u, findProfile w email = None → users !! email = Some u →
           ∃ p' w',
             getProfile users query w = (Done (Ok 200 (Some p')), w')
             ∧ Profile.fullName p' = User.fullName u
             ∧ Profile.email p' = email
             ∧ Profile.notifyByEmail p' = Some true
             ∧ profiles w' = profiles w ++ [p']
             ∧ issues w' = issues w ∧ ngos w' = ngos w
             ∧ getProfile users query w' = (Done (Ok 200 (Some p')), w'))).
Proof.
  unfold getProfile, bind, Profile_findOne, createProfile. split.
  - by intros ->.
  - intros email ->. split_and!.
    + by intros p ->.
    + by intros -> ->.
    + intros u Hp Hu. rewrite Hp, Hu. eexists _, _. split; [reflexivity|].
      cbn. split_and!; try done.
      unfold findProfile in *. cbn. rewrite find_snoc, Hp. cbn.
      by rewrite String.eqb_refl.
Qed.

(** ** Events and wishlists *)

Lemma totalGiven_updateFirst item v l x :
  List.find (named item) l = Some x →
  totalGiven (updateFirst (named item) (Wish.set_donated (Some v)) l)
  = totalGiven l - Wish.given x + JS.or0 v.
Proof.
  induction l as [|y l IH]; [done|]. cbn.
  destruct (named item y) eqn:Hy; cbn.
  - intros [= <-]. unfold Wish.given at 1. cbn. lia.
  - intros Hx. specialize (IH Hx). unfold totalGiven in IH. lia.
Qed.

Lemma updateFirst_snoc {A} (q : A → bool) f (l : list A) x :
  List.find q l = None →
  updateFirst q f (l ++ [x]) = l ++ [if q x then f x else x].
Proof.
  induction l as [|y l IH]; cbn.
  - by destruct (q x).
  - destruct (q y); [done|]. intros H. by rewrite (IH H).
Qed.

Lemma find_updateFirst_named item f l :
  (∀ x, Wish.item (f x) = Wish.item x) →
  List.find (named item) (updateFirst (named item) f l)
  = f <$> List.find (named item) l.
Proof.
  intros Hf. apply find_updateFirst. intros x. unfold named.
  rewrite !bool_decide_eq_true. by rewrite Hf.
Qed.

Lemma donateItem_run id oid item quantity s e x :
  ObjectId.cast id = Some oid →
  s !! oid = Some e →
  Event.validate e = true →
  List.find (named item) (Event.wishlist e) = Some x →
  let e' :=
    Event.set_wishlist
      (updateFirst (named item)
         (Wish.set_donated (Some (JS.plus (Wish.given x) (orOne quantity))))
         (Event.wishlist e)) e in
  donateItem id item quantity s = (Done (Ok 200 (oid, e')), <[oid := e']> s).
Proof.
  intros Hc Hs Hv Hx e'. subst e'.
  unfold donateItem, ebind, Event_findById, saveEvent.
  rewrite Hc, Hs. cbn. rewrite Hx. cbn.
  change (Event.validate (Event.set_wishlist _ e)) with (Event.validate e).
  by rewrite Hv.
Qed.

(** X18. [POST /api/events/:id/donate-item] on a stored, valid event: when
    no wishlist entry has the item's name it answers 404
    [Wishlist item not found] and writes nothing; otherwise it raises the
    [donated] of the first entry with that name, and of no other, from
    [donated || 0] by [quantity || 1], so the sum given over the wishlist
    grows by exactly that amount.  This is for a sum within [2 ^ 53] of
    zero, where the addition of numbers is exact.  Nothing compares the
    result with the entry's [quantity]: a donation larger than what was
    asked for is stored as it is. *)
Theorem donateItem_adds id oid item quantity s e :
  ObjectId.cast id = Some oid →
  s !! oid = Some e →
  Event.validate e = true →
  (List.find (named item) (Event.wishlist e) = None →
   donateItem id item quantity s
   = (Done (Err 404 "Wishlist item not found"), s))
  ∧ (∀ x, List.find (named item) (Event.wishlist e) = Some x →
      JS.exact (Wish.given x + orOne quantity) →
      ∃ e',
        donateItem id item quantity s
        = (Done (Ok 200 (oid, e')), <[oid := e']> s)
        ∧ List.find (named item) (Event.wishlist e')
          = Some (Wish.set_donated
                    (Some (Wish.given x + orOne quantity)) x)
        ∧ length (Event.wishlist e') = length (Event.wishlist e)
        ∧ totalGiven (Event.wishlist e')
          = totalGiven (Event.wishlist e) + orOne quantity
        ∧ (∀ other, other ≠ item →
             filter (λ y, named other y = true) (Event.wishlist e')
             = filter (λ y, named other y = true) (Event.wishlist e))
        ∧ Event.volunteers e' = Event.volunteers e
        ∧ Event.title e' = Event.title e).
Proof.
  intros Hc Hs Hv. split.
  - intros Hx. unfold donateItem, ebind, Event_findById.
    rewrite Hc, Hs. cbn. by rewrite Hx.
  - intros x Hx Hrange. eexists. split; [by apply donateItem_run|]. cbn.
    rewrite (plus_exact _ _ Hrange).
    split_and!; try done.
    + by rewrite find_updateFirst_named, Hx.
    + apply length_updateFirst.
    + rewrite (totalGiven_updateFirst item _ _ x Hx), or0_id. lia.
    + intros other Hne. clear Hx.
      induction (Event.wishlist e) as [|y l IH]; [done|]. cbn.
      destruct (named item y) eqn:Hy; cbn.
      * unfold named in Hy. apply bool_decide_eq_true in Hy.
        assert (Hno : ∀ z, Wish.item z = Wish.item y → named other z ≠ true).
        { intros z Hz. unfold named. rewrite bool_decide_eq_true. congruence. }
        rewrite !decide_False; [done|by apply Hno..].
      * destruct (decide (named other y = true)); [f_equal|]; exact IH.
Qed.

Lemma donateItem_adds_witness :
  ∃ e',
    donateItem FixturesEvent.eid (Some "bags"%string) (Some 20)
      FixturesEvent.calendar
    = (Done (Ok 200 (FixturesEvent.eoid, e')),
       <[FixturesEvent.eoid := e']> FixturesEvent.calendar)
    ∧ List.find (named (Some "bags"%string)) (Event.wishlist e')
      = Some {| Wish.item := Some "bags"%string; Wish.quantity := Some 10;
                Wish.donated := Some 23 |}
    ∧ totalGiven (Event.wishlist e') = 3 + 20.
Proof.
  destruct (proj2 (donateItem_adds FixturesEvent.eid FixturesEvent.eoid
                     (Some "bags"%string) (Some 20) FixturesEvent.calendar
                     FixturesEvent.cleanup eq_refl eq_refl eq_refl)
              _ eq_refl)
    as (e' & Hrun & Hfind & _ & Htotal & _).
  { split; by vm_compute. }
  exists e'. split; [exact Hrun|]. split; [exact Hfind|exact Htotal].
Defined.

(** X19. The two donation routes differ on the same stored, valid event.
    For an item that is not on the wishlist, [POST /api/events/:id/donate]
    answers 200 with the event unchanged where [donate-item] answers 404.
    For an entry whose [donated] was never set, or a request without
    [quantity], [donate] rejects without a response and writes nothing
    where [donate-item] counts from 0 and gives 1 (the sum being within
    [2 ^ 53] of zero, where the addition of numbers is exact).  When both
    numbers are there and the quantity is not 0, the two routes store the
    same event. *)
Theorem donate_routes_differ id oid item quantity s e :
  ObjectId.cast id = Some oid →
  s !! oid = Some e →
  Event.validate e = true →
  (List.find (named item) (Event.wishlist e) = None →
   donate id item quantity s = (Done (Ok 200 (oid, e)), <[oid := e]> s)
   ∧ <[oid := e]> s = s
   ∧ donateItem id item quantity s
     = (Done (Err 404 "Wishlist item not found"), s))
  ∧ (∀ x, List.find (named item) (Event.wishlist e) = Some x →
      (Wish.donated x = None ∨ quantity = None →
       donate id item quantity s = (Throw ValidationError, s)
       ∧ (JS.exact (Wish.given x + orOne quantity) →
          ∃ e', donateItem id item quantity s
                = (Done (Ok 200 (oid, e')), <[oid := e']> s)
                ∧ List.find (named item) (Event.wishlist e')
                  = Some (Wish.set_donated
                            (Some (Wish.given x + orOne quantity)) x)))
      ∧ (∀ d q, Wish.donated x = Some d → quantity = Some q → q ≠ 0 →
           donate id item quantity s = donateItem id item quantity s)).
Proof.
  intros Hc Hs Hv. split.
  - intros Hx. unfold donate, donateItem, ebind, Event_findById, saveEvent.
    rewrite Hc, Hs. cbn. rewrite Hx. cbn. rewrite Hv.
    split_and!; try done. by apply insert_id.
  - intros x Hx. split.
    + intros Hnan. split.
      * unfold donate, ebind, Event_findById. rewrite Hc, Hs. cbn.
        rewrite Hx. by destruct Hnan as [-> | ->]; [|destruct (Wish.donated x)].
      * intros Hrange. eexists. split; [by apply donateItem_run|]. cbn.
        by rewrite find_updateFirst_named, Hx, (plus_exact _ _ Hrange).
    + intros d q Hd -> Hq.
      unfold donate, donateItem, ebind, Event_findById, saveEvent.
      rewrite Hc, Hs. cbn. rewrite Hx, Hd. cbn.
      unfold Wish.given. rewrite Hd. cbn. rewrite or0_id.
      by apply Z.eqb_neq in Hq as ->.
Qed.

Lemma donate_routes_differ_witness :
  (donate FixturesEvent.eid (Some "gloves"%string) (Some 2)
     FixturesEvent.calendar
   = (Throw ValidationError, FixturesEvent.calendar)
   ∧ ∃ e', donateItem FixturesEvent.eid (Some "gloves"%string) (Some 2)
             FixturesEvent.calendar
           = (Done (Ok 200 (FixturesEvent.eoid, e')),
              <[FixturesEvent.eoid := e']> FixturesEvent.calendar)
           ∧ List.find (named (Some "gloves"%string)) (Event.wishlist e')
             = Some {| Wish.item := Some "gloves"%string;
                       Wish.quantity := Some 5; Wish.donated := Some 2 |})
  ∧ donate FixturesEvent.eid (Some "bags"%string) (Some 2)
      FixturesEvent.calendar
    = donateItem FixturesEvent.eid (Some "bags"%string) (Some 2)
        FixturesEvent.calendar.
Proof.
  split.
  - destruct (proj1 (proj2 (donate_routes_differ FixturesEvent.eid
                           FixturesEvent.eoid (Some "gloves"%string) (Some 2)
                           FixturesEvent.calendar FixturesEvent.cleanup
                           eq_refl eq_refl eq_refl) _ eq_refl)
                (or_introl eq_refl)) as [Hdonate Hitem].
    split; [exact Hdonate|]. apply Hitem. split; by vm_compute.
  - exact (proj2 (proj2 (donate_routes_differ FixturesEvent.eid
                           FixturesEvent.eoid (Some "bags"%string) (Some 2)
                           FixturesEvent.calendar FixturesEvent.cleanup
                           eq_refl eq_refl eq_refl) _ eq_refl)
             3 2 eq_refl eq_refl ltac:(discriminate)).
Defined.

(** X20. An item added through [POST /api/events/:id/wishlist] can be
    donated to at once.  On a stored, valid event that has no entry of that
    name, adding the item appends [{ item, quantity: quantity || 1,
    donated: 0 }], and a following [donate-item] finds that entry and sets
    its [donated] to [quantity || 1] of the donation; the entries that were
    there before are untouched. *)
Theorem wish_then_donate id oid item asked gift s e :
  ObjectId.cast id = Some oid →
  s !! oid = Some e →
  Event.validate e = true →
  List.find (named item) (Event.wishlist e) = None →
  ∃ e1 s1 e2 s2,
    addWish id item asked s = (Done (Ok 200 (oid, e1)), s1)
    ∧ Event.wishlist e1
      = Event.wishlist e
        ++ [{| Wish.item := item; Wish.quantity := Some (orOne asked);
               Wish.donated := Some 0 |}]
    ∧ donateItem id item gift s1 = (Done (Ok 200 (oid, e2)), s2)
    ∧ s2 !! oid = Some e2
    ∧ Event.wishlist e2
      = Event.wishlist e
        ++ [{| Wish.item := item; Wish.quantity := Some (orOne asked);
               Wish.donated := Some (orOne gift) |}].
Proof.
  intros Hc Hs Hv Hx.
  eexists _, _, _, _. split.
  { unfold addWish, ebind, Event_findById, saveEvent. rewrite Hc, Hs. cbn.
    change (Event.validate (Event.set_wishlist _ e)) with (Event.validate e).
    rewrite Hv. reflexivity. }
  split; [done|]. split.
  { eapply donateItem_run; [done|apply lookup_insert_eq|done|]. cbn.
    rewrite find_snoc, Hx. unfold named. cbn.
    by rewrite bool_decide_eq_true_2. }
  split; [apply lookup_insert_eq|]. cbn.
  rewrite updateFirst_snoc by done. unfold named at 1. cbn.
  by rewrite bool_decide_eq_true_2.
Qed.

Lemma wish_then_donate_witness :
  ∃ e1 s1 e2 s2,
    addWish FixturesEvent.eid (Some "rakes"%string) None FixturesEvent.calendar
    = (Done (Ok 200 (FixturesEvent.eoid, e1)), s1)
    ∧ Event.wishlist e1
      = Event.wishlist FixturesEvent.cleanup
        ++ [{| Wish.item := Some "rakes"%string; Wish.quantity := Some 1;
               Wish.donated := Some 0 |}]
    ∧ donateItem FixturesEvent.eid (Some "rakes"%string) (Some 4) s1
      = (Done (Ok 200 (FixturesEvent.eoid, e2)), s2)
    ∧ s2 !! FixturesEvent.eoid = Some e2
    ∧ Event.wishlist e2
      = Event.wishlist FixturesEvent.cleanup
        ++ [{| Wish.item := Some "rakes"%string; Wish.quantity := Some 1;
               Wish.donated := Some 4 |}].
Proof.
  exact (wish_then_donate FixturesEvent.eid FixturesEvent.eoid
           (Some "rakes"%string) None (Some 4) FixturesEvent.calendar
           FixturesEvent.cleanup eq_refl eq_refl eq_refl eq_refl).
Defined.

(** ** Accounts *)

Lemma normalizedRole_listed role : Issue.inEnum roles (normalizedRole role) = true.
Proof.
  unfold normalizedRole. destruct role as [r|]; [|done].
  by destruct (Issue.inEnum roles r) eqn:Hr.
Qed.

Lemma passcode_accepted role code :
  passcodeRefused role code = false →
  (role = "ngo" → code = Some "NGO25"%string)
  ∧ (role = "admin" → code = Some "ADMIN25"%string).
Proof.
  unfold passcodeRefused. rewrite orb_false_iff, !andb_false_iff.
  rewrite !negb_false_iff, !bool_decide_eq_true, !String.eqb_neq.
  intros [[?|?] [?|?]]; split; intros ->; done.
Qed.

(** X21. [POST /api/auth/signup] always answers, and creates an account
    only with the answer 201.  The account's role is the requested one when
    that is [citizen], [ngo] or [admin] and [citizen] for anything else; an
    [ngo] account exists only if the request carried the passcode [NGO25]
    and an [admin] account only if it carried [ADMIN25].  The new account
    is stored under an address that had none, and every other answer leaves
    the users as they were. *)
Theorem signup_role_gate `{Crypto} env body s :
  ∃ r s',
    signup env body s = (Done r, s')
    ∧ world s' = world s
    ∧ match r with
      | Ok c sess =>
          c = 201%nat
          ∧ ∃ email u,
              JS.present (AuthBody.email body) = Some email
              ∧ users s !! email = None
              ∧ users s' = <[email := u]> (users s)
              ∧ s_role sess = User.role u
              ∧ User.role u = normalizedRole (AuthBody.role body)
              ∧ Issue.inEnum roles (User.role u) = true
              ∧ (User.role u = "ngo" →
                 AuthBody.rolePasscode body = Some "NGO25"%string)
              ∧ (User.role u = "admin" →
                 AuthBody.rolePasscode body = Some "ADMIN25"%string)
      | Err c _ => c ≠ 201%nat ∧ users s' = users s
      end.
Proof.
  unfold signup, scatch, sbind, User_findOne, User_create, sret.
  destruct (JS.present (AuthBody.fullName body)) as [fullName|];
    [|by eexists _, _].
  destruct (JS.present (AuthBody.email body)) as [email|] eqn:He;
    [|by eexists _, _].
  destruct (JS.present (AuthBody.password body)) as [password|];
    [|by eexists _, _].
  destruct (passcodeRefused _ _) eqn:Hcode; [by eexists _, _|].
  destruct (users s !! email) eqn:Hu; [by eexists _, _|].
  destruct (JS.truthy email && validUser _); [|by eexists _, _].
  rewrite Hu. eexists _, _. split; [reflexivity|]. cbn.
  split; [done|]. split; [done|]. eexists email, _.
  split_and!; try done.
  - apply normalizedRole_listed.
  - cbn. by apply passcode_accepted.
  - cbn. by apply passcode_accepted.
Qed.

Lemma signup_run `{CryptoLaws} env body s fullName email password :
  JS.present (AuthBody.fullName body) = Some fullName →
  JS.present (AuthBody.email body) = Some email →
  JS.present (AuthBody.password body) = Some password →
  passcodeRefused (normalizedRole (AuthBody.role body))
    (AuthBody.rolePasscode body) = false →
  users s !! email = None →
  let u := {| User.uid := freshUid env; User.fullName := fullName;
              User.passwordHash := bcrypt_hash (salt env) password;
              User.role := normalizedRole (AuthBody.role body);
              User.organization := AuthBody.organization body |} in
  signup env body s
  = (Done (Ok 201 (sessionOf env email u)),
     {| world := world s; users := <[email := u]> (users s) |}).
Proof.
  intros Hf He Hp Hcode Hu u.
  unfold signup, scatch, sbind, User_findOne, User_create, sret.
  rewrite Hf, He, Hp, Hcode, Hu.
  assert (Hte : JS.truthy email = true).
  { unfold JS.present in He. destruct (AuthBody.email body) as [e|]; [|done].
    destruct (JS.truthy e) eqn:Ht; congruence. }
  assert (Htf : JS.truthy fullName = true).
  { unfold JS.present in Hf. destruct (AuthBody.fullName body) as [e|]; [|done].
    destruct (JS.truthy e) eqn:Ht; congruence. }
  rewrite Hte. unfold validUser.
  cbn [User.fullName User.passwordHash User.role].
  rewrite Htf, hash_nonempty, normalizedRole_listed. cbn.
  by rewrite Hu.
Qed.

(** X22. An account can log in with the credentials it was created with.
    After a successful [POST /api/auth/signup], a later
    [POST /api/auth/login] with the same address and password answers 200
    with the same id, name, address and role and a token of its own, and
    writes nothing; with the same address and a password that
    [bcrypt.compare] rejects against the stored hash it answers 401
    [Invalid credentials].  A second signup with that address answers
    409. *)
Theorem login_after_signup `{CryptoLaws} env body s sess s' :
  signup env body s = (Done (Ok 201 sess), s') →
  (∀ env', ∃ tok,
      login env' body s'
      = (Done (Ok 200 {| token := tok; s_id := s_id sess;
                         s_fullName := s_fullName sess;
                         s_email := s_email sess;
                         s_role := s_role sess |}), s'))
  ∧ (∃ email u password,
       JS.present (AuthBody.email body) = Some email
       ∧ JS.present (AuthBody.password body) = Some password
       ∧ users s' !! email = Some u
       ∧ User.passwordHash u = bcrypt_hash (salt env) password
       ∧ ∀ env' body',
           JS.present (AuthBody.email body') = Some email →
           (∀ p', JS.present (AuthBody.password body') = Some p' →
                  bcrypt_compare p' (User.passwordHash u) = false →
                  login env' body' s'
                  = (Done (Err 401 "Invalid credentials"), s')))
  ∧ (∀ env', signup env' body s'
             = (Done (Err 409 "Email already registered"), s')).
Proof.
  unfold signup, login, scatch, sbind, User_findOne, User_create, sret.
  destruct (JS.present (AuthBody.fullName body)) as [fullName|]; [|done].
  destruct (JS.present (AuthBody.email body)) as [email|] eqn:He; [|done].
  destruct (JS.present (AuthBody.password body)) as [password|]; [|done].
  destruct (passcodeRefused _ _) eqn:Hcode; [done|].
  destruct (users s !! email) eqn:Hu; [done|].
  destruct (JS.truthy email && validUser _); [|done].
  rewrite Hu. intros [= <- <-]. cbn. rewrite lookup_insert_eq. cbn.
  rewrite compare_hash. split_and!; try done.
  - intros env'. by eexists.
  - eexists email, _, password.
    split; [done|]. split; [done|]. split; [apply lookup_insert_eq|].
    split; [done|].
    cbn. intros env' body' -> p' -> Hbad. cbn. rewrite lookup_insert_eq.
    cbn. by rewrite Hbad.
Qed.

Lemma toy_laws : @CryptoLaws FixturesAuth.toy.
Proof.
  split.
  - intros salt password. cbn. apply String.eqb_refl.
  - done.
Qed.

Lemma login_after_signup_witness :
  ∃ sess s' tok,
    @signup FixturesAuth.toy FixturesAuth.env FixturesAuth.helper
      FixturesAuth.site0 = (Done (Ok 201 sess), s')
    ∧ s_role sess = "ngo"
    ∧ @login FixturesAuth.toy FixturesAuth.later FixturesAuth.helper s'
      = (Done (Ok 200 {| token := tok; s_id := s_id sess;
                         s_fullName := s_fullName sess;
                         s_email := s_email sess;
                         s_role := s_role sess |}), s')
    ∧ (∀ env', @signup FixturesAuth.toy env' FixturesAuth.helper s'
               = (Done (Err 409 "Email already registered"), s')).
Proof.
  destruct (@login_after_signup FixturesAuth.toy toy_laws FixturesAuth.env
              FixturesAuth.helper FixturesAuth.site0 _ _ eq_refl)
    as (Hlogin & _ & Hagain).
  destruct (Hlogin FixturesAuth.later) as [tok Htok].
  eexists _, _, tok. split; [reflexivity|]. split; [reflexivity|].
  split; [exact Htok|exact Hagain].
Defined.

Lemma present_truthy x s : JS.present x = Some s → JS.truthy s = true.
Proof.
  unfold JS.present. destruct x as [e|]; [|done].
  destruct (JS.truthy e) eqn:Ht; congruence.
Qed.

(** X23. The two ways to an NGO account are not equivalent.  For an address
    with no NGO record yet: an account made by [POST /api/ngo/auth/signup]
    comes with an NGO record of that name whose counters are 0, a later NGO
    login returns the record, and its first NGO-scoped claim of an existing
    valid issue succeeds and brings [issuesClaimed] to 1.  An account with
    role [ngo] made by [POST /api/auth/signup] has no NGO record: its NGO
    login answers 200 with [ngo: null], and its NGO-scoped claim is answered
    404 [NGO not found], the store unchanged. *)
Theorem ngo_account_paths `{CryptoLaws} env cenv id oid body b s i email :
  JS.present (AuthBody.email body) = Some email →
  Body.ngoEmail b = Some email →
  ngos (world s) !! email = None →
  ObjectId.cast id = Some oid →
  issues (world s) !! oid = Some i →
  Issue.validate i = true →
  (∀ r s1,
      ngoSignup env body s = (Done (Ok 201 r), s1) →
      ∃ n d s2 n',
        n_ngo r = Some n
        ∧ ngos (world s1) !! email = Some n
        ∧ JS.present (AuthBody.name body) = Some (NGO.name n)
        ∧ NGO.issuesClaimed (NGO.impactStats n) = 0
        ∧ NGO.issuesSolved (NGO.impactStats n) = 0
        ∧ (∀ env', ∃ tok,
              ngoLogin env' body s1
              = (Done (Ok 200 {| n_token := tok; n_ngo := Some n |}), s1))
        ∧ onWorld (ngoClaim cenv id b) s1 = (Done (json d), s2)
        ∧ Issue.claimedByNGO d.2 = NGO.name n
        ∧ ngos (world s2) !! email = Some n'
        ∧ NGO.issuesClaimed (NGO.impactStats n') = 1)
  ∧ (∀ sess s1,
      signup env body s = (Done (Ok 201 sess), s1) →
      s_role sess = "ngo" →
      (∀ env', ∃ tok,
          ngoLogin env' body s1
          = (Done (Ok 200 {| n_token := tok; n_ngo := None |}), s1))
      ∧ onWorld (ngoClaim cenv id b) s1
        = (Done (failure 404 "NGO not found"), s1)).
Proof.
  intros He Hb Hn Hcast Hstored Hval. split.
  - intros r s1.
    unfold ngoSignup, ngoLogin, scatch, sbind, User_findOne, User_create,
      NGO_create, sret.
    rewrite He.
    destruct (JS.present (AuthBody.name body)) as [name|] eqn:Hname; [|done].
    destruct (JS.present (AuthBody.password body)) as [password|]; [|done].
    destruct (negb _); [done|].
    destruct (users s !! email) eqn:Hu; [done|].
    destruct (JS.truthy email && validUser _); [|done].
    rewrite Hu. cbn.
    destruct (JS.truthy email && JS.truthy name); [|done].
    rewrite Hn. intros [= <- <-]. cbn.
    rewrite !lookup_insert_eq. cbn. rewrite compare_hash.
    pose proof (present_truthy _ _ Hname) as Htn.
    eexists _, _, _, _.
    do 5 (split; [done|]).
    split.
    { intros env'. eexists. unfold set_ngos. cbn.
      by rewrite ?lookup_insert_eq. }
    unfold onWorld. cbn [world].
    match goal with
    | |- context [ngoClaim cenv id b ?w1] =>
        rewrite (ngoClaim_run cenv id oid b w1 i Hcast Hstored email _ Hb
                   (lookup_insert_eq _ _ _) Htn Hval)
    end.
    cbn. split; [reflexivity|]. split; [done|].
    split; [apply lookup_insert_eq|done].
  - intros sess s1.
    unfold signup, ngoLogin, scatch, sbind, User_findOne, User_create, sret.
    rewrite He.
    destruct (JS.present (AuthBody.fullName body)) as [fullName|]; [|done].
    destruct (JS.present (AuthBody.password body)) as [password|]; [|done].
    destruct (passcodeRefused _ _); [done|].
    destruct (users s !! email) eqn:Hu; [done|].
    destruct (JS.truthy email && validUser _); [|done].
    rewrite Hu. intros [= <- <-]. cbn. intros Hrole.
    rewrite lookup_insert_eq. cbn. rewrite Hrole, compare_hash. cbn.
    split.
    { intros env'. eexists. by rewrite Hn. }
    unfold onWorld, ngoClaim, bind, NGO_findOne, findNGO. cbn.
    rewrite Hb, Hn. cbn. by destruct s as [[] ?].
Qed.

Lemma ngo_account_paths_witness :
  (∃ r s1 n d s2 n' tok,
      @ngoSignup FixturesAuth.toy FixturesAuth.env FixturesAuth.helper
        FixturesAuth.site0 = (Done (Ok 201 r), s1)
      ∧ n_ngo r = Some n
      ∧ NGO.name n = "River Helpers"
      ∧ @ngoLogin FixturesAuth.toy FixturesAuth.later FixturesAuth.helper s1
        = (Done (Ok 200 {| n_token := tok; n_ngo := Some n |}), s1)
      ∧ onWorld (ngoClaim Sample.env0 Sample.id0 FixturesAuth.byHelper) s1
        = (Done (json d), s2)
      ∧ ngos (world s2) !! "help@river.org" = Some n'
      ∧ NGO.issuesClaimed (NGO.impactStats n') = 1)
  ∧ (∃ sess s1 tok,
      @signup FixturesAuth.toy FixturesAuth.env FixturesAuth.helper
        FixturesAuth.site0 = (Done (Ok 201 sess), s1)
      ∧ @ngoLogin FixturesAuth.toy FixturesAuth.later FixturesAuth.helper s1
        = (Done (Ok 200 {| n_token := tok; n_ngo := None |}), s1)
      ∧ onWorld (ngoClaim Sample.env0 Sample.id0 FixturesAuth.byHelper) s1
        = (Done (failure 404 "NGO not found"), s1)).
Proof.
  destruct (@ngo_account_paths FixturesAuth.toy toy_laws FixturesAuth.env
              Sample.env0 Sample.id0 Sample.oid0 FixturesAuth.helper
              FixturesAuth.byHelper FixturesAuth.site0 Sample.pothole
              "help@river.org" eq_refl eq_refl eq_refl eq_refl eq_refl eq_refl)
    as [Hngo Hgen].
  split.
  - destruct (Hngo _ _ eq_refl)
      as (n & d & s2 & n' & H1 & _ & H3 & _ & _ & H6 & H7 & _ & H9 & H10).
    destruct (H6 FixturesAuth.later) as [tok Htok].
    eexists _, _, n, d, s2, n', tok. split; [reflexivity|].
    split; [exact H1|]. split.
    { cbn in H3. by injection H3. }
    split; [exact Htok|]. split; [exact H7|]. split; [exact H9|exact H10].
  - destruct (Hgen _ _ eq_refl eq_refl) as [Hlogin Hclaim].
    destruct (Hlogin FixturesAuth.later) as [tok Htok].
    eexists _, _, tok. split; [reflexivity|].
    split; [exact Htok|exact Hclaim].
Defined.

(** ** The admin dashboard *)

Lemma bind_run {A B} (m : M A) (k : A → M B) w a w' :
  m w = (Done a, w') → bind m k w = k a w'.
Proof. unfold bind. by intros ->. Qed.

(** X24. One status change made from the admin dashboard is recorded twice.
    For an existing valid issue and a status [s] of the schema's
    enumeration, [changeStatus] leaves the issue with status [s], two new
    [statusHistory] entries for [s] by [admin] (one dated by each request),
    and one new update with the text [Status changed to s by admin]; and a
    reporter who has an e-mail address and has not opted out, with a
    transport configured, is sent two messages for it.  When the issue does
    not exist the first request answers 404 and nothing is changed. *)
Theorem admin_change_records_twice env1 env2 id oid s w i :
  ObjectId.cast id = Some oid →
  issues w !! oid = Some i →
  Issue.validate i = true →
  Issue.inEnum Issue.statusEnum s = true →
  (∃ i' w',
      AdminDashboard.changeStatus env1 env2 id s w = (Done tt, w')
      ∧ issues w' = <[oid := i']> (issues w)
      ∧ ngos w' = ngos w
      ∧ Issue.status i' = s
      ∧ Issue.statusHistory i'
        = Issue.statusHistory i
          ++ [ {| StatusEntry.status := Some s; StatusEntry.date := now env1;
                  StatusEntry.by_ := "admin" |};
               {| StatusEntry.status := Some s; StatusEntry.date := now env2;
                  StatusEntry.by_ := "admin" |} ]
      ∧ Issue.updates i'
        = Issue.updates i
          ++ [ {| Update.text := AdminDashboard.note s;
                  Update.date := now env2; Update.by_ := "admin" |} ]
      ∧ (∀ e ok,
            Issue.reporterEmail i = Some e → JS.truthy e = true →
            optedIn (findProfile w e) = true → mailer w = Some ok →
            ∃ m1 m2, outbox w' = outbox w ++ [m1; m2]
                     ∧ to m1 = e ∧ to m2 = e))
  ∧ (∀ w0, issues w0 !! oid = None →
           AdminDashboard.changeStatus env1 env2 id s w0 = (Done tt, w0)).
Proof.
  intros Hcast Hstored Hval Hs.
  assert (Hts : JS.truthy s = true).
  { destruct s; [done|done]. }
  assert (Htn : JS.truthy (AdminDashboard.note s) = true) by done.
  split.
  - pose proof (validate_statusChanged env1 s i Hval Hs) as Hv1.
    set (i1 := Issue.touch (now env1) (statusChanged env1 (Some s) i)).
    set (w1 := {| issues := <[oid := i1]> (issues w);
                  ngos := ngos w; profiles := profiles w; mailer := mailer w;
                  outbox := outbox w
                            ++ notification w i1 (statusMail i1 (Some s)) |}).
    set (b2 := Sample.say (Some s) None None (Some (AdminDashboard.note s))
                 (Some "admin")).
    assert (Hl : statusListed b2).
    { intros s2. cbn. unfold JS.present. rewrite Hts. by intros [= <-]. }
    assert (Hv2 : Issue.validate (updateAdded env2 b2 i1) = true).
    { apply validate_updateAdded; [exact Hv1|done]. }
    eexists _, _. split.
    { unfold AdminDashboard.changeStatus.
      erewrite bind_run;
        [|exact (putStatus_run env1 id oid (Body.statusUpdate (Some s)) w i
                   Hcast Hstored Hv1)].
      match goal with
      | |- context [AdminDashboard.ok ?r] =>
          change (AdminDashboard.ok r) with true
      end.
      cbv iota.
      erewrite bind_run;
        [|exact (addUpdate_run env2 id oid b2 w1 i1 Hcast
                   (lookup_insert_eq _ _ _) Hv2)].
      reflexivity. }
    cbn. split_and!.
    + by rewrite insert_insert_eq.
    + done.
    + unfold updateAdded. cbn. unfold JS.present. by rewrite Hts.
    + unfold updateAdded. cbn. unfold JS.present. rewrite Hts. cbn.
      unfold JS.or. cbn. by rewrite <- app_assoc.
    + unfold updateAdded. cbn. unfold JS.present. rewrite Hts. cbn.
      unfold JS.or. cbn. by rewrite Htn.
    + intros e ok He Hte Hopt Hm.
      erewrite (notification_sent w i1) by (try done).
      erewrite (notification_sent w1) by (try done; unfold updateAdded; cbn;
        unfold JS.present; rewrite Hts; done).
      eexists _, _. split; [by rewrite <- app_assoc|done].
  - intros w0 Hnone.
    unfold AdminDashboard.changeStatus, bind, putStatus, bind,
      findByIdAndUpdate.
    by rewrite Hcast, Hnone.
Qed.

Lemma admin_change_records_twice_witness :
  ∃ i' w' m1 m2,
    AdminDashboard.changeStatus Sample.env0 Sample.env0 Sample.id0 "resolved"
      Sample.world0 = (Done tt, w')
    ∧ issues w' = <[Sample.oid0 := i']> (issues Sample.world0)
    ∧ Issue.status i' = "resolved"
    ∧ length (Issue.statusHistory i') = 2%nat
    ∧ outbox w' = [m1; m2]
    ∧ to m1 = "a@x.com" ∧ to m2 = "a@x.com".
Proof.
  destruct (admin_change_records_twice Sample.env0 Sample.env0 Sample.id0
              Sample.oid0 "resolved" Sample.world0 Sample.pothole
              eq_refl eq_refl eq_refl eq_refl)
    as [(i' & w' & Hrun & Hi & _ & Hst & Hh & _ & Hmail) _].
  destruct (Hmail "a@x.com" true eq_refl eq_refl eq_refl eq_refl)
    as (m1 & m2 & Hout & H1 & H2).
  exists i', w', m1, m2.
  split; [exact Hrun|]. split; [exact Hi|]. split; [exact Hst|].
  split; [by rewrite Hh|].
  split; [exact Hout|]. split; [exact H1|exact H2].
Defined.

(** ** The NGO dashboard *)

Lemma listIssues_run reporter claimedByNGO w :
  ∃ l,
    listIssues reporter claimedByNGO w
    = (Done {| code := 200; payload := JIssues l |}, w)
    ∧ ∀ k i, (k, i) ∈ l ↔
             issues w !! k = Some i
             ∧ satisfies (listQuery reporter claimedByNGO) i = true.
Proof.
  eexists. split; [reflexivity|].
  intros k i. rewrite merge_sort_Permutation, list_elem_of_filter.
  rewrite elem_of_map_to_list. cbn. tauto.
Qed.

(** X25. The NGO dashboard does not list what it claims.  The page claims
    under the stored NGO name and asks for its claimed issues by the stored
    e-mail address.  When both are stored, non-empty and different, a claim
    of an existing issue succeeds and stores the name in [claimedByNGO], the
    NGO counters unchanged, and the list the page loads afterwards does not
    contain the issue.  With no address stored the page is given every
    issue of the store, claimed or not. *)
Theorem ngo_dashboard_claim_unlisted env ls id oid w i name email :
  ObjectId.cast id = Some oid →
  issues w !! oid = Some i →
  NGODashboard.auth_name ls = Some name →
  NGODashboard.auth_email ls = Some email →
  JS.truthy name = true →
  JS.truthy email = true →
  name ≠ email →
  (∃ i' w' l,
      NGODashboard.claimIssue env ls id w = (Done (json (oid, i')), w')
      ∧ issues w' !! oid = Some i'
      ∧ Issue.claimedByNGO i' = name
      ∧ Issue.claimStatus i' = "claimed"
      ∧ ngos w' = ngos w
      ∧ NGODashboard.loadClaims ls w'
        = (Done {| code := 200; payload := JIssues l |}, w')
      ∧ (∀ j, (oid, j) ∉ l)
      ∧ (∀ k j, (k, j) ∈ l ↔
                k ≠ oid ∧ issues w !! k = Some j ∧ Issue.claimedByNGO j = email))
  ∧ (∀ ls0 w0,
      JS.present (NGODashboard.auth_email ls0) = None →
      ∃ l, NGODashboard.loadClaims ls0 w0
           = (Done {| code := 200; payload := JIssues l |}, w0)
           ∧ ∀ k j, (k, j) ∈ l ↔ issues w0 !! k = Some j).
Proof.
  intros Hcast Hstored Hn He Htn Hte Hne. split.
  - unfold NGODashboard.claimIssue, NGODashboard.loadClaims,
      NGODashboard.ngoName.
    rewrite Hn, He. unfold JS.or. rewrite Htn, Hte.
    set (i' := Issue.touch (now env)
                 (applyUpdate (Body.claimUpdate (Some name)) i)).
    set (w' := {| issues := <[oid := i']> (issues w);
                  ngos := ngos w; profiles := profiles w; mailer := mailer w;
                  outbox := outbox w
                            ++ notification w i' (claimMail i' (Some name)) |}).
    destruct (listIssues_run None (Some email) w') as (l & Hl & Hin).
    assert (Hq : ∀ j, satisfies (listQuery None (Some email)) j
                      = String.eqb (Issue.claimedByNGO j) email).
    { intros j. unfold listQuery, JS.present. by rewrite Hte. }
    exists i', w', l. split_and!; try done.
    + exact (claimIssue_run env id oid
               (Sample.say None (Some name) None None None) w i Hcast Hstored).
    + apply lookup_insert_eq.
    + intros j Hj. apply Hin in Hj as [Hj Hs]. cbn in Hj.
      rewrite lookup_insert_eq in Hj. injection Hj as <-.
      rewrite Hq in Hs. cbn in Hs. apply String.eqb_eq in Hs. done.
    + intros k j. rewrite Hin, Hq, String.eqb_eq. cbn.
      destruct (decide (k = oid)) as [->|Hk].
      * rewrite lookup_insert_eq. split; [|tauto].
        intros [[= <-] Hc]. cbn in Hc. done.
      * rewrite lookup_insert_ne by done. tauto.
  - intros ls0 w0 Hnone. unfold NGODashboard.loadClaims.
    destruct (listIssues_run None
                (Some (JS.or (NGODashboard.auth_email ls0) "")) w0)
      as (l & Hl & Hin).
    exists l. split; [done|].
    intros k j. rewrite Hin.
    assert (Hq : listQuery None
                   (Some (JS.or (NGODashboard.auth_email ls0) "")) = AnyIssue).
    { unfold listQuery, JS.or, JS.present in *.
      destruct (NGODashboard.auth_email ls0) as [e|]; [|done].
      destruct (JS.truthy e) eqn:Ht; [done|]. done. }
    rewrite Hq. cbn. tauto.
Qed.

Lemma ngo_dashboard_claim_unlisted_witness :
  ∃ i' w' l,
    NGODashboard.claimIssue Sample.env0
      {| NGODashboard.auth_name := Some "GreenCity";
         NGODashboard.auth_email := Some "green@city.org" |}
      Sample.id0 Sample.world0 = (Done (json (Sample.oid0, i')), w')
    ∧ Issue.claimedByNGO i' = "GreenCity"
    ∧ NGODashboard.loadClaims
        {| NGODashboard.auth_name := Some "GreenCity";
           NGODashboard.auth_email := Some "green@city.org" |} w'
      = (Done {| code := 200; payload := JIssues l |}, w')
    ∧ ∀ j, (Sample.oid0, j) ∉ l.
Proof.
  destruct (ngo_dashboard_claim_unlisted Sample.env0
              {| NGODashboard.auth_name := Some "GreenCity";
                 NGODashboard.auth_email := Some "green@city.org" |}
              Sample.id0 Sample.oid0 Sample.world0 Sample.pothole
              "GreenCity" "green@city.org"
              eq_refl eq_refl eq_refl eq_refl eq_refl eq_refl
              ltac:(discriminate))
    as [(i' & w' & l & Hrun & _ & Hc & _ & _ & Hl & Hout & _) _].
  exists i', w', l.
  split; [exact Hrun|]. split; [exact Hc|]. split; [exact Hl|exact Hout].
Defined.
